(** * German renewable-energy capacity factors: the control and aggregation
      structure of [kfw_mastr], embedded and checked against its specification.

    The development follows the Python sources:
    - [kfw_mastr/utils/helpers.py]  : [compute_monthly_statistics],
      [get_curtailment], [create_results_dict];
    - [kfw_mastr/wind.py]           : [get_power], [calculate_power],
      [calc_capacity_factor_wind];
    - [kfw_mastr/solar.py]          : [calc_capacity_factor];
    - [kfw_mastr/utils/session_funcs.py] : [save_and_commit], [save_to_db],
      [batch_update];
    - [kfw_mastr/calculate_cf_wind.py], [kfw_mastr/calculate_cf_solar.py] :
      the per-year, per-unit loops;
    - [kfw_mastr/aggregator.py]     : the SQL of [aggregate];
    - [kfw_mastr/setup_database.py] : [calculate_solar_angles] with
      [duplicate_feb_28], [map_turbine], [map_hub_height],
      [update_turbine_type_and_hub_height], [map_azimuth_angle],
      [map_tilt_angle], [update_azimuth_and_tilt_angle];
    - [kfw_mastr/utils/config.py]   : [set_env_var_from_config],
      [setup_configs];
    - [kfw_mastr/utils/helpers.py]  : [fetch_batch], [write_to_csv] and the
      loop of [export_to_csv].

    Numbers.  A Python/NumPy float is modelled as an exact rational or NaN
    ([float64]); rounding to [d] decimals is NumPy's
    [rint(x * 10^d) / 10^d] with ties to even.  Binary rounding error of the
    IEEE arithmetic is not modelled; the concrete inputs used below are chosen
    so that the stated values do not depend on it.

    What lies outside the Python code is a parameter: the weather data and
    the physical formulas (the hourly wind speed at hub height, the module
    power of [solar_calculations]), the PostGIS query behind
    [get_nearest_era5_coordinate], pvlib's [get_solarposition], the
    constants of [utils/constants.py] ([LEAP_YEARS], [pvm_max_power],
    [MASTR_TURBINE_MAP], [AVERAGE_HUB_HEIGHT_MASTR], [AZIMUTH_ANGLE_MAP],
    [TILT_ANGLE_MAP], [UPDATE_LOG]), and the database, which is seen through
    the statements that [batch_update] hands to it and the rows that a
    query returns.

    The file has four parts: the embedding of the sources, the notions used
    to state the properties, concrete inputs, and the properties with their
    proofs. *)

From Stdlib Require Import String Ascii ZArith QArith Qround Qabs Bool Lia Lqa List.
Import ListNotations.

Local Close Scope Q_scope.
Local Close Scope Z_scope.
Local Open Scope string_scope.
Local Open Scope list_scope.

Set Implicit Arguments.
Set Warnings "-abstract-large-number".

(* ================================================================== *)
(** * Python exceptions and fallible results                           *)
(* ================================================================== *)

Inductive exn : Type :=
| ValueError
| TypeError
| IndexError
| KeyError
| UnboundLocalError.

Inductive result (A : Type) : Type :=
| Ok (a : A)
| Raise (e : exn).

Arguments Ok {A} a.
Arguments Raise {A} e.

Definition bind {A B : Type} (m : result A) (k : A -> result B) : result B :=
  match m with
  | Ok a => k a
  | Raise e => Raise e
  end.

Declare Scope py_scope.
Delimit Scope py_scope with py.
Notation "x <- m ;; k" := (bind m (fun x => k))
  (at level 61, m at next level, right associativity) : py_scope.
Notation "' pat <- m ;; k" := (bind m (fun x => match x with pat => k end))
  (at level 61, pat pattern, m at next level, right associativity) : py_scope.

(** Environment variables, as read by [os.getenv]. *)
Definition environ := string -> option string.

(* ================================================================== *)
(** * NumPy floats and arrays                                          *)
(* ================================================================== *)

Module Np.

(** A float is a rational or NaN.  A division by zero, which NumPy answers
    with an infinity or NaN, is answered with [NaN] here. *)
Inductive float64 : Type :=
| Num (q : Q)
| NaN.

(** Results are kept in lowest terms, so that equal values are equal terms. *)
Definition num (q : Q) : float64 := Num (Qred q).

(** Arithmetic: NaN propagates. *)
Definition lift2 (f : Q -> Q -> Q) (x y : float64) : float64 :=
  match x, y with
  | Num a, Num b => num (f a b)
  | _, _ => NaN
  end.

Definition fadd : float64 -> float64 -> float64 := lift2 Qplus.
Definition fmul : float64 -> float64 -> float64 := lift2 Qmult.

Definition fdiv (x y : float64) : float64 :=
  match x, y with
  | Num a, Num b => if Qeq_bool b 0%Q then NaN else num (a / b)%Q
  | _, _ => NaN
  end.

(** [bool(x)] of a float: every value but zero is true (NaN included). *)
Definition truthy (x : float64) : bool :=
  match x with
  | Num q => negb (Qeq_bool q 0%Q)
  | NaN => true
  end.

(** [rint]: the nearest integer, ties to the even one. *)
Definition rint (q : Q) : Z :=
  let f := Qfloor q in
  match ((q - inject_Z f) ?= (1 # 2))%Q with
  | Lt => f
  | Gt => (f + 1)%Z
  | Eq => if Z.even f then f else (f + 1)%Z
  end.

Definition pow10 (d : nat) : Q := inject_Z (10 ^ Z.of_nat d)%Z.

(** [np.round(x, d)] for [d >= 0]. *)
Definition round_q (d : nat) (q : Q) : Q :=
  (inject_Z (rint (q * pow10 d)) / pow10 d)%Q.

Definition round (d : nat) (x : float64) : float64 :=
  match x with
  | Num q => num (round_q d q)
  | NaN => NaN
  end.

(** [np.nan_to_num(x, nan=0.0)] on the values of the model. *)
Definition nan_to_num (x : float64) : float64 :=
  match x with
  | Num q => Num q
  | NaN => Num 0%Q
  end.

(** [np.sum]: the empty sum is [0.0]. *)
Definition sum (xs : list float64) : float64 :=
  fold_left fadd xs (Num 0%Q).

(** [np.mean]: the sum over the size; NaN for an empty array. *)
Definition mean (xs : list float64) : float64 :=
  fdiv (sum xs) (Num (inject_Z (Z.of_nat (length xs)))).

(** [a[start:stop]] with non-negative bounds: clipped to the array. *)
Definition slice {A : Type} (start stop : nat) (a : list A) : list A :=
  firstn (stop - start) (skipn start a).

End Np.

Import Np.

(* ================================================================== *)
(** * [kfw_mastr/utils/helpers.py]                                     *)
(* ================================================================== *)

Module Helpers.

(** The array [hours_in_months] as it is created. *)
Definition hours_in_months_default : list nat :=
  [31 * 24; 28 * 24; 31 * 24; 30 * 24; 31 * 24; 30 * 24;
   31 * 24; 31 * 24; 30 * 24; 31 * 24; 30 * 24; 31 * 24].

(** [hours_in_months[1] = v]: assignment at an index inside the array. *)
Definition set_index (i : nat) (v : nat) (l : list nat) : list nat :=
  firstn i l ++ v :: skipn (S i) l.

(** The month lengths after the leap-year adjustment
    [if data.size == 8784: hours_in_months[1] = 29 * 24]. *)
Definition hours_in_months (size : nat) : list nat :=
  if Nat.eqb size 8784
  then set_index 1 (29 * 24) hours_in_months_default
  else hours_in_months_default.

(** The body of [for hours in hours_in_months], with [start_idx] threaded. *)
Fixpoint monthly_loop (data : list float64) (operation : string)
    (hours_list : list nat) (start_idx : nat) : result (list float64) :=
  match hours_list with
  | [] => Ok []
  | hours :: rest =>
      let end_idx := start_idx + hours in
      (stat <-
         (if String.eqb operation "sum" then Ok (sum (slice start_idx end_idx data))
          else if String.eqb operation "mean" then Ok (mean (slice start_idx end_idx data))
          else Raise ValueError) ;;
       stats <- monthly_loop data operation rest end_idx ;;
       Ok (stat :: stats))%py
  end.

(** [compute_monthly_statistics] (helpers.py, lines 389-439). *)
Definition compute_monthly_statistics (data : list float64) (operation : string)
  : result (list float64) :=
  monthly_loop data operation (hours_in_months (length data)) 0.

(** ** [float(s)] on strings

    The grammar of Python's [float] on a [str]: surrounding whitespace is
    stripped; then an optional sign and either [inf], [infinity], [nan] (in
    any case) or a decimal literal [digits [. [digits]] [e [sign] digits]] or
    [. digits [e [sign] digits]], where a single underscore may separate two
    digits.  Anything else raises [ValueError].  The text is taken as ASCII;
    a literal too large for a double is kept as the rational it denotes. *)

Inductive parsed_float : Type :=
| Finite (q : Q)
| Infinite (negative : bool)
| NotANumber.

Definition is_digit (c : ascii) : bool :=
  let n := nat_of_ascii c in Nat.leb 48 n && Nat.leb n 57.

Definition digit_val (c : ascii) : Z := Z.of_nat (nat_of_ascii c - 48).

Definition is_space (c : ascii) : bool :=
  let n := nat_of_ascii c in (Nat.leb 9 n && Nat.leb n 13) || Nat.eqb n 32.

Definition lower (c : ascii) : ascii :=
  let n := nat_of_ascii c in
  if Nat.leb 65 n && Nat.leb n 90 then ascii_of_nat (n + 32) else c.

Fixpoint lstrip (s : list ascii) : list ascii :=
  match s with
  | c :: s' => if is_space c then lstrip s' else s
  | [] => []
  end.

Definition strip (s : list ascii) : list ascii :=
  rev (lstrip (rev (lstrip s))).

(** The digits after the first one of a digit part: value so far, number of
    digits so far, and what is left of the input. *)
Fixpoint digits_tail (acc : Z) (n : nat) (s : list ascii) : Z * nat * list ascii :=
  match s with
  | c :: s' =>
      if is_digit c then digits_tail (acc * 10 + digit_val c)%Z (S n) s'
      else if Ascii.eqb c "_" then
        match s' with
        | d :: s'' =>
            if is_digit d then digits_tail (acc * 10 + digit_val d)%Z (S n) s''
            else (acc, n, s)
        | [] => (acc, n, s)
        end
      else (acc, n, s)
  | [] => (acc, n, [])
  end.

Definition digitpart (s : list ascii) : option (Z * nat * list ascii) :=
  match s with
  | c :: s' => if is_digit c then Some (digits_tail (digit_val c) 1 s') else None
  | [] => None
  end.

(** [10^e] for a signed exponent. *)
Definition scale10 (e : Z) : Q :=
  if (0 <=? e)%Z then inject_Z (10 ^ e) else (/ inject_Z (10 ^ (- e)))%Q.

(** The optional exponent, which must end the literal. *)
Definition exponent (s : list ascii) : option Z :=
  match s with
  | [] => Some 0%Z
  | c :: s' =>
      if Ascii.eqb (lower c) "e" then
        let '(neg, s'') :=
          match s' with
          | "-"%char :: t => (true, t)
          | "+"%char :: t => (false, t)
          | _ => (false, s')
          end in
        match digitpart s'' with
        | Some (e, _, []) => Some (if neg then (- e)%Z else e)
        | _ => None
        end
      else None
  end.

Definition floatnumber (s : list ascii) : option Q :=
  match s with
  | "."%char :: s' =>
      match digitpart s' with
      | Some (f, nf, r) =>
          match exponent r with
          | Some e => Some (inject_Z f / pow10 nf * scale10 e)%Q
          | None => None
          end
      | None => None
      end
  | _ =>
      match digitpart s with
      | Some (i, _, r) =>
          let '(f, nf, r') :=
            match r with
            | "."%char :: t =>
                match digitpart t with
                | Some fr => fr
                | None => (0%Z, O, t)
                end
            | _ => (0%Z, O, r)
            end in
          match exponent r' with
          | Some e => Some ((inject_Z i + inject_Z f / pow10 nf) * scale10 e)%Q
          | None => None
          end
      | None => None
      end
  end.

(** [float(s)] *)
Definition py_float (s : string) : result parsed_float :=
  let body := strip (list_ascii_of_string s) in
  let '(neg, body) :=
    match body with
    | "-"%char :: t => (true, t)
    | "+"%char :: t => (false, t)
    | _ => (false, body)
    end in
  let word := string_of_list_ascii (map lower body) in
  if String.eqb word "inf" || String.eqb word "infinity" then Ok (Infinite neg)
  else if String.eqb word "nan" then Ok NotANumber
  else
    match floatnumber body with
    | Some q => Ok (Finite (if neg then Qopp q else q))
    | None => Raise ValueError
    end.

(** ** [get_curtailment] *)

Inductive log_record : Type :=
| LogInfo (msg : string)
| LogWarning (msg : string).

(** [1 - float(curtailment_env)] and the test [0 <= curtailment <= 1]: an
    infinity or NaN is never inside the range. *)
Definition one_minus (x : parsed_float) : parsed_float :=
  match x with
  | Finite q => Finite (Qred (1 - q))
  | Infinite neg => Infinite (negb neg)
  | NotANumber => NotANumber
  end.

Definition in_unit_range (x : parsed_float) : bool :=
  match x with
  | Finite q => Qle_bool 0 q && Qle_bool q 1
  | _ => false
  end.

Definition to_float64 (x : parsed_float) : float64 :=
  match x with
  | Finite q => Num q
  | _ => NaN
  end.

(** The function returns its log lines and either a value ([None] or the
    multiplier [1 - f]) or the exception that leaves it.  [os.getenv] of an
    unset variable is [None]; [float(None)] raises [TypeError], which the
    handler for [ValueError] does not catch.  In the handler the f-string
    reads the local [curtailment], which the failed assignment never bound. *)
Definition get_curtailment (env : environ) (curtailment_env_var : string)
  : list log_record * result (option float64) :=
  match env curtailment_env_var with
  | None => ([], Raise TypeError)
  | Some curtailment_env =>
      if String.eqb curtailment_env "None" then
        ([LogInfo (curtailment_env_var ++
                   " is set to 'None'. No curtailment applied in run")],
         Ok None)
      else
        match py_float curtailment_env with
        | Ok f =>
            let curtailment := one_minus f in
            if negb (in_unit_range curtailment) then
              ([LogWarning (curtailment_env_var ++ " value " ++ curtailment_env ++
                            " is out of range [0, 1]. No curtailment applied in run")],
               Ok None)
            else
              ([LogInfo (curtailment_env_var ++ " is set to " ++ curtailment_env)],
               Ok (Some (to_float64 curtailment)))
        | Raise ValueError => ([], Raise UnboundLocalError)
        | Raise e => ([], Raise e)
        end
  end.

(** ** [create_results_dict] *)

(** The value stored under [energy_<prefix>] or [cf_<prefix>]: a scalar for
    the yearly record, a list for the monthly and hourly ones. *)
Inductive pyval : Type :=
| Scalar (x : float64)
| Arr (xs : list float64).

Record results_dict : Type := mk_results_dict {
  EinheitMastrNummer : string;
  year : Z;
  key_prefix : string;      (* the <prefix> of the two keys below *)
  energy : pyval;           (* "energy_<prefix>" *)
  cf : pyval;               (* "cf_<prefix>" *)
  software_version : option string;
  outfile_postfix : option string;
  no_calc_reason : option string
}.

(** [create_results_dict] (helpers.py, lines 619-650). *)
Definition create_results_dict (env : environ) (mastrid : string) (year : Z)
    (power cf : pyval) (key_prefix : string) (no_calc_reason : option string)
  : results_dict :=
  {| EinheitMastrNummer := mastrid;
     year := year;
     key_prefix := key_prefix;
     energy := power;
     cf := cf;
     software_version := env "SOFTWARE_VERSION";
     outfile_postfix := env "OUTFILE_POSTFIX";
     no_calc_reason := no_calc_reason |}.

End Helpers.

Import Helpers.

(* ================================================================== *)
(** * [kfw_mastr/wind.py]                                              *)
(* ================================================================== *)

Module Wind.

(** [power_curve_df]: the columns are the sampled wind speeds, each row is a
    turbine type with one power value (or NaN) per column. *)
Record power_curve_df : Type := {
  columns : list Q;
  rows : list (string * list float64)
}.

(** [power_curve_df.loc[turbine_type]] *)
Fixpoint loc (rows : list (string * list float64)) (turbine_type : string)
  : result (list float64) :=
  match rows with
  | [] => Raise KeyError
  | (name, row) :: rest =>
      if String.eqb name turbine_type then Ok row else loc rest turbine_type
  end.

(** [np.nanmax]: empty arrays raise, arrays of NaN only give NaN. *)
Definition fmax (x y : float64) : float64 :=
  match x, y with
  | Num a, Num b => if Qle_bool a b then Num b else Num a
  | Num a, NaN => Num a
  | NaN, y => y
  end.

(** The running maximum starts from NaN, which any number replaces. *)
Definition nanmax (xs : list float64) : result float64 :=
  match xs with
  | [] => Raise ValueError
  | _ => Ok (fold_left fmax xs NaN)
  end.

(** [wind_speeds[valid], power_outputs[valid]] for [valid = ~isnan(power_outputs)],
    kept as pairs (speed, power). *)
Fixpoint valid_samples (wind_speeds : list Q) (power_outputs : list float64)
  : list (Q * Q) :=
  match wind_speeds, power_outputs with
  | w :: ws, Num p :: ps => (w, p) :: valid_samples ws ps
  | _ :: ws, NaN :: ps => valid_samples ws ps
  | _, _ => []
  end.

(** The interval search of [np.interp] for [xp[0] <= x <= xp[-1]]: the index
    [j] with [xp[j] <= x < xp[j+1]] is found by a scan from the left, which
    is the result of NumPy's binary search on increasing sample points. *)
Fixpoint interp_inside (x : Q) (pts : list (Q * Q)) : Q :=
  match pts with
  | [] => 0%Q
  | (x0, y0) :: rest =>
      match rest with
      | [] => y0
      | (x1, y1) :: _ =>
          if Qle_bool x1 x then interp_inside x rest
          else if Qeq_bool x0 x then y0
          else ((y1 - y0) / (x1 - x0) * (x - x0) + y0)%Q
      end
  end.

(** [np.interp(x, xp, fp)] at one point, with the default [left = fp[0]] and
    [right = fp[-1]]. *)
Definition interp1 (x : float64) (pts : list (Q * Q)) : float64 :=
  match pts with
  | [] => NaN
  | [(x0, y0)] => Num y0
  | (x0, y0) :: _ =>
      match x with
      | NaN => NaN
      | Num q =>
          let '(xl, yl) := last pts (x0, y0) in
          if Qlt_le_dec xl q then Num yl
          else if Qlt_le_dec q x0 then Num y0
          else num (interp_inside q pts)
      end
  end.

Definition interp (x : pyval) (pts : list (Q * Q)) : result pyval :=
  match pts with
  | [] => Raise ValueError
  | _ =>
      match x with
      | Scalar v => Ok (Scalar (interp1 v pts))
      | Arr vs => Ok (Arr (map (fun v => interp1 v pts) vs))
      end
  end.

(** [v_hh_norm > thr] followed by its use as a condition: an array of more
    than one element has no truth value. *)
Definition gt (v : float64) (thr : Q) : bool :=
  match v with
  | Num q => if Qlt_le_dec thr q then true else false
  | NaN => false
  end.

Definition cond_gt (x : pyval) (thr : Q) : result bool :=
  match x with
  | Scalar v => Ok (gt v thr)
  | Arr [v] => Ok (gt v thr)
  | Arr _ => Raise ValueError
  end.

(** What [get_power] returns: the bare integer [0] or a 2-tuple. *)
Inductive get_power_value : Type :=
| Zero
| Pair (power_output_at_vhh : pyval) (power_output_turbine_max : float64).

(** [WindCalc.get_power] (wind.py, lines 82-139). *)
Definition get_power (df : power_curve_df) (v_hh_norm : pyval)
    (turbine_type : string) (cut_off : bool)
    (turbine_cut_off_wind_speed_flex : Q) : result get_power_value :=
  (power_outputs <- loc (rows df) turbine_type ;;
   let wind_speeds := columns df in
   power_output_turbine_max <- nanmax power_outputs ;;
   let valid := valid_samples wind_speeds power_outputs in
   match rev valid with
   | [] => Raise IndexError
   | (wind_speed_at_last_power, _) :: _ =>
       cut <- (if cut_off
               then cond_gt v_hh_norm
                      (wind_speed_at_last_power + turbine_cut_off_wind_speed_flex)%Q
               else Ok false) ;;
       if cut : bool then Ok Zero
       else
         (power_output_at_vhh <- interp v_hh_norm valid ;;
          Ok (Pair power_output_at_vhh power_output_turbine_max))
   end)%py.

(** [a, b = value]: only the tuple can be unpacked. *)
Definition unpack2 (v : get_power_value) : result (pyval * float64) :=
  match v with
  | Zero => Raise TypeError
  | Pair p m => Ok (p, m)
  end.

(** [calculate_power]: the normalised hub-height speed is computed from the
    weather fields by [calculate_v_hh_norm_formula_substituted] (square root,
    logarithm and powers of reals), taken here as already evaluated. *)
Definition calculate_power (df : power_curve_df) (v_hh_norm : pyval)
    (turbine_type : string) : result (pyval * float64) :=
  (r <- get_power df v_hh_norm turbine_type false 1%Q ;;
   unpack2 r)%py.

(** [if curtailment:] on [None] or a float. *)
Definition is_set (curtailment : option float64) : bool :=
  match curtailment with
  | Some c => truthy c
  | None => false
  end.

(** The float of a curtailment that is set. *)
Definition value_of (curtailment : option float64) : float64 :=
  match curtailment with
  | Some c => c
  | None => NaN
  end.

(** [os.getenv('SAVE_HOURLY_DATA') == 'True'] *)
Definition save_hourly_data (env : environ) : bool :=
  match env "SAVE_HOURLY_DATA" with
  | Some v => String.eqb v "True"
  | None => false
  end.

(** [WindCalc.calc_capacity_factor_wind] (wind.py, lines 219-317); the three
    lists are returned as the appends leave them. *)
Definition calc_capacity_factor_wind (env : environ) (power : list float64)
    (max_power_power_curve : float64)
    (updates_monthly updates_yearly updates_hourly : list results_dict)
    (year : Z) (mastrid : string) (net_capacity : float64)
    (curtailment : option float64)
  : result (list results_dict * list results_dict * list results_dict) :=
  let max_power_power_curve := fdiv max_power_power_curve (Num 1000%Q) in
  let power_hourly := map (fun p => fdiv (round 4 p) (Num 1000%Q)) power in
  let power_hourly := map nan_to_num power_hourly in
  let power_hourly :=
    if is_set curtailment
    then map (fun p => fmul (round 4 p) (value_of curtailment)) power
    else power_hourly in
  let cf_hourly := map (fun p => fdiv p max_power_power_curve) power_hourly in
  let cf_hourly := map (round 4) cf_hourly in
  let power_sum_mastrid_yearly := round 0 (sum power_hourly) in
  let cf_ave_yearly := round 4 (mean cf_hourly) in
  (sums <- compute_monthly_statistics power_hourly "sum" ;;
   let power_sum_masterid_monthly := map (round 4) sums in
   means <- compute_monthly_statistics cf_hourly "mean" ;;
   let cf_ave_monthly := map (round 4) means in
   let power_mastrid_hourly := map (fun c => fmul c net_capacity) cf_hourly in
   let updates_hourly :=
     if save_hourly_data env
     then updates_hourly ++
          [create_results_dict env mastrid year (Arr power_mastrid_hourly)
             (Arr cf_hourly) "h" None]
     else updates_hourly in
   let updates_monthly :=
     updates_monthly ++
     [create_results_dict env mastrid year (Arr power_sum_masterid_monthly)
        (Arr cf_ave_monthly) "m" None] in
   let updates_yearly :=
     updates_yearly ++
     [create_results_dict env mastrid year (Scalar power_sum_mastrid_yearly)
        (Scalar cf_ave_yearly) "y" None] in
   Ok (updates_hourly, updates_monthly, updates_yearly))%py.

End Wind.

(* ================================================================== *)
(** * [kfw_mastr/solar.py]                                             *)
(* ================================================================== *)

Module Solar.

Import Wind.

(** [pvm_max_power] is the maximum power of the reference module computed by
    pvlib's [sapm] at import time; it is a parameter of the reducer here. *)
Definition calc_capacity_factor (env : environ) (pvm_max_power : float64)
    (power : list float64)
    (updates_monthly updates_yearly updates_hourly : list results_dict)
    (year : Z) (mastrid : string) (net_capacity : float64)
    (curtailment : option float64)
  : result (list results_dict * list results_dict * list results_dict) :=
  let power_h_module := map (round 4) power in
  let power_h_module := map nan_to_num power_h_module in
  let power_h_module :=
    if is_set curtailment
    then map (fun p => fmul (round 4 p) (value_of curtailment)) power
    else power_h_module in
  let cf_hourly := map (fun p => round 4 (fdiv p pvm_max_power)) power_h_module in
  let power_mastrid_hourly := map (fun c => fmul c net_capacity) cf_hourly in
  (sums <- compute_monthly_statistics power_mastrid_hourly "sum" ;;
   let power_sum_masterid_monthly := map (round 4) sums in
   means <- compute_monthly_statistics cf_hourly "mean" ;;
   let cf_ave_monthly := map (round 4) means in
   let power_sum_mastrid_yearly := round 0 (sum power_mastrid_hourly) in
   let cf_ave_yearly := round 4 (mean cf_hourly) in
   let power_mastrid_hourly := power_h_module in
   let updates_hourly :=
     if save_hourly_data env
     then updates_hourly ++
          [create_results_dict env mastrid year (Arr power_mastrid_hourly)
             (Arr cf_hourly) "h" None]
     else updates_hourly in
   let updates_monthly :=
     updates_monthly ++
     [create_results_dict env mastrid year (Arr power_sum_masterid_monthly)
        (Arr cf_ave_monthly) "m" None] in
   let updates_yearly :=
     updates_yearly ++
     [create_results_dict env mastrid year (Scalar power_sum_mastrid_yearly)
        (Scalar cf_ave_yearly) "y" None] in
   Ok (updates_hourly, updates_monthly, updates_yearly))%py.

End Solar.

(* ================================================================== *)
(** * [kfw_mastr/utils/session_funcs.py]                               *)
(* ================================================================== *)

Module Session.

(** What reaches the database: the statements that [batch_update] executes.
    The database engine itself is outside the program. *)
Inductive statement : Type :=
| InsertDoNothing (table : string) (conflict_cols : list string)
                  (data : list results_dict)
| InsertDoUpdate (table : string) (conflict_cols : list string)
                 (data : list results_dict)
| JoinUpdate (table : string) (data : list results_dict).

(** The session: the statements executed and the commits made. *)
Record session : Type := {
  executed : list statement;   (* in order of execution *)
  commits : nat                (* calls of [session.commit()] *)
}.

Definition execute (s : session) (q : statement) : session :=
  {| executed := executed s ++ [q]; commits := commits s |}.

Definition commit (s : session) : session :=
  {| executed := executed s; commits := S (commits s) |}.

(** [batch_update]: nothing happens for an empty list; an unknown
    [conflict_action] leaves [insert_query] unbound, and the failure is
    re-raised after the rollback. *)
Definition batch_update (s : session) (table : string)
    (updates : list results_dict) (id_cols : list string)
    (conflict_action : string) : result session :=
  match updates with
  | [] => Ok s
  | _ =>
      if String.eqb conflict_action "skip_existing_row"
      then Ok (execute s (InsertDoNothing table id_cols updates))
      else if String.eqb conflict_action "update"
      then Ok (execute s (InsertDoUpdate table id_cols updates))
      else if String.eqb conflict_action "join"
      then Ok (execute s (JoinUpdate table updates))
      else Raise UnboundLocalError
  end.

(** [table_mapping[table_id][time_aggregation].__tablename__] *)
Definition table_name (table_id time_aggregation : string) : result string :=
  if String.eqb table_id "wind" || String.eqb table_id "solar"
  then Ok ("results_" ++ table_id ++ "_" ++ time_aggregation)%string
  else Raise ValueError.

(** [save_to_db(session, **{key: updates}, ...)]: one of the three keyword
    lists is given, the other two are [None]. *)
Definition save_to_db (s : session) (key : string)
    (updates : list results_dict) (conflict_action table_id : string)
  : result session :=
  (time_aggregation <-
     (if String.eqb key "updates_hourly" then Ok "hourly"
      else if String.eqb key "updates_monthly" then Ok "monthly"
      else if String.eqb key "updates_yearly" then Ok "yearly"
      else Raise TypeError) ;;
   table <- table_name table_id time_aggregation ;;
   match updates with
   | [] => Ok s
   | _ => batch_update s table updates ["EinheitMastrNummer"; "year"]
            conflict_action
   end)%py.

(** [save_and_commit] returns the session and the list as [updates.clear()]
    leaves it: the caller's buffer is the same list object. *)
Definition save_and_commit (s : session) (updates : list results_dict)
    (conflict_action key : string) (batch_size : option Z) (table_id : string)
  : result (session * list results_dict) :=
  let due :=
    match batch_size with
    | None => true
    | Some b => (b <=? Z.of_nat (length updates))%Z
    end in
  if due then
    (s' <- save_to_db s key updates conflict_action table_id ;;
     Ok (commit s', []))%py
  else Ok (s, updates).

End Session.

(* ================================================================== *)
(** * The buffers of one year's unit loop                              *)
(* ================================================================== *)

Import Wind Session.

(** The three lists [updates_hourly], [updates_monthly], [updates_yearly]
    of a year's loop, the session they are flushed to, and the units for
    which the physical power model has been called. *)
Record loop_state : Type := {
  updates_hourly : list results_dict;
  updates_monthly : list results_dict;
  updates_yearly : list results_dict;
  db : session;
  power_model_calls : list string
}.

(** The text of [no_calc_reason] in both loops. *)
Definition no_calc_reason_missing : string := "Missing AGS or other coordinates".

(** The branch [if lat is None or lon is None] of both loops: the
    placeholder records, then [continue]. *)
Definition append_placeholders (env : environ) (mastrid : string) (year : Z)
    (st : loop_state) : loop_state :=
  let zero := Num 0%Q in
  {| updates_hourly :=
       if save_hourly_data env
       then updates_hourly st ++
            [create_results_dict env mastrid year (Arr [zero]) (Arr [zero]) "h"
               (Some no_calc_reason_missing)]
       else updates_hourly st;
     updates_monthly :=
       updates_monthly st ++
       [create_results_dict env mastrid year (Arr [zero]) (Arr [zero]) "m"
          (Some no_calc_reason_missing)];
     updates_yearly :=
       updates_yearly st ++
       [create_results_dict env mastrid year (Scalar zero) (Scalar zero) "y"
          (Some no_calc_reason_missing)];
     db := db st;
     power_model_calls := power_model_calls st |}.

(** [o is None] *)
Definition is_none {A : Type} (o : option A) : bool :=
  match o with None => true | Some _ => false end.

(** The coordinates a unit is computed at, or [None] for the placeholder
    branch.  The resolver is called before the raw coordinates are tested;
    when it finds no row it returns [None], which cannot be unpacked. *)
Definition resolve_coordinates
    (get_nearest_era5_coordinate : option Q -> option Q -> option (Q * Q))
    (era5_ags_lat era5_ags_lon lat lon : option Q) : result (option (Q * Q)) :=
  match era5_ags_lat, era5_ags_lon with
  | Some a, Some b => Ok (Some (a, b))
  | _, _ =>
      match get_nearest_era5_coordinate lat lon with
      | None => Raise TypeError
      | Some nearest =>
          if is_none lat || is_none lon then Ok None else Ok (Some nearest)
      end
  end.

(** The hourly power handed to the reducer.  The speeds of a year are an
    array, and so is the interpolated power; the scalar case is not reached
    by the loops. *)
Definition as_array (v : pyval) : list float64 :=
  match v with
  | Arr xs => xs
  | Scalar x => [x]
  end.

(* ================================================================== *)
(** * [kfw_mastr/calculate_cf_wind.py]                                 *)
(* ================================================================== *)

Module CalculateCfWind.

(** A row of [load_turbine_data]: [unit[0]] ... [unit[7]]. *)
Record wind_unit : Type := {
  mastr_nummer : string;          (* unit[0] EinheitMastrNummer *)
  turbine_mapped : string;        (* unit[1] *)
  hub_height_mapped : float64;    (* unit[2] *)
  Nettonennleistung : float64;    (* unit[3] *)
  era5_ags_lat : option Q;        (* unit[4] *)
  era5_ags_lon : option Q;        (* unit[5] *)
  Breitengrad : option Q;         (* unit[6] *)
  Laengengrad : option Q          (* unit[7] *)
}.

Section Run.

Variable env : environ.
Variable df : power_curve_df.
(** The PostGIS query of [get_nearest_era5_coordinate]. *)
Variable get_nearest_era5_coordinate : option Q -> option Q -> option (Q * Q).
(** The hourly normalised hub-height wind speed of a year at a grid point
    for a hub height: [slice_weather_wind] followed by
    [calculate_v_hh_norm_formula_substituted]. *)
Variable v_hh_norm : Z -> Q -> Q -> float64 -> list float64.

Variable conflict_action : string.
Variable batch_size : Z.
Variable curtailment : option float64.

(** One iteration of [for unit in mastr_unit_list_of_tuples]. *)
Definition process_unit (year : Z) (st : loop_state) (unit : wind_unit)
  : result loop_state :=
  (place <- resolve_coordinates get_nearest_era5_coordinate
              (era5_ags_lat unit) (era5_ags_lon unit)
              (Breitengrad unit) (Laengengrad unit) ;;
   match place with
   | None => Ok (append_placeholders env (mastr_nummer unit) year st)
   | Some (lat, lon) =>
       let calls := power_model_calls st ++ [mastr_nummer unit] in
       '(power, max_power_power_curve) <-
          calculate_power df
            (Arr (v_hh_norm year lat lon (hub_height_mapped unit)))
            (turbine_mapped unit) ;;
       '(uh, um, uy) <-
          calc_capacity_factor_wind env (as_array power) max_power_power_curve
            (updates_monthly st) (updates_yearly st) (updates_hourly st)
            year (mastr_nummer unit) (Nettonennleistung unit) curtailment ;;
       '(s1, uh) <- save_and_commit (db st) uh conflict_action "updates_hourly"
                      (Some batch_size) "wind" ;;
       '(s2, um) <- save_and_commit s1 um conflict_action "updates_monthly"
                      (Some batch_size) "wind" ;;
       '(s3, uy) <- save_and_commit s2 uy conflict_action "updates_yearly"
                      (Some batch_size) "wind" ;;
       Ok {| updates_hourly := uh; updates_monthly := um; updates_yearly := uy;
             db := s3; power_model_calls := calls |}
   end)%py.

(** [for unit in mastr_unit_list_of_tuples] *)
Fixpoint unit_loop (year : Z) (units : list wind_unit) (st : loop_state)
  : result loop_state :=
  match units with
  | [] => Ok st
  | unit :: rest =>
      (st' <- process_unit year st unit ;; unit_loop year rest st')%py
  end.

(** [if updates: save_and_commit(..., batch_size=None, ...)] *)
Definition flush_if_any (table_id key : string) (s : session)
    (updates : list results_dict) : result (session * list results_dict) :=
  match updates with
  | [] => Ok (s, updates)
  | _ => save_and_commit s updates conflict_action key None table_id
  end.

Definition last_batch_updates (st : loop_state) : result loop_state :=
  ('(s1, uh) <- flush_if_any "wind" "updates_hourly" (db st) (updates_hourly st) ;;
   '(s2, um) <- flush_if_any "wind" "updates_monthly" s1 (updates_monthly st) ;;
   '(s3, uy) <- flush_if_any "wind" "updates_yearly" s2 (updates_yearly st) ;;
   Ok {| updates_hourly := uh; updates_monthly := um; updates_yearly := uy;
         db := s3; power_model_calls := power_model_calls st |})%py.

(** The body of [for year in years]: fresh buffers, the unit loop, the last
    flush. *)
Definition run_year (units : list wind_unit) (s : session) (calls : list string)
    (year : Z) : result loop_state :=
  (st <- unit_loop year units
           {| updates_hourly := []; updates_monthly := []; updates_yearly := [];
              db := s; power_model_calls := calls |} ;;
   last_batch_updates st)%py.

Fixpoint year_loop (units : list wind_unit) (years : list Z) (s : session)
    (calls : list string) : result (session * list string) :=
  match years with
  | [] => Ok (s, calls)
  | year :: rest =>
      (st <- run_year units s calls year ;;
       year_loop units rest (db st) (power_model_calls st))%py
  end.

End Run.

(** [calculate_cf_wind]: the curtailment is read once, before the years. *)
Definition calculate_cf_wind (env : environ) (df : power_curve_df)
    (get_nearest_era5_coordinate : option Q -> option Q -> option (Q * Q))
    (v_hh_norm : Z -> Q -> Q -> float64 -> list float64)
    (units : list wind_unit) (s : session)
    (years : list Z) (batch_size : Z) (conflict_action : string)
  : result (session * list string) :=
  (curtailment <- snd (get_curtailment env "CURTAILMENT_WIND") ;;
   year_loop env df get_nearest_era5_coordinate v_hh_norm conflict_action
     batch_size curtailment units years s [])%py.

End CalculateCfWind.

(* ================================================================== *)
(** * [kfw_mastr/calculate_cf_solar.py]                                *)
(* ================================================================== *)

Module CalculateCfSolar.

Import Solar.

(** A row of [load_calculation_solar_data]: [unit[0]] ... [unit[7]]. *)
Record solar_unit : Type := {
  mastr_nummer : string;            (* unit[0] EinheitMastrNummer *)
  azimuth_angle_mapped : float64;   (* unit[1] *)
  tilt_angle_mapped : float64;      (* unit[2] *)
  Nettonennleistung : float64;      (* unit[3] *)
  era5_ags_lat : option Q;          (* unit[4] *)
  era5_ags_lon : option Q;          (* unit[5] *)
  Breitengrad : option Q;           (* unit[6] *)
  Laengengrad : option Q            (* unit[7] *)
}.

(** A value of [solar_angles_dict]; the key is the column [lat_lon]. *)
Record angle_series : Type := {
  era5_lat : Q;
  era5_lon : Q;
  solar_zenith : list Q;
  solar_azimuth : list Q
}.

Definition solar_angles_dict := list (string * angle_series).

(** [solar_angles_dict.get(key)] *)
Fixpoint get (d : solar_angles_dict) (key : string) : option angle_series :=
  match d with
  | [] => None
  | (k, v) :: rest => if String.eqb k key then Some v else get rest key
  end.

(** [mask = np.ones(8784, dtype=bool); mask[list(range(24 * 59, 24 * 60))] = False] *)
Definition feb_29_mask : list bool :=
  map (fun i => negb (Nat.leb (24 * 59) i && Nat.ltb i (24 * 60))) (seq 0 8784).

(** [series[mask]] for a boolean array: the lengths must agree. *)
Definition getitem_mask {A : Type} (series : list A) (mask : list bool)
  : result (list A) :=
  if Nat.eqb (length series) (length mask)
  then Ok (map fst (filter snd (combine series mask)))
  else Raise IndexError.

(** [for _, series in solar_angles_dict.items()]: both series of every entry
    are replaced in place. *)
Fixpoint drop_feb_29 (d : solar_angles_dict) : result solar_angles_dict :=
  match d with
  | [] => Ok []
  | (k, series) :: rest =>
      (zenith <- getitem_mask (solar_zenith series) feb_29_mask ;;
       azimuth <- getitem_mask (solar_azimuth series) feb_29_mask ;;
       rest' <- drop_feb_29 rest ;;
       Ok ((k, {| era5_lat := era5_lat series; era5_lon := era5_lon series;
                  solar_zenith := zenith; solar_azimuth := azimuth |}) :: rest'))%py
  end.

Definition mem (y : Z) (ys : list Z) : bool := existsb (Z.eqb y) ys.

(** The block [if int(year) not in LEAP_YEARS: ...] at the top of a year. *)
Definition adjust_solar_angles (LEAP_YEARS : list Z) (year : Z)
    (d : solar_angles_dict) : result solar_angles_dict :=
  if negb (mem year LEAP_YEARS) then drop_feb_29 d else Ok d.

Section Run.

Variable env : environ.
Variable LEAP_YEARS : list Z.
Variable pvm_max_power : float64.
(** The PostGIS query of [get_nearest_era5_coordinate]. *)
Variable get_nearest_era5_coordinate : option Q -> option Q -> option (Q * Q).
(** The text [f"({era5_ags_lat},{era5_ags_lon})"]. *)
Variable lat_lon_to_match : Q -> Q -> string.
(** [solar_calculations]: the module power of a unit for a year, at a grid
    point, from the zenith and azimuth series handed to it. *)
Variable solar_calculations :
  solar_unit -> Z -> Q -> Q -> list Q -> list Q -> list float64.

Variable conflict_action : string.
Variable batch_size : Z.
Variable curtailment : option float64.

(** [update_db(batch_size)]: [save_and_commit] for each list that is not
    empty. *)
Definition update_one (key : string) (size : option Z) (s : session)
    (arr : list results_dict) : result (session * list results_dict) :=
  match arr with
  | [] => Ok (s, arr)
  | _ => save_and_commit s arr conflict_action key size "solar"
  end.

Definition update_db (size : option Z) (st : loop_state) : result loop_state :=
  ('(s1, uh) <- update_one "updates_hourly" size (db st) (updates_hourly st) ;;
   '(s2, um) <- update_one "updates_monthly" size s1 (updates_monthly st) ;;
   '(s3, uy) <- update_one "updates_yearly" size s2 (updates_yearly st) ;;
   Ok {| updates_hourly := uh; updates_monthly := um; updates_yearly := uy;
         db := s3; power_model_calls := power_model_calls st |})%py.

(** One iteration of [for unit in mastr_unit_list_of_tuples]. *)
Definition process_unit (angles : solar_angles_dict) (year : Z)
    (st : loop_state) (unit : solar_unit) : result loop_state :=
  (place <- resolve_coordinates get_nearest_era5_coordinate
              (era5_ags_lat unit) (era5_ags_lon unit)
              (Breitengrad unit) (Laengengrad unit) ;;
   match place with
   | None => Ok (append_placeholders env (mastr_nummer unit) year st)
   | Some (lat, lon) =>
       match get angles (lat_lon_to_match lat lon) with
       | None => Raise TypeError
       | Some solar_angles_unit =>
           let calls := power_model_calls st ++ [mastr_nummer unit] in
           let power :=
             solar_calculations unit year lat lon
               (solar_zenith solar_angles_unit)
               (solar_azimuth solar_angles_unit) in
           '(uh, um, uy) <-
              calc_capacity_factor env pvm_max_power power
                (updates_monthly st) (updates_yearly st) (updates_hourly st)
                year (mastr_nummer unit) (Nettonennleistung unit) curtailment ;;
           update_db (Some batch_size)
             {| updates_hourly := uh; updates_monthly := um;
                updates_yearly := uy; db := db st; power_model_calls := calls |}
       end
   end)%py.

Fixpoint unit_loop (angles : solar_angles_dict) (year : Z)
    (units : list solar_unit) (st : loop_state) : result loop_state :=
  match units with
  | [] => Ok st
  | unit :: rest =>
      (st' <- process_unit angles year st unit ;;
       unit_loop angles year rest st')%py
  end.

(** The body of [for year in years] after the adjustment of the angles:
    fresh buffers, the unit loop, the last flush. *)
Definition run_year (angles : solar_angles_dict) (units : list solar_unit)
    (s : session) (calls : list string) (year : Z) : result loop_state :=
  (st <- unit_loop angles year units
           {| updates_hourly := []; updates_monthly := []; updates_yearly := [];
              db := s; power_model_calls := calls |} ;;
   update_db None st)%py.

(** [for year in years]: the dictionary of angles is the same object in
    every year, so an adjustment made in one year is seen by the next. *)
Fixpoint year_loop (units : list solar_unit) (years : list Z)
    (angles : solar_angles_dict) (s : session) (calls : list string)
  : result (solar_angles_dict * session * list string) :=
  match years with
  | [] => Ok (angles, s, calls)
  | year :: rest =>
      (angles' <- adjust_solar_angles LEAP_YEARS year angles ;;
       st <- run_year angles' units s calls year ;;
       year_loop units rest angles' (db st) (power_model_calls st))%py
  end.

End Run.

(** The angles as they stand when the unit loop of each year starts,
    paired with the year; the run stops at the first exception. *)
Fixpoint angles_at_loop_start (LEAP_YEARS : list Z) (years : list Z)
    (angles : solar_angles_dict) : list (Z * result solar_angles_dict) :=
  match years with
  | [] => []
  | year :: rest =>
      match adjust_solar_angles LEAP_YEARS year angles with
      | Ok angles' => (year, Ok angles') :: angles_at_loop_start LEAP_YEARS rest angles'
      | Raise e => [(year, Raise e)]
      end
  end.

Definition calculate_cf_solar (env : environ) (LEAP_YEARS : list Z)
    (pvm_max_power : float64)
    (get_nearest_era5_coordinate : option Q -> option Q -> option (Q * Q))
    (lat_lon_to_match : Q -> Q -> string)
    (solar_calculations :
       solar_unit -> Z -> Q -> Q -> list Q -> list Q -> list float64)
    (units : list solar_unit) (angles : solar_angles_dict) (s : session)
    (years : list Z) (batch_size : Z) (conflict_action : string)
  : result (solar_angles_dict * session * list string) :=
  (curtailment <- snd (get_curtailment env "CURTAILMENT_SOLAR") ;;
   year_loop env LEAP_YEARS pvm_max_power get_nearest_era5_coordinate
     lat_lon_to_match solar_calculations conflict_action batch_size
     curtailment units years angles s [])%py.

End CalculateCfSolar.

(* ================================================================== *)
(** * [kfw_mastr/aggregator.py]: the SQL of [aggregate]                *)
(* ================================================================== *)

Module Aggregator.

(** ** SQL values and aggregate functions

    A nullable column is an [option]; the aggregate functions skip NULL
    inputs, and [sum] and [avg] are NULL when no input is left. *)

Definition non_null {A : Type} (xs : list (option A)) : list A :=
  flat_map (fun x => match x with Some a => [a] | None => [] end) xs.

Definition qsum (xs : list Q) : Q := fold_right Qplus 0%Q xs.

Definition sql_sum (xs : list (option Q)) : option Q :=
  match non_null xs with
  | [] => None
  | vs => Some (qsum vs)
  end.

Definition sql_avg (xs : list (option Q)) : option Q :=
  match non_null xs with
  | [] => None
  | vs => Some (qsum vs / inject_Z (Z.of_nat (length vs)))%Q
  end.

(** [a * b] and [a / b] on nullable values (a division by zero is an error
    of the statement; it is never reached below, the divisor being tested
    first). *)
Definition sql_mul (a b : option Q) : option Q :=
  match a, b with
  | Some x, Some y => Some (x * y)%Q
  | _, _ => None
  end.

Definition sql_div (a b : option Q) : option Q :=
  match a, b with
  | Some x, Some y => Some (x / y)%Q
  | _, _ => None
  end.

(** [a > 0] as a condition: NULL counts as not true. *)
Definition is_positive (a : option Q) : bool :=
  match a with
  | Some x => if Qlt_le_dec 0 x then true else false
  | None => false
  end.

(** [case when sum(w) > 0 then sum(x * w) / sum(w) else Null end] *)
Definition power_weighted (xs ws : list (option Q)) : option Q :=
  if is_positive (sql_sum ws)
  then sql_div (sql_sum (map (fun p => sql_mul (fst p) (snd p)) (combine xs ws)))
               (sql_sum ws)
  else None.

(** ** Source tables *)

Record date : Type := { date_year : Z; date_month : Z; date_day : Z }.

(** [Calculation_<tech>] *)
Record calculation : Type := {
  clc_EinheitMastrNummer : string;
  clc_Postleitzahl : option string;
  clc_Nettonennleistung : option Q;
  clc_plz_lat : option Q;
  clc_plz_lon : option Q;
  clc_Gemeindeschluessel : option string;
  clc_ags_lat : option Q;
  clc_ags_lon : option Q;
  clc_Inbetriebnahmedatum : option date
}.

(** [<tech>_extended] *)
Record extended : Type := {
  ext_EinheitMastrNummer : string;
  ext_Bundesland : option string;
  ext_DatumEndgueltigeStilllegung : option date
}.

(** [results_<tech>_yearly] *)
Record results_yearly : Type := {
  res_EinheitMastrNummer : string;
  res_year : Z;
  cf_y : option Q;
  energy_y : option Q
}.

(** ** [tmp_agg_<tech>_all]: one row per unit *)

Record unit_row : Type := {
  EinheitMastrNummer : string;
  plz : string;
  Nettonennleistung : option Q;
  plz_lat : option Q;
  plz_lon : option Q;
  ags : string;
  ags_lat : option Q;
  ags_lon : option Q;
  bl : string;
  Inbetriebnahmejahr : Z;
  Stilllegung_datum : option date;
  Stilllegung_jahr : Z;
  avg_cf : option Q
}.

Definition coalesce {A : Type} (x : option A) (d : A) : A :=
  match x with Some a => a | None => d end.

(** [tmp_agg_<tech>_all_res]: [avg(cf_y) group by "EinheitMastrNummer"],
    looked up for one unit (NULL when the unit has no yearly result). *)
Definition unit_avg_cf (results : list results_yearly) (id : string) : option Q :=
  sql_avg (map cf_y
    (filter (fun r => String.eqb (res_EinheitMastrNummer r) id) results)).

(** [case when d is not NULL then EXTRACT(YEAR FROM d) else dflt end] *)
Definition year_or (d : option date) (dflt : Z) : Z :=
  match d with Some x => date_year x | None => dflt end.

(** The two left joins of [tmp_agg_<tech>_all]; the extended table has at
    most one row per unit. *)
Definition unit_rows (clcs : list calculation) (exts : list extended)
    (results : list results_yearly) : list unit_row :=
  map (fun clc =>
    let ext := find (fun e => String.eqb (ext_EinheitMastrNummer e)
                                (clc_EinheitMastrNummer clc)) exts in
    let stilllegung :=
      match ext with Some e => ext_DatumEndgueltigeStilllegung e | None => None end in
    {| EinheitMastrNummer := clc_EinheitMastrNummer clc;
       plz := coalesce (clc_Postleitzahl clc) "";
       Nettonennleistung := clc_Nettonennleistung clc;
       plz_lat := clc_plz_lat clc;
       plz_lon := clc_plz_lon clc;
       ags := coalesce (clc_Gemeindeschluessel clc) "MISSING";
       ags_lat := clc_ags_lat clc;
       ags_lon := clc_ags_lon clc;
       bl := coalesce (match ext with Some e => ext_Bundesland e | None => None end)
               "MISSING";
       Inbetriebnahmejahr := year_or (clc_Inbetriebnahmedatum clc) (-1);
       Stilllegung_datum := stilllegung;
       Stilllegung_jahr := year_or stilllegung 9999;
       avg_cf := unit_avg_cf results (clc_EinheitMastrNummer clc) |})
    clcs.

(** ** Geographic levels and grouping *)

Inductive agg_lvl : Type := Ags | Plz | Bl.

Definition all_levels : list agg_lvl := [Ags; Plz; Bl].

(** The column named by [agg_lvl]. *)
Definition lvl (l : agg_lvl) (u : unit_row) : string :=
  match l with Ags => ags u | Plz => plz u | Bl => bl u end.

(** The extra grouping columns [grp_cols]. *)
Definition grp_cols (l : agg_lvl) (u : unit_row) : list (option Q) :=
  match l with
  | Ags => [ags_lat u; ags_lon u]
  | Plz => [plz_lat u; plz_lon u]
  | Bl => []
  end.

(** Equality of grouping values: two NULLs fall in one group. *)
Definition null_eqb (a b : option Q) : bool :=
  match a, b with
  | Some x, Some y => Qeq_bool x y
  | None, None => true
  | _, _ => false
  end.

Fixpoint cols_eqb (a b : list (option Q)) : bool :=
  match a, b with
  | [], [] => true
  | x :: a', y :: b' => null_eqb x y && cols_eqb a' b'
  | _, _ => false
  end.

(** The keys of a table in order of first appearance. *)
Fixpoint distinct {K : Type} (eqb : K -> K -> bool) (ks : list K) : list K :=
  match ks with
  | [] => []
  | k :: rest => k :: filter (fun k' => negb (eqb k k')) (distinct eqb rest)
  end.

(** [group by]: every key with the rows that carry it. *)
Definition group_by {K R : Type} (eqb : K -> K -> bool) (key : R -> K)
    (rows : list R) : list (K * list R) :=
  map (fun k => (k, filter (fun r => eqb k (key r)) rows))
      (distinct eqb (map key rows)).

(** ** [tmp_agg_<tech>]: the geography-only aggregate *)

Record agg_row : Type := {
  geo : string;
  geo_cols : list (option Q);
  avg_cf_gesamt : option Q;
  avg_cf_gesamt_power_weighted : option Q;
  nettonennleistung_gesamt : option Q;
  anzahl_gesamt : nat
}.

Definition geo_key_eqb (a b : string * list (option Q)) : bool :=
  String.eqb (fst a) (fst b) && cols_eqb (snd a) (snd b).

Definition agg_of_group (k : string * list (option Q)) (members : list unit_row)
  : agg_row :=
  {| geo := fst k;
     geo_cols := snd k;
     avg_cf_gesamt := sql_avg (map avg_cf members);
     avg_cf_gesamt_power_weighted :=
       power_weighted (map avg_cf members) (map Nettonennleistung members);
     nettonennleistung_gesamt := sql_sum (map Nettonennleistung members);
     anzahl_gesamt := length members |}.

Definition geo_groups (l : agg_lvl) (units : list unit_row)
  : list ((string * list (option Q)) * list unit_row) :=
  group_by geo_key_eqb (fun u => (lvl l u, grp_cols l u)) units.

Definition tmp_agg (l : agg_lvl) (units : list unit_row) : list agg_row :=
  map (fun g => agg_of_group (fst g) (snd g)) (geo_groups l units).

(** ** The two cohort tables *)

(** A row of a join of the units with the yearly results; the result side
    is NULL for a unit that a left join keeps without a match. *)
Definition joined := (unit_row * option results_yearly)%type.

Definition same_unit (u : unit_row) (r : results_yearly) : bool :=
  String.eqb (EinheitMastrNummer u) (res_EinheitMastrNummer r).

Definition left_join (on : unit_row -> results_yearly -> bool)
    (units : list unit_row) (results : list results_yearly) : list joined :=
  flat_map (fun u =>
    match filter (on u) results with
    | [] => [(u, None)]
    | rs => map (fun r => (u, Some r)) rs
    end) units.

(** [tmp_agg_act_year_cf]: [on pvs.Inbetriebnahmejahr = res.year and
    pvs."EinheitMastrNummer" = res."EinheitMastrNummer"]. *)
Definition act_on (u : unit_row) (r : results_yearly) : bool :=
  Z.eqb (Inbetriebnahmejahr u) (res_year r) && same_unit u r.

Definition act_join (units : list unit_row) (results : list results_yearly)
  : list joined :=
  left_join act_on units results.

(** [tmp_agg_run_year_cf]: [on pvs.Inbetriebnahmejahr <= res.year and
    res.year < Stilllegung_jahr and same unit], then
    [where pvs.Inbetriebnahmejahr is not Null and res.year is not Null]. *)
Definition run_on (u : unit_row) (r : results_yearly) : bool :=
  Z.leb (Inbetriebnahmejahr u) (res_year r)
  && Z.ltb (res_year r) (Stilllegung_jahr u)
  && same_unit u r.

Definition run_join (units : list unit_row) (results : list results_yearly)
  : list joined :=
  filter (fun j => match snd j with Some _ => true | None => false end)
         (left_join run_on units results).

Definition j_cf_y (j : joined) : option Q :=
  match snd j with Some r => cf_y r | None => None end.

Definition j_energy_y (j : joined) : option Q :=
  match snd j with Some r => energy_y r | None => None end.

Definition j_year (j : joined) : option Z :=
  match snd j with Some r => Some (res_year r) | None => None end.

Definition j_Nettonennleistung (j : joined) : option Q := Nettonennleistung (fst j).
Definition j_avg_cf (j : joined) : option Q := avg_cf (fst j).

(** The five statistics of a cohort group (the columns [act_*] or [run_*]). *)
Record cohort_row : Type := {
  c_geo : string;
  c_year : option Z;
  c_cf_y : option Q;
  c_cf_y_power_weighted : option Q;
  c_avg_cf_y : option Q;
  c_avg_cf_y_power_weighted : option Q;
  c_energy_y : option Q
}.

Definition cohort_of_group (k : string * option Z) (members : list joined)
  : cohort_row :=
  {| c_geo := fst k;
     c_year := snd k;
     c_cf_y := sql_avg (map j_cf_y members);
     c_cf_y_power_weighted :=
       power_weighted (map j_cf_y members) (map j_Nettonennleistung members);
     c_avg_cf_y := sql_avg (map j_avg_cf members);
     c_avg_cf_y_power_weighted :=
       power_weighted (map j_avg_cf members) (map j_Nettonennleistung members);
     c_energy_y := sql_sum (map j_energy_y members) |}.

Definition year_eqb (a b : option Z) : bool :=
  match a, b with
  | Some x, Some y => Z.eqb x y
  | None, None => true
  | _, _ => false
  end.

Definition cohort_key_eqb (a b : string * option Z) : bool :=
  String.eqb (fst a) (fst b) && year_eqb (snd a) (snd b).

(** [group by <agg_lvl>, Inbetriebnahmejahr] *)
Definition act_key (l : agg_lvl) (j : joined) : string * option Z :=
  (lvl l (fst j), Some (Inbetriebnahmejahr (fst j))).

(** [group by <agg_lvl>, year] *)
Definition run_key (l : agg_lvl) (j : joined) : string * option Z :=
  (lvl l (fst j), j_year j).

Definition act_groups (l : agg_lvl) (units : list unit_row)
    (results : list results_yearly) : list ((string * option Z) * list joined) :=
  group_by cohort_key_eqb (act_key l) (act_join units results).

Definition run_groups (l : agg_lvl) (units : list unit_row)
    (results : list results_yearly) : list ((string * option Z) * list joined) :=
  group_by cohort_key_eqb (run_key l) (run_join units results).

Definition tmp_agg_act_year_cf (l : agg_lvl) (units : list unit_row)
    (results : list results_yearly) : list cohort_row :=
  map (fun g => cohort_of_group (fst g) (snd g)) (act_groups l units results).

Definition tmp_agg_run_year_cf (l : agg_lvl) (units : list unit_row)
    (results : list results_yearly) : list cohort_row :=
  map (fun g => cohort_of_group (fst g) (snd g)) (run_groups l units results).

End Aggregator.

(* ================================================================== *)
(** * Loops whose body may raise                                       *)
(* ================================================================== *)

(** [for item in items: ...] over a state: the first exception ends the
    loop. *)
Fixpoint for_each {A S : Type} (body : S -> A -> result S) (items : list A)
    (st : S) : result S :=
  match items with
  | [] => Ok st
  | item :: rest => (st' <- body st item ;; for_each body rest st')%py
  end.

(* ================================================================== *)
(** * [kfw_mastr/setup_database.py]                                    *)
(* ================================================================== *)

Module SetupDatabase.

Import CalculateCfSolar.

(** ** The hourly index of the solar-angle year

    pandas works in the proleptic Gregorian calendar.  A timestamp of the
    index is kept as the number of hours since 1 January, 00:00, of the
    year; its month and its day of the month are read off the calendar. *)

Definition is_leap_year (year : Z) : bool :=
  ((year mod 4 =? 0) && (negb (year mod 100 =? 0) || (year mod 400 =? 0)))%Z.

Definition days_in_months (year : Z) : list nat :=
  [31; if is_leap_year year then 29 else 28; 31; 30; 31; 30; 31; 31; 30; 31; 30; 31].

(** [pd.date_range(start=f'{year}-01-01 00:00:00',
                   end=f'{year}-12-31 23:00:00', freq='h')] *)
Definition date_range (year : Z) : list nat :=
  seq 0 (24 * list_sum (days_in_months year)).

(** The month and the day of the month (both counted from 1) of the day
    number [d] (counted from 0) of a year with the given month lengths. *)
Fixpoint month_and_day (months : list nat) (m d : nat) : nat * nat :=
  match months with
  | [] => (m, S d)
  | n :: rest => if (d <? n)%nat then (m, S d) else month_and_day rest (S m) (d - n)
  end.

(** [index.month] and [index.day] at one timestamp. *)
Definition month (year : Z) (t : nat) : nat :=
  fst (month_and_day (days_in_months year) 1 (t / 24)).

Definition day (year : Z) (t : nat) : nat :=
  snd (month_and_day (days_in_months year) 1 (t / 24)).

(** ** pandas series: values under an index *)

Definition series (A : Type) : Type := list (nat * A).

(** [pd.Series(values, index=time_index)]: the lengths must agree. *)
Definition Series {A : Type} (values : list A) (index : list nat)
  : result (series A) :=
  if (length values =? length index)%nat then Ok (combine index values)
  else Raise ValueError.

(** [s[mask]] for a boolean array made from the index of [s]. *)
Definition getitem {A : Type} (s : series A) (mask : list bool) : series A :=
  map fst (filter snd (combine s mask)).

(** [s.index[-1]] *)
Definition last_index {A : Type} (s : series A) : result nat :=
  match rev s with
  | [] => Raise IndexError
  | (t, _) :: _ => Ok t
  end.

(** [s.loc[:t]] and [s.loc[t:]] on an increasing index: the entries whose
    label is at most [t], at least [t]. *)
Definition loc_to {A : Type} (t : nat) (s : series A) : series A :=
  filter (fun p => (fst p <=? t)%nat) s.

Definition loc_from {A : Type} (t : nat) (s : series A) : series A :=
  filter (fun p => (t <=? fst p)%nat) s.

(** [s.values.tolist()] *)
Definition values {A : Type} (s : series A) : list A := map snd s.

(** ** [calculate_solar_angles] (lines 815-939) *)

(** A row of [unique_coordinates], later of [Calculation_solar_angles]. *)
Record angles_row : Type := {
  row_era5_lat : Q;
  row_era5_lon : Q;
  row_lat_lon : Q * Q;
  row_solar_zenith : list Q;
  row_solar_azimuth : list Q
}.

(** [duplicate_feb_28] (lines 892-919), with [time_index] the index of
    [year]: the hours of 28 February are copied, moved by one day
    ([pd.DateOffset(days=1)]) and put between the series up to the last hour
    of 28 February and the series from one hour later on. *)
Definition duplicate_feb_28 (year : Z) (row : angles_row) : result angles_row :=
  let time_index := date_range year in
  (solar_zenith_series <- Series (row_solar_zenith row) time_index ;;
   solar_azimuth_series <- Series (row_solar_azimuth row) time_index ;;
   let feb_28th_mask :=
     map (fun t => (month year t =? 2)%nat && (day year t =? 28)%nat)
         (map fst solar_zenith_series) in
   let feb_28th_zenith := getitem solar_zenith_series feb_28th_mask in
   let feb_28th_azimuth := getitem solar_azimuth_series feb_28th_mask in
   let feb_29th_zenith := map (fun p => (fst p + 24, snd p)) feb_28th_zenith in
   let feb_29th_azimuth := map (fun p => (fst p + 24, snd p)) feb_28th_azimuth in
   last_zenith <- last_index feb_28th_zenith ;;
   let solar_zenith_updated :=
     loc_to last_zenith solar_zenith_series ++ feb_29th_zenith
     ++ loc_from (last_zenith + 1) solar_zenith_series in
   last_azimuth <- last_index feb_28th_azimuth ;;
   let solar_azimuth_updated :=
     loc_to last_azimuth solar_azimuth_series ++ feb_29th_azimuth
     ++ loc_from (last_azimuth + 1) solar_azimuth_series in
   Ok {| row_era5_lat := row_era5_lat row;
         row_era5_lon := row_era5_lon row;
         row_lat_lon := row_lat_lon row;
         row_solar_zenith := values solar_zenith_updated;
         row_solar_azimuth := values solar_azimuth_updated |})%py.

(** [df.progress_apply(f, axis=1)]: the rows in order; the first exception
    ends the call. *)
Fixpoint progress_apply {A B : Type} (f : A -> result B) (rows : list A)
  : result (list B) :=
  match rows with
  | [] => Ok []
  | row :: rest =>
      (row' <- f row ;; rest' <- progress_apply f rest ;; Ok (row' :: rest'))%py
  end.

Section SolarAngles.

Variable LEAP_YEARS : list Z.

(** pvlib's [get_solarposition] at one hour of the index of a year, for a
    latitude and a longitude: the zenith and the azimuth. *)
Variable get_solarposition : Z -> nat -> Q -> Q -> Q * Q.

(** [compute_solar_positions] (lines 872-884) on the coordinate pair of a
    row. *)
Definition compute_solar_positions (year : Z) (coordinate : Q * Q) : angles_row :=
  let time_index := date_range year in
  let solar_position :=
    map (fun t => get_solarposition year t (fst coordinate) (snd coordinate))
        time_index in
  {| row_era5_lat := fst coordinate;
     row_era5_lon := snd coordinate;
     row_lat_lon := coordinate;
     row_solar_zenith := map fst solar_position;
     row_solar_azimuth := map snd solar_position |}.

(** The rows that [calculate_solar_angles] hands to [batch_update] for the
    table [Calculation_solar_angles], from the unique grid coordinates and
    the integer in [YEAR_SOLAR_ANGLE] (which becomes the column [year]). *)
Definition calculate_solar_angles (year : Z) (unique_coordinates : list (Q * Q))
  : result (list angles_row) :=
  let rows := map (compute_solar_positions year) unique_coordinates in
  if negb (mem year LEAP_YEARS)
  then progress_apply (duplicate_feb_28 year) rows
  else Ok rows.

End SolarAngles.

(** ** What reaches the database from the set-up

    [batch_update] (session_funcs.py, lines 199-301) on rows of any kind:
    the statements executed so far are threaded; nothing happens for an
    empty list, and an unknown [conflict_action] leaves [insert_query]
    unbound. *)

Inductive statement_on (R : Type) : Type :=
| InsertDoNothing_on (table : string) (conflict_cols : list string) (data : list R)
| InsertDoUpdate_on (table : string) (conflict_cols : list string) (data : list R)
| JoinUpdate_on (table : string) (data : list R).

Arguments InsertDoNothing_on {R} table conflict_cols data.
Arguments InsertDoUpdate_on {R} table conflict_cols data.
Arguments JoinUpdate_on {R} table data.

Definition batch_update_on {R : Type} (executed : list (statement_on R))
    (table : string) (updates : list R) (id_cols : list string)
    (conflict_action : string) : result (list (statement_on R)) :=
  match updates with
  | [] => Ok executed
  | _ =>
      if String.eqb conflict_action "skip_existing_row"
      then Ok (executed ++ [InsertDoNothing_on table id_cols updates])
      else if String.eqb conflict_action "update"
      then Ok (executed ++ [InsertDoUpdate_on table id_cols updates])
      else if String.eqb conflict_action "join"
      then Ok (executed ++ [JoinUpdate_on table updates])
      else Raise UnboundLocalError
  end.

(** The loop shared by [update_turbine_type_and_hub_height] (lines 647-682)
    and [update_azimuth_and_tilt_angle] (lines 722-758): the update of a row
    is appended to [updates]; a list of [batch_size] updates or more is
    written and cleared. *)
Fixpoint mapping_loop {Row U : Type} (update_of : Row -> result U)
    (table : string) (batch_size : Z) (rows : list Row) (updates : list U)
    (executed : list (statement_on U))
  : result (list U * list (statement_on U)) :=
  match rows with
  | [] => Ok (updates, executed)
  | row :: rest =>
      (u <- update_of row ;;
       let updates := updates ++ [u] in
       if (batch_size <=? Z.of_nat (length updates))%Z
       then
         (executed <- batch_update_on executed table updates
                        ["EinheitMastrNummer"] "update" ;;
          mapping_loop update_of table batch_size rest [] executed)
       else mapping_loop update_of table batch_size rest updates executed)%py
  end.

(** The loop followed by [if updates: batch_update(...)]. *)
Definition mapping_run {Row U : Type} (update_of : Row -> result U)
    (table : string) (batch_size : Z) (rows : list Row)
    (executed : list (statement_on U)) : result (list (statement_on U)) :=
  ('(updates, executed) <-
      mapping_loop update_of table batch_size rows [] executed ;;
   match updates with
   | [] => Ok executed
   | _ => batch_update_on executed table updates ["EinheitMastrNummer"] "update"
   end)%py.

(** [(log or "")] *)
Definition or_empty (log : option string) : string :=
  match log with
  | Some s => s
  | None => ""
  end.

(** ** Turbine types and hub heights

    The constants come from [kfw_mastr/utils/constants.py]:
    [MASTR_TURBINE_MAP] is a dictionary of manufacturers, each a dictionary
    of turbine types, each a dictionary from a power to the designations
    that the register uses for it; the dictionaries are kept as lists in
    the order of their items, a power as the integer that [int(power)]
    gives, and the test [Typenbezeichnung in mastr_type] as a function.
    [UPDATE_LOG] is read at keys that it holds. *)

Section Turbines.

Variable mastr_type : Type.
Variable contains : string -> mastr_type -> bool.
Variable MASTR_TURBINE_MAP :
  list (string * list (string * list (Z * mastr_type))).
Variable UPDATE_LOG : string -> string.
Variable AVERAGE_HUB_HEIGHT_MASTR : float64.

(** The locals [found], [closest_power_diff] (which starts at infinity,
    here [None]) and [turbine_mapped] of [map_turbine]. *)
Record search : Type := {
  found : bool;
  closest_power_diff : option Q;
  turbine_mapped : string
}.

(** [abs(int(power) - Nettonennleistung)]: a capacity that is [None]
    cannot be subtracted. *)
Definition power_diff_of (power : Z) (Nettonennleistung : option float64)
  : result float64 :=
  match Nettonennleistung with
  | None => Raise TypeError
  | Some (Num n) => Ok (Num (Qabs (inject_Z power - n)))
  | Some NaN => Ok NaN
  end.

(** [power_diff < closest_power_diff]: NaN is below nothing. *)
Definition closer (power_diff : float64) (closest : option Q) : bool :=
  match power_diff with
  | Num d =>
      match closest with
      | None => true
      | Some c => if Qlt_le_dec d c then true else false
      end
  | NaN => false
  end.

(** The body of [for power, mastr_type in power_map.items()]. *)
Definition visit (Typenbezeichnung : string) (Nettonennleistung : option float64)
    (turbine_type : string) (st : search) (item : Z * mastr_type)
  : result search :=
  if contains Typenbezeichnung (snd item) then
    (power_diff <- power_diff_of (fst item) Nettonennleistung ;;
     if closer power_diff (closest_power_diff st)
     then Ok {| found := true;
                closest_power_diff :=
                  match power_diff with Num d => Some d | NaN => None end;
                turbine_mapped := turbine_type |}
     else Ok {| found := true;
                closest_power_diff := closest_power_diff st;
                turbine_mapped := turbine_mapped st |})%py
  else Ok st.

(** [bool(Typenbezeichnung)]: neither [None] nor the empty string. *)
Definition designation (Typenbezeichnung : option string) : option string :=
  match Typenbezeichnung with
  | Some s => if String.eqb s "" then None else Some s
  | None => None
  end.

(** [map_turbine] (lines 542-584). *)
Definition map_turbine (Typenbezeichnung : option string)
    (Nettonennleistung : option float64) : result (string * option string) :=
  let start := {| found := false; closest_power_diff := None;
                  turbine_mapped := "default100_6/3360" |} in
  ('(st, turbine_error) <-
      match designation Typenbezeichnung with
      | Some name =>
          (st <- for_each (fun st manufacturer =>
                   for_each (fun st turbine =>
                     for_each (visit name Nettonennleistung (fst turbine))
                              (snd turbine) st)
                     (snd manufacturer) st)
                   MASTR_TURBINE_MAP start ;;
           Ok (st, None))
      | None => Ok (start, Some (UPDATE_LOG "tte"))
      end ;;
   let turbine_error :=
     if negb (found st) then Some (UPDATE_LOG "ttnme") else turbine_error in
   Ok (turbine_mapped st, turbine_error))%py.

(** [map_hub_height] (lines 587-610). *)
Definition map_hub_height (Nabenhoehe : option float64)
  : float64 * option string :=
  match Nabenhoehe with
  | None => (AVERAGE_HUB_HEIGHT_MASTR, Some (UPDATE_LOG "hhe"))
  | Some h => (h, None)
  end.

(** The columns that [update_turbine_type_and_hub_height] reads from
    [Calculation_wind], and the update it writes. *)
Record wind_row : Type := {
  Nabenhoehe : option float64;
  Nettonennleistung : option float64;
  Typenbezeichnung : option string;
  EinheitMastrNummer : string
}.

Record wind_update : Type := {
  wu_EinheitMastrNummer : string;
  wu_turbine_mapped : string;
  wu_hub_height_mapped : float64;
  wu_mapping_log : string
}.

Definition wind_update_of (row : wind_row) : result wind_update :=
  ('(tt_mapped, tt_log) <- map_turbine (Typenbezeichnung row)
                              (Nettonennleistung row) ;;
   let '(hh_mapped, hh_log) := map_hub_height (Nabenhoehe row) in
   Ok {| wu_EinheitMastrNummer := EinheitMastrNummer row;
         wu_turbine_mapped := tt_mapped;
         wu_hub_height_mapped := hh_mapped;
         wu_mapping_log := or_empty tt_log ++ or_empty hh_log |})%py.

(** [update_turbine_type_and_hub_height] (lines 613-684) on the rows that
    [query_table] returned. *)
Definition update_turbine_type_and_hub_height (batch_size : Z)
    (wc_query : list wind_row) (executed : list (statement_on wind_update))
  : result (list (statement_on wind_update)) :=
  mapping_run wind_update_of "Calculation_wind" batch_size wc_query executed.

End Turbines.

(** ** Azimuth and tilt angles

    [AZIMUTH_ANGLE_MAP] and [TILT_ANGLE_MAP] are dictionaries from the text
    of the register to an angle, with an entry ["default"]. *)

Section Angles.

Variable AZIMUTH_ANGLE_MAP : list (string * float64).
Variable TILT_ANGLE_MAP : list (string * float64).
Variable UPDATE_LOG : string -> string.

(** [d.get(key)], where the key may be [None], and [d[key]]. *)
Fixpoint dict_get {V : Type} (d : list (string * V)) (key : string) : option V :=
  match d with
  | [] => None
  | (k, v) :: rest => if String.eqb k key then Some v else dict_get rest key
  end.

Definition get_or_none {V : Type} (d : list (string * V)) (key : option string)
  : option V :=
  match key with
  | Some k => dict_get d k
  | None => None
  end.

Definition dict_getitem {V : Type} (d : list (string * V)) (key : string)
  : result V :=
  match dict_get d key with
  | Some v => Ok v
  | None => Raise KeyError
  end.

(** [map_azimuth_angle] (lines 763-786). *)
Definition map_azimuth_angle (hauptausrichtung : option string)
  : result (float64 * option string) :=
  match get_or_none AZIMUTH_ANGLE_MAP hauptausrichtung with
  | Some mapped_angle => Ok (mapped_angle, None)
  | None =>
      (mapped_angle <- dict_getitem AZIMUTH_ANGLE_MAP "default" ;;
       Ok (mapped_angle, Some (UPDATE_LOG "aa")))%py
  end.

(** [map_tilt_angle] (lines 789-812). *)
Definition map_tilt_angle (hauptausrichtung_neigungswinkel : option string)
  : result (float64 * option string) :=
  match get_or_none TILT_ANGLE_MAP hauptausrichtung_neigungswinkel with
  | Some mapped_angle => Ok (mapped_angle, None)
  | None =>
      (mapped_angle <- dict_getitem TILT_ANGLE_MAP "default" ;;
       Ok (mapped_angle, Some (UPDATE_LOG "ta")))%py
  end.

Record solar_row : Type := {
  Hauptausrichtung : option string;
  HauptausrichtungNeigungswinkel : option string;
  solar_EinheitMastrNummer : string
}.

Record solar_update : Type := {
  su_EinheitMastrNummer : string;
  su_azimuth_angle_mapped : float64;
  su_tilt_angle_mapped : float64;
  su_mapping_log : string
}.

Definition solar_update_of (row : solar_row) : result solar_update :=
  ('(aa_mapped, aa_log) <- map_azimuth_angle (Hauptausrichtung row) ;;
   '(ta_mapped, ta_log) <- map_tilt_angle (HauptausrichtungNeigungswinkel row) ;;
   Ok {| su_EinheitMastrNummer := solar_EinheitMastrNummer row;
         su_azimuth_angle_mapped := aa_mapped;
         su_tilt_angle_mapped := ta_mapped;
         su_mapping_log := or_empty aa_log ++ or_empty ta_log |})%py.

(** [update_azimuth_and_tilt_angle] (lines 687-760). *)
Definition update_azimuth_and_tilt_angle (batch_size : Z)
    (sc_query : list solar_row) (executed : list (statement_on solar_update))
  : result (list (statement_on solar_update)) :=
  mapping_run solar_update_of "Calculation_solar" batch_size sc_query executed.

End Angles.

End SetupDatabase.

(* ================================================================== *)
(** * [kfw_mastr/utils/config.py]                                      *)
(* ================================================================== *)

Module Config.

(** A value of the dictionary that [yaml.safe_load] returns: a text, or
    something else (a number, a truth value, a list, null), of which only
    the truth value matters here. *)
Inductive yaml_value : Type :=
| YamlStr (s : string)
| YamlOther (truth : bool).

(** The configuration: [config.get(key)]. *)
Definition config : Type := string -> option yaml_value.

(** [bool(value)] *)
Definition truth_of (value : yaml_value) : bool :=
  match value with
  | YamlStr s => negb (String.eqb s "")
  | YamlOther truth => truth
  end.

(** A text with a NUL character cannot be stored in the environment. *)
Definition has_nul (s : string) : bool :=
  existsb (Ascii.eqb Ascii.zero) (list_ascii_of_string s).

(** [os.environ[key] = value]: only a [str] is accepted ([TypeError]
    otherwise), and only one without a NUL character ([ValueError]
    "embedded null byte"). *)
Definition setenv (env : environ) (key : string) (value : yaml_value)
  : result environ :=
  match value with
  | YamlStr s =>
      if has_nul s then Raise ValueError
      else Ok (fun k => if String.eqb k key then Some s else env k)
  | YamlOther _ => Raise TypeError
  end.

(** [set_env_var_from_config] (lines 71-91). *)
Definition set_env_var_from_config (cfg : config) (key : string)
    (env : environ) : result environ :=
  match cfg key with
  | Some value => if truth_of value then setenv env key value else Raise ValueError
  | None => Raise ValueError
  end.

(** [config.get(key, default)] *)
Definition get_or (cfg : config) (key default : string) : yaml_value :=
  match cfg key with
  | Some value => value
  | None => YamlStr default
  end.

(** The assignments [os.environ[key] = config.get(key, default)] of
    [setup_configs] (lines 122-157), in order, as pairs of key and default;
    [timestamp] is the time at which the module was imported. *)
Definition defaults (timestamp : string) : list (string * string) :=
  [("RUN_ID", ""); ("NUMBER_THREADS", "4");
   ("POSTGRESQL_HOST", "None"); ("POSTGRESQL_DB_NAME", "kfw-mastr");
   ("POSTGRESQL_USER", "postgres"); ("POSTGRESQL_PASSWORD", "postgres");
   ("POSTGRESQL_PORT", "5512");
   ("SOFTWARE_VERSION", "1_0_0"); ("OUTFILE_POSTFIX", timestamp);
   ("CONFLICT_ACTION", "update");
   ("YEARS", "2023"); ("BATCH_SIZE", "200000"); ("LIMIT_MASTR_UNITS", "None");
   ("YEAR_SOLAR_ANGLE", "2000"); ("SAVE_HOURLY_DATA", "False");
   ("CALC_SOLAR", "False"); ("SPECIFIC_SOLAR_UNITS", "None");
   ("CURTAILMENT_SOLAR", "None");
   ("CALC_WIND", "False"); ("SPECIFIC_WIND_UNITS", "None");
   ("CURTAILMENT_WIND", "None");
   ("EXPORT_WIND", "False"); ("EXPORT_SOLAR", "False");
   ("EXPORT_BATCH_SIZE", "100000"); ("EXPORT_UNITS", "all");
   ("EXPORT_YEARS", "None");
   ("AGGREGATE_WIND", "False"); ("AGGREGATE_SOLAR", "False")].

(** The three mandatory keys. *)
Definition mandatory : list string := ["REPO_ROOT"; "INPUT_PATH"; "OUTPUT_PATH"].

(** [setup_configs] (lines 94-157): the environment after the call, or the
    exception that ends it. *)
Definition setup_configs (timestamp : string) (cfg : config)
    (config_path : string) (env : environ) : result environ :=
  (env <- setenv env "CONFIG_PATH" (YamlStr config_path) ;;
   env <- for_each (fun env key => set_env_var_from_config cfg key env)
            mandatory env ;;
   for_each (fun env item =>
               setenv env (fst item) (get_or cfg (fst item) (snd item)))
            (defaults timestamp) env)%py.

End Config.

(* ================================================================== *)
(** * [kfw_mastr/utils/helpers.py]: the export to CSV                  *)
(* ================================================================== *)

Module ExportCsv.

(** How a call ends that can also fail in the database. *)
Inductive failure : Type :=
| PythonError (e : exn)
| DatabaseError.

Inductive outcome : Type :=
| Warned      (* "no csv exported. First exported batch was empty." *)
| Exported    (* "exported to csv" *)
| Failed (f : failure).

(** A line of the CSV file. *)
Inductive csv_line (R : Type) : Type :=
| Header
| Line (row : R).

Arguments Header {R}.
Arguments Line {R} row.

Section ExportToCsv.

Variable R : Type.

(** The rows that the query of [build_query] selects, in the order in which
    the database returns them.  The query has no [ORDER BY]; the database is
    taken to answer every execution with the same rows in the same
    order. *)
Variable rows : list R.

(** [fetch_batch] (lines 487-512): [query.limit(batch_size)
    .offset(current_offset)]; [limit(None)] sets no limit, and PostgreSQL
    refuses a negative limit or offset. *)
Definition fetch_batch (batch_size : option Z) (current_offset : Z)
  : option (list R) :=
  if (current_offset <? 0)%Z then None
  else
    match batch_size with
    | None => Some (skipn (Z.to_nat current_offset) rows)
    | Some b =>
        if (b <? 0)%Z then None
        else Some (firstn (Z.to_nat b) (skipn (Z.to_nat current_offset) rows))
    end.

(** [write_to_csv] (lines 594-616): mode ["w"] with the header at offset
    0, mode ["a"] without header afterwards. *)
Definition write_to_csv (df : list R) (output_file : list (csv_line R))
    (current_offset : Z) : list (csv_line R) :=
  if (current_offset =? 0)%Z then Header :: map Line df
  else output_file ++ map Line df.

(** [batch_df.empty] *)
Definition empty (df : list R) : bool :=
  match df with [] => true | _ :: _ => false end.

(** The loop [while True:] of [export_to_csv] (lines 547-557), from
    [current_offset] on: the file when the loop ends, and how it ends.
    [current_offset += export_batch_size] raises [TypeError] for the
    default [None].  [fuel] bounds the number of iterations. *)
Fixpoint export_loop (fuel : nat) (export_batch_size : option Z)
    (current_offset : Z) (output_file : list (csv_line R))
  : option (list (csv_line R) * outcome) :=
  match fuel with
  | O => None
  | S fuel =>
      match fetch_batch export_batch_size current_offset with
      | None => Some (output_file, Failed DatabaseError)
      | Some batch_df =>
          if empty batch_df && (current_offset =? 0)%Z
          then Some (output_file, Warned)
          else if empty batch_df
          then Some (output_file, Exported)
          else
            let output_file := write_to_csv batch_df output_file current_offset in
            match export_batch_size with
            | None => Some (output_file, Failed (PythonError TypeError))
            | Some b => export_loop fuel export_batch_size (current_offset + b) output_file
            end
      end
  end.

(** [export_to_csv] once the query is built: [current_offset = 0]. *)
Definition export_to_csv (fuel : nat) (export_batch_size : option Z)
    (output_file : list (csv_line R))
  : option (list (csv_line R) * outcome) :=
  export_loop fuel export_batch_size 0 output_file.

End ExportToCsv.

End ExportCsv.

(* ================================================================== *)
(** * Notions used to state the properties                             *)
(* ================================================================== *)

Unset Implicit Arguments.

(** The hours of the twelve calendar months. *)
Definition month_hours (leap : bool) : list nat :=
  [744; if leap then 696 else 672; 744; 720; 744; 720; 744; 744; 720; 744; 720; 744].

(** A list cut into consecutive blocks of the given lengths. *)
Fixpoint consecutive_blocks {A : Type} (lens : list nat) (data : list A)
  : list (list A) :=
  match lens with
  | [] => []
  | n :: rest => firstn n data :: consecutive_blocks rest (skipn n data)
  end.

(** The elements of a series at the true positions of a mask. *)
Definition select {A : Type} (series : list A) (mask : list bool) : list A :=
  map fst (filter snd (combine series mask)).

(** Every zenith and azimuth series of the dictionary has [n] entries. *)
Definition hours_of (d : CalculateCfSolar.solar_angles_dict) (n : nat) : Prop :=
  Forall (fun kv => length (CalculateCfSolar.solar_zenith (snd kv)) = n
                    /\ length (CalculateCfSolar.solar_azimuth (snd kv)) = n) d.

(** The yearly placeholder record of a unit: energy 0, capacity factor 0 and
    the reason text. *)
Definition yearly_placeholder (env : environ) (mastrid : string) (year : Z)
  : results_dict :=
  {| Helpers.EinheitMastrNummer := mastrid;
     year := year;
     key_prefix := "y";
     energy := Scalar (Num 0%Q);
     cf := Scalar (Num 0%Q);
     software_version := env "SOFTWARE_VERSION";
     outfile_postfix := env "OUTFILE_POSTFIX";
     no_calc_reason := Some "Missing AGS or other coordinates" |}.

(** The monthly placeholder record: the one-element lists [[0]]. *)
Definition monthly_placeholder (env : environ) (mastrid : string) (year : Z)
  : results_dict :=
  {| Helpers.EinheitMastrNummer := mastrid;
     year := year;
     key_prefix := "m";
     energy := Arr [Num 0%Q];
     cf := Arr [Num 0%Q];
     software_version := env "SOFTWARE_VERSION";
     outfile_postfix := env "OUTFILE_POSTFIX";
     no_calc_reason := Some "Missing AGS or other coordinates" |}.

(** What the placeholder branch leaves behind: one more yearly and one more
    monthly record, the session and the list of power-model calls
    untouched. *)
Definition placeholder_step (env : environ) (mastrid : string) (year : Z)
    (st st' : loop_state) : Prop :=
  updates_yearly st' = updates_yearly st ++ [yearly_placeholder env mastrid year]
  /\ updates_monthly st' = updates_monthly st ++ [monthly_placeholder env mastrid year]
  /\ power_model_calls st' = power_model_calls st
  /\ db st' = db st.

(** The table and the rows of a statement. *)
Definition statement_table (q : statement) : string :=
  match q with
  | InsertDoNothing t _ _ | InsertDoUpdate t _ _ | JoinUpdate t _ => t
  end.

Definition statement_data (q : statement) : list results_dict :=
  match q with
  | InsertDoNothing _ _ d | InsertDoUpdate _ _ d | JoinUpdate _ d => d
  end.

(** An insert with [ON CONFLICT ("EinheitMastrNummer", "year")]. *)
Definition keyed_upsert (q : statement) : Prop :=
  match q with
  | InsertDoNothing _ cols _ | InsertDoUpdate _ cols _ =>
      cols = ["EinheitMastrNummer"; "year"]
  | JoinUpdate _ _ => False
  end.

(** The records sent to one table so far, in the order they were sent. *)
Definition sent (table : string) (s : session) : list results_dict :=
  flat_map (fun q => if String.eqb (statement_table q) table
                     then statement_data q else [])
           (executed s).

(** The two conflict policies that are upserts on the result tables. *)
Definition upsert_policy (conflict_action : string) : Prop :=
  conflict_action = "skip_existing_row" \/ conflict_action = "update".

(** The three buffer names with their tables, for a technology. *)
Inductive buffer_table (table_id : string) : string -> string -> Prop :=
| hourly_table :
    buffer_table table_id "updates_hourly" ("results_" ++ table_id ++ "_hourly")
| monthly_table :
    buffer_table table_id "updates_monthly" ("results_" ++ table_id ++ "_monthly")
| yearly_table :
    buffer_table table_id "updates_yearly" ("results_" ++ table_id ++ "_yearly").

(** The conflict key of a record. *)
Definition key_of (r : results_dict) : string * Z :=
  (Helpers.EinheitMastrNummer r, year r).

(** What has reached a table followed by what still waits in its buffer. *)
Definition history (table : string) (buffer : loop_state -> list results_dict)
    (st : loop_state) : list results_dict :=
  sent table (db st) ++ buffer st.

(** One step of a unit loop, seen from the three histories: the monthly and
    the yearly history grow by one record of the unit and year, the hourly
    one by such a record exactly when hourly data are kept, and only keyed
    upserts are executed. *)
Definition history_step (env : environ) (table_id mastrid : string) (year : Z)
    (st st' : loop_state) : Prop :=
  exists rh rm ry,
    history ("results_" ++ table_id ++ "_hourly") updates_hourly st'
    = history ("results_" ++ table_id ++ "_hourly") updates_hourly st
      ++ (if save_hourly_data env then [rh] else [])
    /\ history ("results_" ++ table_id ++ "_monthly") updates_monthly st'
       = history ("results_" ++ table_id ++ "_monthly") updates_monthly st ++ [rm]
    /\ history ("results_" ++ table_id ++ "_yearly") updates_yearly st'
       = history ("results_" ++ table_id ++ "_yearly") updates_yearly st ++ [ry]
    /\ key_of rh = (mastrid, year)
    /\ key_of rm = (mastrid, year)
    /\ key_of ry = (mastrid, year)
    /\ exists new,
         executed (db st') = executed (db st) ++ new /\ Forall keyed_upsert new.

(** Each buffer holds fewer than [b] records. *)
Definition below (b : Z) (st : loop_state) : Prop :=
  (Z.of_nat (length (updates_hourly st)) < b)%Z
  /\ (Z.of_nat (length (updates_monthly st)) < b)%Z
  /\ (Z.of_nat (length (updates_yearly st)) < b)%Z.

(** Each buffer is empty. *)
Definition all_empty (st : loop_state) : Prop :=
  updates_hourly st = [] /\ updates_monthly st = [] /\ updates_yearly st = [].

(** What a flush of one buffer guarantees (see [save_and_commit_spec]). *)
Definition flush_spec (table_id : string) (size : option Z)
    (flush : string -> session -> list results_dict
             -> result (session * list results_dict)) : Prop :=
  forall (s : session) (key table : string) (updates : list results_dict),
    buffer_table table_id key table ->
    exists s' updates',
      flush key s updates = Ok (s', updates')
      /\ sent table s' ++ updates' = sent table s ++ updates
      /\ (forall t, String.eqb table t = false -> sent t s' = sent t s)
      /\ (exists new, executed s' = executed s ++ new /\ Forall keyed_upsert new
                      /\ Forall (fun q => statement_table q = table) new)
      /\ match size with
         | Some b => (1 <= b)%Z -> (Z.of_nat (length updates') < b)%Z
         | None => updates' = []
         end.

(** Several steps in a row: the histories grow by one record per unit, in
    the order of the units. *)
Definition history_run (env : environ) (table_id : string) (ids : list string)
    (year : Z) (st st' : loop_state) : Prop :=
  exists rhs rms rys,
    history ("results_" ++ table_id ++ "_hourly") updates_hourly st'
    = history ("results_" ++ table_id ++ "_hourly") updates_hourly st ++ rhs
    /\ history ("results_" ++ table_id ++ "_monthly") updates_monthly st'
       = history ("results_" ++ table_id ++ "_monthly") updates_monthly st ++ rms
    /\ history ("results_" ++ table_id ++ "_yearly") updates_yearly st'
       = history ("results_" ++ table_id ++ "_yearly") updates_yearly st ++ rys
    /\ map key_of rhs
       = (if save_hourly_data env then map (fun id => (id, year)) ids else [])
    /\ map key_of rms = map (fun id => (id, year)) ids
    /\ map key_of rys = map (fun id => (id, year)) ids
    /\ exists new,
         executed (db st') = executed (db st) ++ new /\ Forall keyed_upsert new.

(** The buffers of a year before its first unit. *)
Definition year_start (s : session) (calls : list string) : loop_state :=
  {| updates_hourly := []; updates_monthly := []; updates_yearly := [];
     db := s; power_model_calls := calls |}.

(** The invariant as the specification words it: whenever a further unit is
    about to be processed, each buffer holds fewer than [batch_size]
    records. *)
Definition below_batch_size_at_every_unit (env : environ) (df : power_curve_df)
    (nearest : option Q -> option Q -> option (Q * Q))
    (v_hh_norm : Z -> Q -> Q -> float64 -> list float64)
    (conflict_action : string) (batch_size : Z) (curtailment : option float64)
    (year : Z) (units : list CalculateCfWind.wind_unit) (s : session) : Prop :=
  forall processed unit rest st,
    units = processed ++ unit :: rest ->
    processed <> [] ->
    CalculateCfWind.unit_loop env df nearest v_hh_norm conflict_action
      batch_size curtailment year processed (year_start s []) = Ok st ->
    below batch_size st.

(** What a year that ends normally has done, from session [s] to the final
    state [st']: the three buffers are empty; every statement executed was
    an insert with [ON CONFLICT] on [("EinheitMastrNummer", "year")]; the
    records that reached the monthly and the yearly table are one per unit,
    keyed by the unit and the year, in the order of the units, and so are
    those of the hourly table when hourly data are kept (none otherwise). *)
Definition all_sent (env : environ) (table_id : string) (ids : list string)
    (year : Z) (s : session) (st' : loop_state) : Prop :=
  all_empty st'
  /\ exists rhs rms rys new,
       sent ("results_" ++ table_id ++ "_hourly") (db st')
       = sent ("results_" ++ table_id ++ "_hourly") s ++ rhs
       /\ sent ("results_" ++ table_id ++ "_monthly") (db st')
          = sent ("results_" ++ table_id ++ "_monthly") s ++ rms
       /\ sent ("results_" ++ table_id ++ "_yearly") (db st')
          = sent ("results_" ++ table_id ++ "_yearly") s ++ rys
       /\ map key_of rhs
          = (if save_hourly_data env then map (fun id => (id, year)) ids else [])
       /\ map key_of rms = map (fun id => (id, year)) ids
       /\ map key_of rys = map (fun id => (id, year)) ids
       /\ executed (db st') = executed s ++ new
       /\ Forall keyed_upsert new.

(** The sum of the weights is zero. *)
Definition zero_sum (w : option Q) : Prop :=
  exists q, w = Some q /\ (q == 0)%Q.

(** The claim as the specification words it, on the geography-only table:
    with a zero sum of capacities the weighted average is NULL and the
    unweighted one is a number. *)
Definition unweighted_average_always_numeric : Prop :=
  forall l clcs exts results row,
    In row (Aggregator.tmp_agg l (Aggregator.unit_rows clcs exts results)) ->
    zero_sum (Aggregator.nettonennleistung_gesamt row) ->
    Aggregator.avg_cf_gesamt_power_weighted row = None
    /\ exists q, Aggregator.avg_cf_gesamt row = Some q.

(** The members of the group of a row of the geography-only table: the
    units that carry the row's geography and grouping columns. *)
Definition geo_members (l : Aggregator.agg_lvl)
    (units : list Aggregator.unit_row) (row : Aggregator.agg_row)
  : list Aggregator.unit_row :=
  filter (fun u =>
            Aggregator.geo_key_eqb
              (Aggregator.geo row, Aggregator.geo_cols row)
              (Aggregator.lvl l u, Aggregator.grp_cols l u))
         units.

(** The members of the group of a row of a cohort table: the rows of the
    join that carry the row's geography and year. *)
Definition cohort_members (key : Aggregator.joined -> string * option Z)
    (join : list Aggregator.joined) (row : Aggregator.cohort_row)
  : list Aggregator.joined :=
  filter (fun j =>
            Aggregator.cohort_key_eqb
              (Aggregator.c_geo row, Aggregator.c_year row) (key j))
         join.

(** [r] is the mean of the values of [xs] that are not NULL, and NULL when
    there is none. *)
Definition mean_of_values (xs : list (option Q)) (r : option Q) : Prop :=
  (Aggregator.non_null xs = [] -> r = None)
  /\ (forall v vs,
        Aggregator.non_null xs = v :: vs ->
        r = Some (Aggregator.qsum (v :: vs)
                  / inject_Z (Z.of_nat (length (v :: vs))))%Q).

(** The averages of a row of a cohort table, over the members of its
    group: the unweighted ones are means of the values present, the
    power-weighted ones are NULL when the capacities sum to zero. *)
Definition cohort_averages (members : list Aggregator.joined)
    (row : Aggregator.cohort_row) : Prop :=
  members <> []
  /\ mean_of_values (map Aggregator.j_cf_y members) (Aggregator.c_cf_y row)
  /\ mean_of_values (map Aggregator.j_avg_cf members)
       (Aggregator.c_avg_cf_y row)
  /\ (zero_sum (Aggregator.sql_sum
                  (map Aggregator.j_Nettonennleistung members)) ->
      Aggregator.c_cf_y_power_weighted row = None
      /\ Aggregator.c_avg_cf_y_power_weighted row = None).

(** The hourly capacity factors scaled by the rated capacity. *)
Definition scaled (net_capacity : float64) (cf_hourly : list float64)
  : list float64 :=
  map (fun c => fmul c net_capacity) cf_hourly.

(** The module power after rounding, NaN replacement and curtailment, as
    the solar reducer computes it ([power_h_module]). *)
Definition prepared (power : list float64) (curtailment : option float64)
  : list float64 :=
  if is_set curtailment
  then map (fun p => fmul (round 4 p) (value_of curtailment)) power
  else map nan_to_num (map (round 4) power).

(** The relations between the stored records that the specification
    states: the hourly energies are the hourly capacity factors times the
    rated capacity, and the yearly energy is the sum of these. *)
Definition capacity_scaled_hourly (net_capacity : float64)
    (out : result (list results_dict * list results_dict * list results_dict))
  : Prop :=
  exists rh rm ry cf_hourly,
    out = Ok ([rh], [rm], [ry])
    /\ cf rh = Arr cf_hourly
    /\ energy rh = Arr (scaled net_capacity cf_hourly).

(** The same for the yearly energy. *)
Definition capacity_scaled_yearly (net_capacity : float64)
    (out : result (list results_dict * list results_dict * list results_dict))
  : Prop :=
  exists rh rm ry cf_hourly,
    out = Ok ([rh], [rm], [ry])
    /\ cf rh = Arr cf_hourly
    /\ energy ry = Scalar (sum (scaled net_capacity cf_hourly)).

(** The energy and capacity-factor values of a list of records. *)
Definition energy_of (rs : list results_dict) : list pyval := map energy rs.
Definition cf_of (rs : list results_dict) : list pyval := map cf rs.

(** The first element of an hourly series. *)
Definition first_hour (v : pyval) : float64 := hd NaN (as_array v).

(** Readings of a reducer's result: the first hour of each stored hourly
    energy and capacity-factor series, the stored yearly energy, and the
    sum of the stored hourly factors times a capacity. *)
Definition hourly_energy_first
    (out : result (list results_dict * list results_dict * list results_dict))
  : option (list float64) :=
  match out with
  | Ok (uh, _, _) => Some (map first_hour (energy_of uh))
  | Raise _ => None
  end.

Definition hourly_cf_first
    (out : result (list results_dict * list results_dict * list results_dict))
  : option (list float64) :=
  match out with
  | Ok (uh, _, _) => Some (map first_hour (cf_of uh))
  | Raise _ => None
  end.

Definition yearly_energy
    (out : result (list results_dict * list results_dict * list results_dict))
  : option (list pyval) :=
  match out with
  | Ok (_, _, uy) => Some (energy_of uy)
  | Raise _ => None
  end.

Definition yearly_sum_scaled (net_capacity : float64)
    (out : result (list results_dict * list results_dict * list results_dict))
  : option (list pyval) :=
  match out with
  | Ok (uh, _, _) =>
      Some (map (fun v => Scalar (sum (scaled net_capacity (as_array v))))
                (cf_of uh))
  | Raise _ => None
  end.

(** [a] is a number within [tol] of [m] times the number [b]. *)
Definition close (tol m : Q) (a b : float64) : Prop :=
  exists x y, a = Num x /\ b = Num y /\ (Qabs (x - m * y) <= tol)%Q.

(** The multiplier that [get_curtailment] returns for the fraction [c]. *)
Definition multiplier (c : Q) : float64 := to_float64 (one_minus (Finite c)).

(** The claim at one input: the hourly energies stored with the multiplier
    [m] are those stored without curtailment, times [m]. *)
Definition curtailment_scales_hourly_energy
    (with_curtailment without_curtailment :
       result (list results_dict * list results_dict * list results_dict))
    (m : float64) : Prop :=
  exists rc mc yc r0 m0 y0 e0,
    with_curtailment = Ok ([rc], [mc], [yc])
    /\ without_curtailment = Ok ([r0], [m0], [y0])
    /\ energy r0 = Arr e0
    /\ energy rc = Arr (map (fun e => fmul e m) e0).

(** A unit is computable when its coordinates resolve and, if it reaches
    the power model, the power curve of its turbine can be read. *)
Definition wind_computable (df : power_curve_df)
    (nearest : option Q -> option Q -> option (Q * Q))
    (v_hh_norm : Z -> Q -> Q -> float64 -> list float64)
    (year : Z) (unit : CalculateCfWind.wind_unit) : Prop :=
  exists place,
    resolve_coordinates nearest
      (CalculateCfWind.era5_ags_lat unit) (CalculateCfWind.era5_ags_lon unit)
      (CalculateCfWind.Breitengrad unit) (CalculateCfWind.Laengengrad unit)
    = Ok place
    /\ forall lat lon,
         place = Some (lat, lon) ->
         exists r,
           calculate_power df
             (Arr (v_hh_norm year lat lon (CalculateCfWind.hub_height_mapped unit)))
             (CalculateCfWind.turbine_mapped unit) = Ok r.

(* ================================================================== *)
(** * Concrete inputs                                                  *)
(* ================================================================== *)

(** A curve sampled at 0, 4, 8, 12 and 16 m/s whose last power value is
    missing: the last valid sample is (12, 2500). *)
Definition example_curve : power_curve_df :=
  {| columns := [0; 4; 8; 12; 16]%Q;
     rows := [("E-82", [Num 0; Num 100; Num 1500; Num 2500; NaN]%Q)] |}.

(** The environment in which [CURTAILMENT_WIND] is the text [abc]. *)
Definition env_curtailment_abc : environ :=
  fun k => if String.eqb k "CURTAILMENT_WIND" then Some "abc" else None.

(** One grid point whose reference series have 8784 entries. *)
Definition example_angles : CalculateCfSolar.solar_angles_dict :=
  [("(52.5,13.25)",
    {| CalculateCfSolar.era5_lat := (105 # 2)%Q;
       CalculateCfSolar.era5_lon := (53 # 4)%Q;
       CalculateCfSolar.solar_zenith := repeat 90%Q 8784;
       CalculateCfSolar.solar_azimuth := repeat 180%Q 8784 |})].

(** Concrete inputs: no environment variable set, one grid point, a constant
    wind of 12 m/s, a unit without any coordinates and a unit at the grid
    point. *)
Definition env_empty : environ := fun _ => None.

Definition nearest_example : option Q -> option Q -> option (Q * Q) :=
  fun _ _ => Some ((105 # 2)%Q, (53 # 4)%Q).

Definition v_hh_norm_example : Z -> Q -> Q -> float64 -> list float64 :=
  fun _ _ _ _ => repeat (Num 12%Q) 8760.

Definition unit_without_coordinates : CalculateCfWind.wind_unit :=
  {| CalculateCfWind.mastr_nummer := "SEE900000000001";
     CalculateCfWind.turbine_mapped := "E-82";
     CalculateCfWind.hub_height_mapped := Num 100%Q;
     CalculateCfWind.Nettonennleistung := Num 2000%Q;
     CalculateCfWind.era5_ags_lat := None;
     CalculateCfWind.era5_ags_lon := None;
     CalculateCfWind.Breitengrad := None;
     CalculateCfWind.Laengengrad := None |}.

Definition unit_at_grid_point : CalculateCfWind.wind_unit :=
  {| CalculateCfWind.mastr_nummer := "SEE900000000002";
     CalculateCfWind.turbine_mapped := "E-82";
     CalculateCfWind.hub_height_mapped := Num 100%Q;
     CalculateCfWind.Nettonennleistung := Num 2000%Q;
     CalculateCfWind.era5_ags_lat := Some (105 # 2)%Q;
     CalculateCfWind.era5_ags_lon := Some (53 # 4)%Q;
     CalculateCfWind.Breitengrad := Some (5251 # 100)%Q;
     CalculateCfWind.Laengengrad := Some (1331 # 100)%Q |}.

Definition empty_session : session := {| executed := []; commits := 0 |}.

(** One wind unit of 2000 kW commissioned on 2019-06-01 and never
    decommissioned, with yearly results for 2019 and 2020. *)
Definition example_calculation : Aggregator.calculation :=
  {| Aggregator.clc_EinheitMastrNummer := "SEE900000000002";
     Aggregator.clc_Postleitzahl := Some "10115";
     Aggregator.clc_Nettonennleistung := Some 2000%Q;
     Aggregator.clc_plz_lat := Some (5253 # 100)%Q;
     Aggregator.clc_plz_lon := Some (1338 # 100)%Q;
     Aggregator.clc_Gemeindeschluessel := Some "11000000";
     Aggregator.clc_ags_lat := Some (5251 # 100)%Q;
     Aggregator.clc_ags_lon := Some (1331 # 100)%Q;
     Aggregator.clc_Inbetriebnahmedatum :=
       Some {| Aggregator.date_year := 2019; Aggregator.date_month := 6;
               Aggregator.date_day := 1 |} |}.

Definition example_result (y : Z) (cf energy : Q) : Aggregator.results_yearly :=
  {| Aggregator.res_EinheitMastrNummer := "SEE900000000002";
     Aggregator.res_year := y;
     Aggregator.cf_y := Some cf;
     Aggregator.energy_y := Some energy |}.

Definition example_results : list Aggregator.results_yearly :=
  [example_result 2019 (3 # 10) 5256000; example_result 2020 (1 # 4) 4392000].

Definition example_units : list Aggregator.unit_row :=
  Aggregator.unit_rows [example_calculation] [] example_results.

Definition example_unit : Aggregator.unit_row :=
  nth 0 example_units
    {| Aggregator.EinheitMastrNummer := ""; Aggregator.plz := "";
       Aggregator.Nettonennleistung := None; Aggregator.plz_lat := None;
       Aggregator.plz_lon := None; Aggregator.ags := "";
       Aggregator.ags_lat := None; Aggregator.ags_lon := None;
       Aggregator.bl := ""; Aggregator.Inbetriebnahmejahr := 0;
       Aggregator.Stilllegung_datum := None; Aggregator.Stilllegung_jahr := 0;
       Aggregator.avg_cf := None |}.

(** A unit of capacity 0 for which no yearly result has been stored. *)
Definition calculation_without_result : Aggregator.calculation :=
  {| Aggregator.clc_EinheitMastrNummer := "SEE900000000003";
     Aggregator.clc_Postleitzahl := Some "10115";
     Aggregator.clc_Nettonennleistung := Some 0%Q;
     Aggregator.clc_plz_lat := None;
     Aggregator.clc_plz_lon := None;
     Aggregator.clc_Gemeindeschluessel := Some "11000000";
     Aggregator.clc_ags_lat := None;
     Aggregator.clc_ags_lon := None;
     Aggregator.clc_Inbetriebnahmedatum := None |}.

(** Two units of capacity 0 in one state, one of them with an average
    capacity factor: the weighted average is NULL, the unweighted one is
    the value of the unit that has one. *)
Definition zero_capacity_units : list Aggregator.unit_row :=
  Aggregator.unit_rows
    [calculation_without_result;
     {| Aggregator.clc_EinheitMastrNummer := "SEE900000000004";
        Aggregator.clc_Postleitzahl := Some "10115";
        Aggregator.clc_Nettonennleistung := Some 0%Q;
        Aggregator.clc_plz_lat := None;
        Aggregator.clc_plz_lon := None;
        Aggregator.clc_Gemeindeschluessel := Some "11000000";
        Aggregator.clc_ags_lat := None;
        Aggregator.clc_ags_lon := None;
        Aggregator.clc_Inbetriebnahmedatum := None |}]
    []
    [{| Aggregator.res_EinheitMastrNummer := "SEE900000000004";
        Aggregator.res_year := 2020;
        Aggregator.cf_y := Some (1 # 4)%Q;
        Aggregator.energy_y := Some 0%Q |}].

(** The yearly result of 2020 of the unit that has one. *)
Definition zero_capacity_results : list Aggregator.results_yearly :=
  [{| Aggregator.res_EinheitMastrNummer := "SEE900000000004";
      Aggregator.res_year := 2020;
      Aggregator.cf_y := Some (1 # 4)%Q;
      Aggregator.energy_y := Some 0%Q |}].

(** The environment in which hourly data are kept. *)
Definition env_hourly : environ :=
  fun k => if String.eqb k "SAVE_HOURLY_DATA" then Some "True" else None.

(** A wind unit of 2000 kW mapped to a turbine of 2500 kW (the curve is in
    watts) that runs at the maximum of its curve in each of the 8784 hours
    of 2020. *)
Definition wind_scenario
  : result (list results_dict * list results_dict * list results_dict) :=
  calc_capacity_factor_wind env_hourly (repeat (Num 2500000%Q) 8784)
    (Num 2500000%Q) [] [] [] 2020 "SEE900000000002" (Num 2000%Q) None.

(** A solar unit of 10 kW whose reference module (160 W) gives 80 W in each
    of the 8760 hours of 2021. *)
Definition solar_scenario
  : result (list results_dict * list results_dict * list results_dict) :=
  Solar.calc_capacity_factor env_hourly (Num 160%Q) (repeat (Num 80%Q) 8760)
    [] [] [] 2021 "SEE900000000005" (Num 10%Q) None.

(** A solar unit of 1.1 kW whose module gives 80 W in the first hour of
    2021 and nothing afterwards. *)
Definition solar_one_hour
  : result (list results_dict * list results_dict * list results_dict) :=
  Solar.calc_capacity_factor env_hourly (Num 160%Q)
    (Num 80%Q :: repeat (Num 0%Q) 8759)
    [] [] [] 2021 "SEE900000000006" (Num (11 # 10)%Q) None.

(** A turbine of 2000 kW (curve in watts) at half of its maximum power in
    every hour of 2021, for a unit of 2000 kW. *)
Definition wind_half_power (curtailment : option float64)
  : result (list results_dict * list results_dict * list results_dict) :=
  calc_capacity_factor_wind env_hourly (repeat (Num 1000000%Q) 8760)
    (Num 2000000%Q) [] [] [] 2021 "SEE900000000002" (Num 2000%Q) curtailment.

(** A module of 160 W giving 80 W in every hour of 2021, for a unit of
    10 kW. *)
Definition solar_half_power (curtailment : option float64)
  : result (list results_dict * list results_dict * list results_dict) :=
  Solar.calc_capacity_factor env_hourly (Num 160%Q) (repeat (Num 80%Q) 8760)
    [] [] [] 2021 "SEE900000000005" (Num 10%Q) curtailment.

(** The same module with a missing first sample. *)
Definition solar_missing_sample (curtailment : option float64)
  : result (list results_dict * list results_dict * list results_dict) :=
  Solar.calc_capacity_factor env_hourly (Num 160%Q)
    (NaN :: repeat (Num 80%Q) 8759)
    [] [] [] 2021 "SEE900000000005" (Num 10%Q) curtailment.

(** Every zenith and azimuth series of the rows has [n] entries. *)
Definition row_hours (n : nat) (row : SetupDatabase.angles_row) : Prop :=
  length (SetupDatabase.row_solar_zenith row) = n
  /\ length (SetupDatabase.row_solar_azimuth row) = n.

(** One grid point with constant angles over the 8760 hours of a common
    year. *)
Definition example_angles_row : SetupDatabase.angles_row :=
  {| SetupDatabase.row_era5_lat := (105 # 2)%Q;
     SetupDatabase.row_era5_lon := (53 # 4)%Q;
     SetupDatabase.row_lat_lon := ((105 # 2)%Q, (53 # 4)%Q);
     SetupDatabase.row_solar_zenith := repeat 90%Q 8760;
     SetupDatabase.row_solar_azimuth := repeat 180%Q 8760 |}.

(** A solar position that does not depend on the hour. *)
Definition get_solarposition_example : Z -> nat -> Q -> Q -> Q * Q :=
  fun _ _ _ _ => (90%Q, 180%Q).

(** The items of [MASTR_TURBINE_MAP] in the order in which [map_turbine]
    visits them, each with its turbine type. *)
Definition turbine_entries {M : Type}
    (MASTR_TURBINE_MAP : list (string * list (string * list (Z * M))))
  : list (string * (Z * M)) :=
  flat_map (fun manufacturer =>
    flat_map (fun turbine => map (fun item => (fst turbine, item)) (snd turbine))
             (snd manufacturer))
    MASTR_TURBINE_MAP.

(** An item whose designations contain the type designation of a unit. *)
Definition matching {M : Type} (contains : string -> M -> bool) (name : string)
    (entry : string * (Z * M)) : bool :=
  contains name (snd (snd entry)).

(** The rows of a statement of the set-up, and the statements that update
    a table by its column [EinheitMastrNummer]. *)
Definition rows_of {R : Type} (q : SetupDatabase.statement_on R) : list R :=
  match q with
  | SetupDatabase.InsertDoNothing_on _ _ d
  | SetupDatabase.InsertDoUpdate_on _ _ d
  | SetupDatabase.JoinUpdate_on _ d => d
  end.

Definition updates_by_unit {R : Type} (table : string)
    (q : SetupDatabase.statement_on R) : Prop :=
  q = SetupDatabase.InsertDoUpdate_on table ["EinheitMastrNummer"] (rows_of q).

(** The statements carry full batches: at least one row and at most
    [batch_size] in each, exactly [batch_size] in all but the last. *)
Definition full_batches {R : Type} (batch_size : Z)
    (new : list (SetupDatabase.statement_on R)) : Prop :=
  Forall (fun q => (1 <= Z.of_nat (length (rows_of q)) <= batch_size)%Z) new
  /\ Forall (fun q => Z.of_nat (length (rows_of q)) = batch_size) (removelast new).

(** A turbine map with two types of one manufacturer, and the log texts. *)
Definition example_turbine_map : list (string * list (string * list (Z * list string))) :=
  [("Enercon",
    [("E-82/2000", [(2000%Z, ["E-82"; "E82"])]);
     ("E-82/3000", [(3000%Z, ["E-82"; "E82 E4"])])])].

Definition example_contains (name : string) (designations : list string) : bool :=
  existsb (String.eqb name) designations.

Definition example_update_log (key : string) : string := ("log:" ++ key)%string.

Definition example_wind_rows : list SetupDatabase.wind_row :=
  [{| SetupDatabase.Nabenhoehe := Some (Num 108%Q);
      SetupDatabase.Nettonennleistung := Some (Num 2300%Q);
      SetupDatabase.Typenbezeichnung := Some "E-82";
      SetupDatabase.EinheitMastrNummer := "SEE900000000002" |};
   {| SetupDatabase.Nabenhoehe := None;
      SetupDatabase.Nettonennleistung := Some (Num 2900%Q);
      SetupDatabase.Typenbezeichnung := Some "E-82";
      SetupDatabase.EinheitMastrNummer := "SEE900000000007" |};
   {| SetupDatabase.Nabenhoehe := None;
      SetupDatabase.Nettonennleistung := None;
      SetupDatabase.Typenbezeichnung := None;
      SetupDatabase.EinheitMastrNummer := "SEE900000000008" |}].

Definition example_solar_rows : list SetupDatabase.solar_row :=
  [{| SetupDatabase.Hauptausrichtung := Some "Sued";
      SetupDatabase.HauptausrichtungNeigungswinkel := Some "20 - 40 Grad";
      SetupDatabase.solar_EinheitMastrNummer := "SEE900000000005" |};
   {| SetupDatabase.Hauptausrichtung := None;
      SetupDatabase.HauptausrichtungNeigungswinkel := None;
      SetupDatabase.solar_EinheitMastrNummer := "SEE900000000006" |}].

Definition example_azimuth_map : list (string * float64) :=
  [("Sued", Num 180%Q); ("default", Num 180%Q)].

Definition example_tilt_map : list (string * float64) :=
  [("20 - 40 Grad", Num 30%Q); ("default", Num 35%Q)].

(** Strictly increasing sample points. *)
Fixpoint increasing (xs : list Q) : Prop :=
  match xs with
  | [] => True
  | x :: rest => Forall (fun y => (x < y)%Q) rest /\ increasing rest
  end.

(** A float that is a number between two bounds. *)
Definition within (lo hi : Q) (x : float64) : Prop :=
  exists q, x = Num q /\ (lo <= q <= hi)%Q.

(** An hourly power value that the wind reducer can meet: NaN or a number
    between 0 and the maximum of the curve. *)
Definition power_sample (max_power : Q) (p : float64) : Prop :=
  p = NaN \/ within 0 max_power p.

(** The environment in which [CURTAILMENT_WIND] is the text [0.25]. *)
Definition env_curtailment_quarter : environ :=
  fun k => if String.eqb k "CURTAILMENT_WIND" then Some "0.25" else None.

(** SQL's [coalesce(x, 0)] on a nullable number. *)
Definition or_zero (x : option Q) : Q :=
  match x with
  | Some q => q
  | None => 0%Q
  end.

(** A unit with an average capacity factor between two bounds and a
    positive capacity. *)
Definition rated_between (lo hi : Q) (u : Aggregator.unit_row) : Prop :=
  exists x w,
    Aggregator.avg_cf u = Some x /\ Aggregator.Nettonennleistung u = Some w
    /\ (lo <= x <= hi)%Q /\ (0 < w)%Q.

(** A unit with an average capacity factor and the capacity [w]. *)
Definition rated_at (w : Q) (u : Aggregator.unit_row) : Prop :=
  exists x, Aggregator.avg_cf u = Some x /\ Aggregator.Nettonennleistung u = Some w.

(** A configuration file that gives the three paths and nothing else. *)
Definition example_config : Config.config :=
  fun key =>
    if String.eqb key "REPO_ROOT" then Some (Config.YamlStr "/repo")
    else if String.eqb key "INPUT_PATH" then Some (Config.YamlStr "/repo/input")
    else if String.eqb key "OUTPUT_PATH" then Some (Config.YamlStr "/repo/output")
    else None.

(** Five result rows to export. *)
Definition example_export_rows : list string :=
  ["row 1"; "row 2"; "row 3"; "row 4"; "row 5"].

(* ================================================================== *)
(** * Monthly statistics                                               *)
(* ================================================================== *)

Section MonthlyStatistics.

Lemma slice_from (A : Type) (start hours : nat) (data : list A) :
  slice start (start + hours) data = firstn hours (skipn start data).
Proof.
  unfold slice. f_equal. lia.
Qed.

Lemma skipn_add (A : Type) (a b : nat) (data : list A) :
  skipn (a + b) data = skipn b (skipn a data).
Proof.
  rewrite Nat.add_comm. symmetry. apply skipn_skipn.
Qed.

Lemma monthly_loop_sum (data : list float64) (hs : list nat) :
  forall start,
    monthly_loop data "sum" hs start
    = Ok (map sum (consecutive_blocks hs (skipn start data))).
Proof.
  induction hs as [|h hs IH]; intros start; simpl.
  - reflexivity.
  - rewrite IH, slice_from, skipn_add. reflexivity.
Qed.

Lemma monthly_loop_mean (data : list float64) (hs : list nat) :
  forall start,
    monthly_loop data "mean" hs start
    = Ok (map mean (consecutive_blocks hs (skipn start data))).
Proof.
  induction hs as [|h hs IH]; intros start; simpl.
  - reflexivity.
  - rewrite IH, slice_from, skipn_add. reflexivity.
Qed.

(** Blocks whose lengths add up to the length of the list cover it exactly:
    they have the requested lengths and their concatenation is the list. *)
Lemma consecutive_blocks_cover (A : Type) (lens : list nat) :
  forall data : list A,
    list_sum lens = length data ->
    map (@length A) (consecutive_blocks lens data) = lens
    /\ concat (consecutive_blocks lens data) = data.
Proof.
  induction lens as [|n lens IH]; intros data Hlen; simpl in *.
  - split; [reflexivity|]. destruct data; [reflexivity|discriminate].
  - destruct (IH (skipn n data)) as [Hl Hc].
    + rewrite length_skipn. lia.
    + split.
      * rewrite Hl. f_equal. apply firstn_length_le. lia.
      * rewrite Hc. apply firstn_skipn.
Qed.

Lemma hours_in_months_spec (n : nat) (leap : bool) :
  n = (if leap then 8784 else 8760) ->
  hours_in_months n = month_hours leap.
Proof.
  intros ->. destruct leap; vm_compute; reflexivity.
Qed.

Lemma month_hours_total (leap : bool) :
  list_sum (month_hours leap) = (if leap then 8784 else 8760).
Proof.
  destruct leap; vm_compute; reflexivity.
Qed.

End MonthlyStatistics.

Lemma monthly_statistics_on_blocks (data : list float64) (leap : bool) :
  length data = (if leap then 8784 else 8760) ->
  map (@length float64) (consecutive_blocks (month_hours leap) data)
  = month_hours leap
  /\ concat (consecutive_blocks (month_hours leap) data) = data
  /\ compute_monthly_statistics data "sum"
     = Ok (map sum (consecutive_blocks (month_hours leap) data))
  /\ compute_monthly_statistics data "mean"
     = Ok (map mean (consecutive_blocks (month_hours leap) data)).
Proof.
  intros Hlen.
  destruct (consecutive_blocks_cover _ (month_hours leap) data) as [Hl Hc].
  { rewrite month_hours_total. symmetry. exact Hlen. }
  repeat split; try assumption.
  - unfold compute_monthly_statistics.
    rewrite (hours_in_months_spec _ leap Hlen), monthly_loop_sum. reflexivity.
  - unfold compute_monthly_statistics.
    rewrite (hours_in_months_spec _ leap Hlen), monthly_loop_mean. reflexivity.
Qed.

(** C8.  For an array of 8760 hours (and likewise for 8784 hours, where
    February has 696 hours), [compute_monthly_statistics] works on twelve
    consecutive blocks of 744, 672 (696), 744, 720, 744, 720, 744, 744, 720,
    744, 720, 744 hours: the blocks have exactly these lengths, their
    concatenation is the whole array (no gap, no overlap), and the result is
    the list of the block sums for ["sum"] and of the block means for
    ["mean"]. *)
Theorem compute_monthly_statistics_blocks (data : list float64) (leap : bool) :
  length data = (if leap then 8784 else 8760) ->
  let blocks := consecutive_blocks (month_hours leap) data in
  map (@length float64) blocks = month_hours leap
  /\ concat blocks = data
  /\ compute_monthly_statistics data "sum" = Ok (map sum blocks)
  /\ compute_monthly_statistics data "mean" = Ok (map mean blocks).
Proof.
  intros Hlen blocks. subst blocks.
  apply monthly_statistics_on_blocks. exact Hlen.
Qed.

(** C8, on 8760 hours of constant value. *)
Lemma compute_monthly_statistics_blocks_witness :
  length (repeat (Num 1%Q) 8760) = 8760
  /\ compute_monthly_statistics (repeat (Num 1%Q) 8760) "sum"
     = Ok (map sum (consecutive_blocks (month_hours false) (repeat (Num 1%Q) 8760))).
Proof.
  split.
  - vm_compute. reflexivity.
  - apply (compute_monthly_statistics_blocks (repeat (Num 1%Q) 8760) false).
    vm_compute. reflexivity.
Defined.

(* ================================================================== *)
(** * The power-curve lookup                                           *)
(* ================================================================== *)

Section PowerCurve.

Lemma valid_samples_nonempty (ws : list Q) (ps : list float64) :
  valid_samples ws ps <> [] -> ps <> [].
Proof.
  destruct ps; [|discriminate].
  destruct ws; simpl; intros H; contradiction H; reflexivity.
Qed.

Lemma nanmax_ok (ps : list float64) :
  ps <> [] -> nanmax ps = Ok (fold_left fmax ps NaN).
Proof.
  destruct ps; [intros H; contradiction H; reflexivity | reflexivity].
Qed.

Lemma last_of_rev (A : Type) (l rest : list A) (a d : A) :
  rev l = a :: rest -> last l d = a.
Proof.
  intros H. rewrite <- (rev_involutive l), H. simpl. apply last_last.
Qed.

(** Beyond the last sample the interpolation answers with the last power. *)
Lemma interp1_clamps_right (pts rest : list (Q * Q)) (ws ps q : Q) :
  rev pts = (ws, ps) :: rest -> (ws < q)%Q -> interp1 (Num q) pts = Num ps.
Proof.
  intros Hrev Hlt. unfold interp1.
  destruct pts as [|[x0 y0] [|p1 pts']].
  - discriminate.
  - simpl in Hrev. injection Hrev as -> -> _. reflexivity.
  - rewrite (last_of_rev _ _ _ _ (x0, y0) Hrev).
    destruct (Qlt_le_dec ws q) as [_|Hle]; [reflexivity|].
    exfalso. apply (Qlt_not_le _ _ Hlt Hle).
Qed.

Lemma interp_ok (x : pyval) (pts : list (Q * Q)) :
  pts <> [] ->
  interp x pts
  = Ok (match x with
        | Scalar v => Scalar (interp1 v pts)
        | Arr vs => Arr (map (fun v => interp1 v pts) vs)
        end).
Proof.
  destruct pts; [intros H; contradiction H; reflexivity|].
  intros _. destruct x; reflexivity.
Qed.

Lemma rev_cons_nonempty (A : Type) (l rest : list A) (a : A) :
  rev l = a :: rest -> l <> [].
Proof.
  intros H ->. discriminate.
Qed.

End PowerCurve.

(** C10.  For a turbine whose curve has a last valid sample
    [(wind_speed_at_last_power, last_power)]:
    - [get_power] with [cut_off = True] and a scalar speed strictly above
      [wind_speed_at_last_power + turbine_cut_off_wind_speed_flex] returns
      the bare [0], which a caller cannot unpack into two values;
    - [calculate_power] (which leaves [cut_off] at [False]) always returns a
      pair, for a scalar and for an array of speeds, and every speed
      strictly above the last valid sample gets [last_power]. *)
Theorem get_power_cut_off_bare_zero_and_calculate_power_pair
    (df : power_curve_df) (turbine_type : string) (power_outputs : list float64)
    (wind_speed_at_last_power last_power : Q) (rest : list (Q * Q)) :
  loc (rows df) turbine_type = Ok power_outputs ->
  rev (valid_samples (columns df) power_outputs)
    = (wind_speed_at_last_power, last_power) :: rest ->
  (forall (v flex : Q),
      (wind_speed_at_last_power + flex < v)%Q ->
      get_power df (Scalar (Num v)) turbine_type true flex = Ok Zero
      /\ unpack2 Zero = Raise TypeError)
  /\ (forall x : pyval,
        exists power max_power,
          calculate_power df x turbine_type = Ok (power, max_power)
          /\ get_power df x turbine_type false 1%Q = Ok (Pair power max_power))
  /\ (forall v : Q,
        (wind_speed_at_last_power < v)%Q ->
        exists max_power,
          calculate_power df (Scalar (Num v)) turbine_type
          = Ok (Scalar (Num last_power), max_power))
  /\ (forall (vs : list float64),
        exists powers max_power,
          calculate_power df (Arr vs) turbine_type = Ok (Arr powers, max_power)
          /\ length powers = length vs
          /\ forall (i : nat) (v : Q),
               nth_error vs i = Some (Num v) ->
               (wind_speed_at_last_power < v)%Q ->
               nth_error powers i = Some (Num last_power)).
Proof.
  intros Hloc Hrev.
  pose proof (rev_cons_nonempty _ _ _ _ Hrev) as Hvalid.
  pose proof (nanmax_ok _ (valid_samples_nonempty _ _ Hvalid)) as Hmax.
  assert (Hget : forall x,
             get_power df x turbine_type false 1%Q
             = Ok (Pair (match x with
                         | Scalar v =>
                             Scalar (interp1 v (valid_samples (columns df) power_outputs))
                         | Arr vs =>
                             Arr (map (fun v =>
                                    interp1 v (valid_samples (columns df) power_outputs)) vs)
                         end)
                        (fold_left fmax power_outputs NaN))).
  { intros x. unfold get_power. rewrite Hloc. cbn [bind]. rewrite Hmax. cbn [bind].
    rewrite Hrev. cbn [bind]. rewrite (interp_ok x _ Hvalid). reflexivity. }
  repeat split.
  - unfold get_power. rewrite Hloc. cbn [bind]. rewrite Hmax. cbn [bind].
    rewrite Hrev. cbn [bind cond_gt gt].
    destruct (Qlt_le_dec (wind_speed_at_last_power + flex) v) as [_|Hle].
    + reflexivity.
    + exfalso. apply (Qlt_not_le _ _ H Hle).
  - intros x. eexists. eexists. unfold calculate_power.
    rewrite (Hget x). cbn [bind unpack2]. split; reflexivity.
  - intros v Hv. eexists. unfold calculate_power. rewrite Hget. cbn [bind unpack2].
    rewrite (interp1_clamps_right _ _ _ _ _ Hrev Hv). reflexivity.
  - intros vs. eexists. eexists. unfold calculate_power. rewrite Hget.
    cbn [bind unpack2]. split; [reflexivity|]. split.
    + apply length_map.
    + intros i v Hi Hv. rewrite nth_error_map, Hi. cbn.
      rewrite (interp1_clamps_right _ _ _ _ _ Hrev Hv). reflexivity.
Qed.

Lemma get_power_cut_off_bare_zero_and_calculate_power_pair_witness :
  get_power example_curve (Scalar (Num 14%Q)) "E-82" true 1%Q = Ok Zero
  /\ unpack2 Zero = Raise TypeError.
Proof.
  refine (proj1 (get_power_cut_off_bare_zero_and_calculate_power_pair
                   example_curve "E-82"
                   [Num 0; Num 100; Num 1500; Num 2500; NaN]%Q
                   12%Q 2500%Q [(8, 1500); (4, 100); (0, 0)]%Q _ _) 14%Q 1%Q _).
  - reflexivity.
  - reflexivity.
  - reflexivity.
Defined.

(* ================================================================== *)
(** * The curtailment setting                                          *)
(* ================================================================== *)

Section Curtailment.

Variable env : environ.
Variable name value : string.
Hypothesis Hset : env name = Some value.

(** The cases of [get_curtailment] on a variable that is set. *)
Lemma get_curtailment_none :
  value = "None" -> snd (get_curtailment env name) = Ok None.
Proof.
  intros ->. unfold get_curtailment. rewrite Hset. reflexivity.
Qed.

Lemma get_curtailment_in_range (f : parsed_float) :
  value <> "None" -> py_float value = Ok f ->
  in_unit_range (one_minus f) = true ->
  snd (get_curtailment env name) = Ok (Some (to_float64 (one_minus f))).
Proof.
  intros Hv Hf Hr. unfold get_curtailment. rewrite Hset.
  destruct (String.eqb_spec value "None") as [E|_]; [contradiction|].
  rewrite Hf, Hr. reflexivity.
Qed.

Lemma get_curtailment_out_of_range (f : parsed_float) :
  value <> "None" -> py_float value = Ok f ->
  in_unit_range (one_minus f) = false ->
  snd (get_curtailment env name) = Ok None.
Proof.
  intros Hv Hf Hr. unfold get_curtailment. rewrite Hset.
  destruct (String.eqb_spec value "None") as [E|_]; [contradiction|].
  rewrite Hf, Hr. reflexivity.
Qed.

(** The test [0 <= 1 - f <= 1] is the test [0 <= f <= 1]. *)
Lemma in_unit_range_one_minus (q : Q) :
  in_unit_range (one_minus (Finite q)) = true <-> (0 <= q <= 1)%Q.
Proof.
  unfold in_unit_range, one_minus. rewrite andb_true_iff, !Qle_bool_iff.
  pose proof (Qred_correct (1 - q)) as H.
  set (r := Qred (1 - q)) in *. clearbody r. split; intros [H1 H2]; split; lra.
Qed.

(** A value that [float] rejects makes [get_curtailment] raise, from inside
    its [except ValueError] handler. *)
Lemma get_curtailment_not_a_float :
  value <> "None" -> py_float value = Raise ValueError ->
  get_curtailment env name = ([], Raise UnboundLocalError).
Proof.
  intros Hv Hf. unfold get_curtailment. rewrite Hset.
  destruct (String.eqb_spec value "None") as [E|_]; [contradiction|].
  rewrite Hf. reflexivity.
Qed.

End Curtailment.

(** C7.  With [CURTAILMENT_WIND=abc], [get_curtailment] does not return
    [None]: it raises [UnboundLocalError] and writes no log line, and the
    exception ends [calculate_cf_wind] whatever the units, years and batch
    size are. *)
Theorem get_curtailment_abc_raises :
  get_curtailment env_curtailment_abc "CURTAILMENT_WIND"
  = ([], Raise UnboundLocalError)
  /\ forall df nearest v_hh_norm units s years batch_size conflict_action,
       CalculateCfWind.calculate_cf_wind env_curtailment_abc df nearest
         v_hh_norm units s years batch_size conflict_action
       = Raise UnboundLocalError.
Proof.
  split.
  - reflexivity.
  - intros. reflexivity.
Qed.

(* ================================================================== *)
(** * The solar angles across the years of a run                       *)
(* ================================================================== *)

Section SolarAngles.

Import CalculateCfSolar.

Context {A : Type}.

Lemma select_true_prefix (a : nat) :
  forall (s : list A) (m : list bool),
    select s (repeat true a ++ m) = firstn a s ++ select (skipn a s) m.
Proof.
  induction a as [|a IH]; intros s m.
  - reflexivity.
  - destruct s as [|x s]; [reflexivity|].
    cbn. unfold select in IH. rewrite IH. reflexivity.
Qed.

Lemma select_false_prefix (b : nat) :
  forall (s : list A) (m : list bool),
    select s (repeat false b ++ m) = select (skipn b s) m.
Proof.
  induction b as [|b IH]; intros s m.
  - reflexivity.
  - destruct s as [|x s]; [reflexivity|].
    cbn. unfold select in IH. rewrite IH. reflexivity.
Qed.

Lemma select_all_true (c : nat) :
  forall s : list A, length s <= c -> select s (repeat true c) = s.
Proof.
  induction c as [|c IH]; intros s Hs.
  - destruct s; [reflexivity|simpl in Hs; lia].
  - destruct s as [|x s]; [reflexivity|].
    cbn. unfold select in IH. rewrite IH; [reflexivity|simpl in Hs; lia].
Qed.

Lemma feb_29_mask_shape :
  feb_29_mask = repeat true (59 * 24) ++ repeat false 24 ++ repeat true (306 * 24).
Proof.
  vm_compute. reflexivity.
Qed.

Lemma feb_29_mask_length : length feb_29_mask = 366 * 24.
Proof.
  vm_compute. reflexivity.
Qed.

(** On a series of 8784 hours the mask removes the 24 hours of the 60th day
    of the year and nothing else. *)
Lemma getitem_mask_leap (s : list A) :
  length s = 366 * 24 ->
  getitem_mask s feb_29_mask = Ok (firstn (59 * 24) s ++ skipn (60 * 24) s).
Proof.
  intros Hs. unfold getitem_mask.
  rewrite feb_29_mask_length, Hs, Nat.eqb_refl.
  fold (select s feb_29_mask).
  rewrite feb_29_mask_shape, select_true_prefix, select_false_prefix.
  rewrite select_all_true.
  - rewrite skipn_skipn. reflexivity.
  - rewrite !length_skipn. lia.
Qed.

Lemma getitem_mask_wrong_length (s : list A) :
  length s <> 366 * 24 -> getitem_mask s feb_29_mask = Raise IndexError.
Proof.
  intros Hs. unfold getitem_mask. rewrite feb_29_mask_length.
  destruct (Nat.eqb_spec (length s) (366 * 24)); [contradiction|reflexivity].
Qed.

End SolarAngles.

Section SolarAnglesRun.

Import CalculateCfSolar.

Lemma length_without_feb_29 (A : Type) (s : list A) :
  length s = 366 * 24 ->
  length (firstn (59 * 24) s ++ skipn (60 * 24) s) = 365 * 24.
Proof.
  intros Hs. rewrite length_app, length_firstn, length_skipn. lia.
Qed.

Lemma drop_feb_29_leap (d : solar_angles_dict) :
  hours_of d 8784 ->
  exists d', drop_feb_29 d = Ok d' /\ hours_of d' 8760 /\ map fst d' = map fst d.
Proof.
  change 8784 with (366 * 24). change 8760 with (365 * 24).
  induction d as [|[k series] d IH]; intros Hd.
  - exists []. repeat split. constructor.
  - inversion Hd as [|? ? [Hz Ha] Hd']; subst. simpl in Hz, Ha.
    destruct (IH Hd') as (d' & Hdrop & Hhours & Hkeys).
    eexists. cbn [drop_feb_29].
    rewrite (getitem_mask_leap _ Hz), (getitem_mask_leap _ Ha). cbn [bind].
    rewrite Hdrop. cbn [bind]. split; [reflexivity|]. split.
    + constructor; [|exact Hhours]. cbn.
      split; apply length_without_feb_29; assumption.
    + cbn. rewrite Hkeys. reflexivity.
Qed.

Lemma drop_feb_29_again (d : solar_angles_dict) :
  d <> [] -> hours_of d 8760 -> drop_feb_29 d = Raise IndexError.
Proof.
  change 8760 with (365 * 24).
  destruct d as [|[k series] d]; [intros H; contradiction H; reflexivity|].
  intros _ Hd. inversion Hd as [|? ? [Hz Ha] Hd']; subst. simpl in Hz.
  cbn [drop_feb_29]. rewrite getitem_mask_wrong_length; [reflexivity|].
  rewrite Hz. lia.
Qed.

Lemma same_keys_nonempty (d d' : solar_angles_dict) :
  map fst d' = map fst d -> d <> [] -> d' <> [].
Proof.
  intros Hk Hd ->. destruct d; [contradiction Hd; reflexivity | discriminate].
Qed.

End SolarAnglesRun.

(** C3.  Let the dictionary of solar angles hold at least one grid point,
    every series with the 8784 entries of the reference year, and let the
    first simulation year [y1] be a non-leap year.  The unit loop of [y1]
    starts with series of 8760 entries.  But
    - if the next year [y2] is a non-leap year too, its adjustment raises
      [IndexError] (a mask of 8784 entries is applied to series of 8760),
      and no run over [y1], [y2], ... completes;
    - if the next year [y2] is a leap year, its unit loop starts with the
      series of 8760 entries left by [y1], not with 8784. *)
Theorem solar_angles_not_restored_between_years
    (LEAP_YEARS : list Z) (y1 y2 : Z) (d : CalculateCfSolar.solar_angles_dict) :
  d <> [] ->
  hours_of d 8784 ->
  CalculateCfSolar.mem y1 LEAP_YEARS = false ->
  exists d1,
    hours_of d1 8760 /\ d1 <> []
    /\ (CalculateCfSolar.mem y2 LEAP_YEARS = false ->
        CalculateCfSolar.angles_at_loop_start LEAP_YEARS [y1; y2] d
        = [(y1, Ok d1); (y2, Raise IndexError)]
        /\ forall env pvm nearest key calc ca b cur units rest s calls,
             exists e,
               CalculateCfSolar.year_loop env LEAP_YEARS pvm nearest key calc
                 ca b cur units (y1 :: y2 :: rest) d s calls = Raise e)
    /\ (CalculateCfSolar.mem y2 LEAP_YEARS = true ->
        CalculateCfSolar.angles_at_loop_start LEAP_YEARS [y1; y2] d
        = [(y1, Ok d1); (y2, Ok d1)]).
Proof.
  intros Hne Hd Hy1.
  destruct (drop_feb_29_leap d Hd) as (d1 & Hdrop & Hd1 & Hkeys).
  pose proof (same_keys_nonempty d d1 Hkeys Hne) as Hne1.
  exists d1. split; [exact Hd1|]. split; [exact Hne1|]. split.
  - intros Hy2. split.
    + cbn [CalculateCfSolar.angles_at_loop_start].
      unfold CalculateCfSolar.adjust_solar_angles.
      rewrite Hy1, Hy2. cbn [negb]. rewrite Hdrop.
      rewrite (drop_feb_29_again d1 Hne1 Hd1). reflexivity.
    + intros. cbn [CalculateCfSolar.year_loop].
      unfold CalculateCfSolar.adjust_solar_angles.
      rewrite Hy1, Hy2. cbn [negb]. rewrite Hdrop. cbn [bind].
      destruct (CalculateCfSolar.run_year _ _ _ _ _ _ _ _ _ _ _ _ _)
        as [st|e]; cbn [bind]; [|exists e; reflexivity].
      rewrite (drop_feb_29_again d1 Hne1 Hd1). cbn [bind].
      exists IndexError. reflexivity.
  - intros Hy2.
    cbn [CalculateCfSolar.angles_at_loop_start].
    unfold CalculateCfSolar.adjust_solar_angles.
    rewrite Hy1, Hy2. cbn [negb]. rewrite Hdrop. reflexivity.
Qed.

Lemma solar_angles_not_restored_between_years_witness :
  exists d1,
    CalculateCfSolar.angles_at_loop_start [2016; 2020; 2024]%Z [2021; 2022]%Z
      example_angles
    = [(2021%Z, Ok d1); (2022%Z, Raise IndexError)].
Proof.
  destruct (solar_angles_not_restored_between_years [2016; 2020; 2024]%Z
              2021%Z 2022%Z example_angles) as (d1 & _ & _ & Hnon & _).
  - discriminate.
  - repeat constructor.
  - reflexivity.
  - exists d1. apply Hnon. reflexivity.
Defined.

(* ================================================================== *)
(** * Units without coordinates                                        *)
(* ================================================================== *)

Section MissingCoordinates.

Variable get_nearest_era5_coordinate : option Q -> option Q -> option (Q * Q).

Lemma resolve_coordinates_missing
    (era5_ags_lat era5_ags_lon lat lon : option Q) (nearest : Q * Q) :
  era5_ags_lat = None \/ era5_ags_lon = None ->
  lat = None \/ lon = None ->
  get_nearest_era5_coordinate lat lon = Some nearest ->
  resolve_coordinates get_nearest_era5_coordinate era5_ags_lat era5_ags_lon lat lon
  = Ok None.
Proof.
  intros Hera Hraw Hnear. unfold resolve_coordinates.
  assert (Hnone : is_none lat || is_none lon = true).
  { destruct Hraw as [-> | ->]; [reflexivity|]. cbn. apply orb_true_r. }
  destruct Hera as [-> | ->].
  - rewrite Hnear, Hnone. reflexivity.
  - destruct era5_ags_lat; rewrite Hnear, Hnone; reflexivity.
Qed.

End MissingCoordinates.

Lemma append_placeholders_step (env : environ) (mastrid : string) (year : Z)
    (st : loop_state) :
  placeholder_step env mastrid year st (append_placeholders env mastrid year st).
Proof.
  repeat split.
Qed.

(** C6.  In the wind loop and in the solar loop, for every year and every
    state of the buffers: a unit whose stored grid coordinates are absent
    (one of them is [None]) and whose raw latitude or longitude is [None],
    the grid resolver answering with some coordinate pair, makes the
    iteration end normally, with exactly one yearly record of energy 0,
    capacity factor 0 and a reason text appended, one monthly placeholder
    appended, no call of the power model and nothing sent to the database;
    the loop then goes on with the remaining units. *)
Theorem missing_coordinates_give_placeholder :
  (forall env df nearest v_hh_norm conflict_action batch_size curtailment
          (year : Z) (st : loop_state) (unit : CalculateCfWind.wind_unit)
          (rest : list CalculateCfWind.wind_unit) (p : Q * Q),
      CalculateCfWind.era5_ags_lat unit = None
      \/ CalculateCfWind.era5_ags_lon unit = None ->
      CalculateCfWind.Breitengrad unit = None
      \/ CalculateCfWind.Laengengrad unit = None ->
      nearest (CalculateCfWind.Breitengrad unit) (CalculateCfWind.Laengengrad unit)
      = Some p ->
      exists st',
        CalculateCfWind.process_unit env df nearest v_hh_norm conflict_action
          batch_size curtailment year st unit = Ok st'
        /\ placeholder_step env (CalculateCfWind.mastr_nummer unit) year st st'
        /\ CalculateCfWind.unit_loop env df nearest v_hh_norm conflict_action
             batch_size curtailment year (unit :: rest) st
           = CalculateCfWind.unit_loop env df nearest v_hh_norm conflict_action
               batch_size curtailment year rest st')
  /\
  (forall env pvm nearest key calc conflict_action batch_size curtailment angles
          (year : Z) (st : loop_state) (unit : CalculateCfSolar.solar_unit)
          (rest : list CalculateCfSolar.solar_unit) (p : Q * Q),
      CalculateCfSolar.era5_ags_lat unit = None
      \/ CalculateCfSolar.era5_ags_lon unit = None ->
      CalculateCfSolar.Breitengrad unit = None
      \/ CalculateCfSolar.Laengengrad unit = None ->
      nearest (CalculateCfSolar.Breitengrad unit) (CalculateCfSolar.Laengengrad unit)
      = Some p ->
      exists st',
        CalculateCfSolar.process_unit env pvm nearest key calc conflict_action
          batch_size curtailment angles year st unit = Ok st'
        /\ placeholder_step env (CalculateCfSolar.mastr_nummer unit) year st st'
        /\ CalculateCfSolar.unit_loop env pvm nearest key calc conflict_action
             batch_size curtailment angles year (unit :: rest) st
           = CalculateCfSolar.unit_loop env pvm nearest key calc conflict_action
               batch_size curtailment angles year rest st').
Proof.
  split.
  - intros env df nearest v ca b cur year st unit rest p Hera Hraw Hnear.
    exists (append_placeholders env (CalculateCfWind.mastr_nummer unit) year st).
    assert (Hstep : CalculateCfWind.process_unit env df nearest v ca b cur year st unit
                    = Ok (append_placeholders env
                            (CalculateCfWind.mastr_nummer unit) year st)).
    { unfold CalculateCfWind.process_unit.
      rewrite (resolve_coordinates_missing nearest _ _ _ _ p Hera Hraw Hnear).
      reflexivity. }
    split; [exact Hstep|]. split; [apply append_placeholders_step|].
    cbn [CalculateCfWind.unit_loop]. rewrite Hstep. reflexivity.
  - intros env pvm nearest key calc ca b cur angles year st unit rest p
           Hera Hraw Hnear.
    exists (append_placeholders env (CalculateCfSolar.mastr_nummer unit) year st).
    assert (Hstep : CalculateCfSolar.process_unit env pvm nearest key calc ca b cur
                      angles year st unit
                    = Ok (append_placeholders env
                            (CalculateCfSolar.mastr_nummer unit) year st)).
    { unfold CalculateCfSolar.process_unit.
      rewrite (resolve_coordinates_missing nearest _ _ _ _ p Hera Hraw Hnear).
      reflexivity. }
    split; [exact Hstep|]. split; [apply append_placeholders_step|].
    cbn [CalculateCfSolar.unit_loop]. rewrite Hstep. reflexivity.
Qed.

(* ================================================================== *)
(** * The batch commit pipeline                                        *)
(* ================================================================== *)

Section SaveAndCommit.

Variable conflict_action : string.
Hypothesis Hpolicy : upsert_policy conflict_action.
Variable table_id : string.
Hypothesis Htech : table_id = "wind" \/ table_id = "solar".

Lemma sent_execute (t : string) (s : session) (q : statement) :
  sent t (execute s q)
  = sent t s ++ (if String.eqb (statement_table q) t then statement_data q else []).
Proof.
  unfold sent, execute. cbn [executed].
  rewrite flat_map_app. cbn [flat_map]. rewrite app_nil_r. reflexivity.
Qed.

Lemma batch_update_spec (s : session) (table : string)
    (updates : list results_dict) :
  exists s',
    batch_update s table updates ["EinheitMastrNummer"; "year"] conflict_action
    = Ok s'
    /\ commits s' = commits s
    /\ (forall t, sent t s'
                  = sent t s ++ (if String.eqb table t then updates else []))
    /\ exists new, executed s' = executed s ++ new /\ Forall keyed_upsert new
                   /\ Forall (fun q => statement_table q = table) new.
Proof.
  destruct updates as [|r updates].
  - exists s. cbn. repeat split.
    + intros t. destruct (String.eqb table t); rewrite app_nil_r; reflexivity.
    + exists []. rewrite app_nil_r. repeat constructor.
  - destruct Hpolicy as [-> | ->]; cbn.
    + eexists. split; [reflexivity|]. split; [reflexivity|]. split.
      * intros t. apply sent_execute.
      * eexists. split; [reflexivity|]. split; repeat constructor.
    + eexists. split; [reflexivity|]. split; [reflexivity|]. split.
      * intros t. apply sent_execute.
      * eexists. split; [reflexivity|]. split; repeat constructor.
Qed.

Lemma save_to_db_spec (s : session) (key table : string)
    (updates : list results_dict) :
  buffer_table table_id key table ->
  exists s',
    save_to_db s key updates conflict_action table_id = Ok s'
    /\ (forall t, sent t s'
                  = sent t s ++ (if String.eqb table t then updates else []))
    /\ exists new, executed s' = executed s ++ new /\ Forall keyed_upsert new
                   /\ Forall (fun q => statement_table q = table) new.
Proof.
  intros Hkey.
  destruct (batch_update_spec s table updates) as (s' & Hb & _ & Hsent & Hnew).
  exists s'. split; [|split; assumption].
  unfold save_to_db.
  destruct Hkey; destruct Htech as [-> | ->]; cbn;
    (destruct updates as [|r updates]; [cbn in Hb; exact Hb | exact Hb]).
Qed.

(** [save_and_commit] on one of the three buffers: it succeeds; what has
    been sent to the buffer's table followed by what is left in the buffer
    is unchanged; the other tables are not touched; with a batch size
    [b >= 1] fewer than [b] records are left, with [None] none. *)
Lemma save_and_commit_spec (s : session) (key table : string)
    (updates : list results_dict) (batch_size : option Z) :
  buffer_table table_id key table ->
  exists s' updates',
    save_and_commit s updates conflict_action key batch_size table_id
    = Ok (s', updates')
    /\ sent table s' ++ updates' = sent table s ++ updates
    /\ (forall t, String.eqb table t = false -> sent t s' = sent t s)
    /\ (exists new, executed s' = executed s ++ new /\ Forall keyed_upsert new
                    /\ Forall (fun q => statement_table q = table) new)
    /\ match batch_size with
       | Some b => (1 <= b)%Z -> (Z.of_nat (length updates') < b)%Z
       | None => updates' = []
       end.
Proof.
  intros Hkey. unfold save_and_commit.
  destruct (save_to_db_spec s key table updates Hkey) as (s' & Hs & Hsent & Hnew).
  assert (Hflush :
    exists s2,
      (s2 <- save_to_db s key updates conflict_action table_id ;;
       Ok (commit s2, @nil results_dict))%py = Ok (s2, [])
      /\ sent table s2 ++ [] = sent table s ++ updates
      /\ (forall t, String.eqb table t = false -> sent t s2 = sent t s)
      /\ (exists new, executed s2 = executed s ++ new /\ Forall keyed_upsert new
                      /\ Forall (fun q => statement_table q = table) new)).
  { exists (commit s'). rewrite Hs. cbn [bind]. split; [reflexivity|]. split.
    - rewrite app_nil_r. unfold sent, commit. cbn [executed].
      fold (sent table s'). rewrite Hsent, String.eqb_refl. reflexivity.
    - split.
      + intros t Ht. unfold sent, commit. cbn [executed].
        fold (sent t s'). rewrite Hsent, Ht, app_nil_r. reflexivity.
      + exact Hnew. }
  destruct Hflush as (s2 & Hrun & Hkeep & Hother & Hnew2).
  destruct batch_size as [b|].
  - destruct (Z.leb_spec b (Z.of_nat (length updates))) as [Hdue|Hnot].
    + exists s2, []. rewrite Hrun. repeat split; try assumption.
      intros Hb. cbn. lia.
    + exists s, updates. repeat split.
      * exists []. rewrite app_nil_r. repeat constructor.
      * intros _. exact Hnot.
  - exists s2, []. rewrite Hrun. repeat split; assumption.
Qed.

End SaveAndCommit.

Section Reducers.

Lemma compute_monthly_statistics_sum_ok (data : list float64) :
  exists stats, compute_monthly_statistics data "sum" = Ok stats.
Proof.
  eexists. unfold compute_monthly_statistics. apply monthly_loop_sum.
Qed.

Lemma compute_monthly_statistics_mean_ok (data : list float64) :
  exists stats, compute_monthly_statistics data "mean" = Ok stats.
Proof.
  eexists. unfold compute_monthly_statistics. apply monthly_loop_mean.
Qed.

(** The wind reducer always returns: it appends one monthly and one yearly
    record of the unit and year, and one hourly record exactly when
    [SAVE_HOURLY_DATA] is [True]. *)
Lemma calc_capacity_factor_wind_appends (env : environ) (power : list float64)
    (max_power : float64) (um uy uh : list results_dict) (year : Z)
    (mastrid : string) (net_capacity : float64) (curtailment : option float64) :
  exists rh rm ry,
    calc_capacity_factor_wind env power max_power um uy uh year mastrid
      net_capacity curtailment
    = Ok (uh ++ (if save_hourly_data env then [rh] else []), um ++ [rm], uy ++ [ry])
    /\ key_of rh = (mastrid, year)
    /\ key_of rm = (mastrid, year)
    /\ key_of ry = (mastrid, year).
Proof.
  unfold calc_capacity_factor_wind.
  match goal with
  | |- context [compute_monthly_statistics ?d "sum"] =>
      destruct (compute_monthly_statistics_sum_ok d) as [sums ->]
  end.
  cbn [bind].
  match goal with
  | |- context [compute_monthly_statistics ?d "mean"] =>
      destruct (compute_monthly_statistics_mean_ok d) as [means ->]
  end.
  cbn [bind].
  eexists. eexists. eexists. split.
  - destruct (save_hourly_data env); [reflexivity|].
    rewrite app_nil_r. reflexivity.
  - repeat split.
Qed.

(** The same for the solar reducer. *)
Lemma calc_capacity_factor_appends (env : environ) (pvm_max_power : float64)
    (power : list float64) (um uy uh : list results_dict) (year : Z)
    (mastrid : string) (net_capacity : float64) (curtailment : option float64) :
  exists rh rm ry,
    Solar.calc_capacity_factor env pvm_max_power power um uy uh year mastrid
      net_capacity curtailment
    = Ok (uh ++ (if save_hourly_data env then [rh] else []), um ++ [rm], uy ++ [ry])
    /\ key_of rh = (mastrid, year)
    /\ key_of rm = (mastrid, year)
    /\ key_of ry = (mastrid, year).
Proof.
  unfold Solar.calc_capacity_factor.
  match goal with
  | |- context [compute_monthly_statistics ?d "sum"] =>
      destruct (compute_monthly_statistics_sum_ok d) as [sums ->]
  end.
  cbn [bind].
  match goal with
  | |- context [compute_monthly_statistics ?d "mean"] =>
      destruct (compute_monthly_statistics_mean_ok d) as [means ->]
  end.
  cbn [bind].
  eexists. eexists. eexists. split.
  - destruct (save_hourly_data env); [reflexivity|].
    rewrite app_nil_r. reflexivity.
  - repeat split.
Qed.

End Reducers.

Lemma placeholder_history_step (env : environ) (table_id mastrid : string)
    (year : Z) (st : loop_state) :
  history_step env table_id mastrid year st
    (append_placeholders env mastrid year st).
Proof.
  unfold history_step, history, append_placeholders. cbn.
  eexists. eexists. eexists.
  split; [|split; [|split; [|split; [|split; [|split]]]]].
  - destruct (save_hourly_data env).
    + rewrite app_assoc. reflexivity.
    + rewrite app_nil_r. reflexivity.
  - rewrite app_assoc. reflexivity.
  - rewrite app_assoc. reflexivity.
  - reflexivity.
  - reflexivity.
  - reflexivity.
  - exists []. rewrite app_nil_r. split; constructor.
Qed.

Lemma save_and_commit_flush_spec (conflict_action table_id : string)
    (size : option Z) :
  upsert_policy conflict_action ->
  table_id = "wind" \/ table_id = "solar" ->
  flush_spec table_id size
    (fun key s updates =>
       save_and_commit s updates conflict_action key size table_id).
Proof.
  intros Hpol Htech s key table updates Hkey.
  apply (save_and_commit_spec conflict_action Hpol table_id Htech); assumption.
Qed.

(** A flush that is skipped for an empty buffer guarantees the same. *)
Lemma guarded_flush_spec (table_id : string) (size : option Z)
    (flush : string -> session -> list results_dict
             -> result (session * list results_dict)) :
  flush_spec table_id size flush ->
  flush_spec table_id size
    (fun key s updates =>
       match updates with
       | [] => Ok (s, updates)
       | _ => flush key s updates
       end).
Proof.
  intros Hflush s key table updates Hkey.
  destruct updates as [|r updates]; [|apply Hflush; exact Hkey].
  exists s, []. split; [reflexivity|]. split; [reflexivity|]. split; [reflexivity|].
  split.
  - exists []. rewrite app_nil_r. repeat constructor.
  - destruct size as [b|]; [intros Hb; cbn; lia | reflexivity].
Qed.

(** Three flushes in a row, as both loops perform them after a computed
    unit ([batch_size] given) and at the end of the year ([None]). *)
Lemma three_flushes (table_id : string) (size : option Z)
    (flush : string -> session -> list results_dict
             -> result (session * list results_dict))
    (s : session) (uh um uy : list results_dict) :
  flush_spec table_id size flush ->
  table_id = "wind" \/ table_id = "solar" ->
  exists s1 uh' s2 um' s3 uy',
    flush "updates_hourly" s uh = Ok (s1, uh')
    /\ flush "updates_monthly" s1 um = Ok (s2, um')
    /\ flush "updates_yearly" s2 uy = Ok (s3, uy')
    /\ sent ("results_" ++ table_id ++ "_hourly") s3 ++ uh'
       = sent ("results_" ++ table_id ++ "_hourly") s ++ uh
    /\ sent ("results_" ++ table_id ++ "_monthly") s3 ++ um'
       = sent ("results_" ++ table_id ++ "_monthly") s ++ um
    /\ sent ("results_" ++ table_id ++ "_yearly") s3 ++ uy'
       = sent ("results_" ++ table_id ++ "_yearly") s ++ uy
    /\ (exists new, executed s3 = executed s ++ new /\ Forall keyed_upsert new)
    /\ match size with
       | Some b =>
           (1 <= b)%Z ->
           (Z.of_nat (length uh') < b)%Z /\ (Z.of_nat (length um') < b)%Z
           /\ (Z.of_nat (length uy') < b)%Z
       | None => uh' = [] /\ um' = [] /\ uy' = []
       end.
Proof.
  intros Hflush Htech.
  destruct (Hflush s "updates_hourly" _ uh (hourly_table table_id))
    as (s1 & uh' & E1 & K1 & O1 & (n1 & X1 & U1 & _) & B1).
  destruct (Hflush s1 "updates_monthly" _ um (monthly_table table_id))
    as (s2 & um' & E2 & K2 & O2 & (n2 & X2 & U2 & _) & B2).
  destruct (Hflush s2 "updates_yearly" _ uy (yearly_table table_id))
    as (s3 & uy' & E3 & K3 & O3 & (n3 & X3 & U3 & _) & B3).
  exists s1, uh', s2, um', s3, uy'.
  split; [exact E1|]. split; [exact E2|]. split; [exact E3|].
  assert (Hd : forall a b : string,
             a <> b ->
             String.eqb ("results_" ++ table_id ++ a)%string
                        ("results_" ++ table_id ++ b)%string = false).
  { intros a b Hab. apply String.eqb_neq. intros Heq. apply Hab.
    destruct Htech as [-> | ->]; cbn in Heq; injection Heq; trivial. }
  split; [|split; [|split; [|split]]].
  - rewrite (O3 _ (Hd "_yearly" "_hourly" ltac:(discriminate))).
    rewrite (O2 _ (Hd "_monthly" "_hourly" ltac:(discriminate))). exact K1.
  - rewrite (O3 _ (Hd "_yearly" "_monthly" ltac:(discriminate))).
    rewrite <- (O1 _ (Hd "_hourly" "_monthly" ltac:(discriminate))). exact K2.
  - rewrite <- (O1 _ (Hd "_hourly" "_yearly" ltac:(discriminate))).
    rewrite <- (O2 _ (Hd "_monthly" "_yearly" ltac:(discriminate))). exact K3.
  - exists (n1 ++ n2 ++ n3). split.
    + rewrite X3, X2, X1, <- !app_assoc. reflexivity.
    + apply Forall_app. split; [exact U1|]. apply Forall_app. split; assumption.
  - destruct size as [b|].
    + intros Hb. auto.
    + auto.
Qed.

Section WindLoop.

Variable env : environ.
Variable df : power_curve_df.
Variable nearest : option Q -> option Q -> option (Q * Q).
Variable v_hh_norm : Z -> Q -> Q -> float64 -> list float64.
Variable conflict_action : string.
Variable batch_size : Z.
Variable curtailment : option float64.
Hypothesis Hpolicy : upsert_policy conflict_action.

Let process_unit :=
  CalculateCfWind.process_unit env df nearest v_hh_norm conflict_action
    batch_size curtailment.
Let unit_loop :=
  CalculateCfWind.unit_loop env df nearest v_hh_norm conflict_action
    batch_size curtailment.

(** A unit that reaches the power model: its three records are appended,
    and each buffer is then flushed if it holds [batch_size] records or
    more, so that fewer than [batch_size] records are left in each. *)
Lemma wind_computed_unit (year : Z) (st st' : loop_state)
    (unit : CalculateCfWind.wind_unit) (place : Q * Q) :
  resolve_coordinates nearest
    (CalculateCfWind.era5_ags_lat unit) (CalculateCfWind.era5_ags_lon unit)
    (CalculateCfWind.Breitengrad unit) (CalculateCfWind.Laengengrad unit)
  = Ok (Some place) ->
  process_unit year st unit = Ok st' ->
  history_step env "wind" (CalculateCfWind.mastr_nummer unit) year st st'
  /\ power_model_calls st'
     = power_model_calls st ++ [CalculateCfWind.mastr_nummer unit]
  /\ ((1 <= batch_size)%Z -> below batch_size st').
Proof.
  intros Hplace. unfold process_unit, CalculateCfWind.process_unit.
  rewrite Hplace. cbn [bind]. destruct place as [lat lon].
  destruct (calculate_power _ _ _) as [[power max_power]|e]; [|discriminate].
  cbn [bind].
  destruct (calc_capacity_factor_wind_appends env (as_array power) max_power
              (updates_monthly st) (updates_yearly st) (updates_hourly st) year
              (CalculateCfWind.mastr_nummer unit)
              (CalculateCfWind.Nettonennleistung unit) curtailment)
    as (rh & rm & ry & -> & Kh & Km & Ky).
  cbn [bind].
  destruct (three_flushes "wind" (Some batch_size)
              (fun key s updates =>
                 save_and_commit s updates conflict_action key
                   (Some batch_size) "wind")
              (db st)
              (updates_hourly st ++ (if save_hourly_data env then [rh] else []))
              (updates_monthly st ++ [rm]) (updates_yearly st ++ [ry])
              (save_and_commit_flush_spec _ _ _ Hpolicy (or_introl eq_refl))
              (or_introl eq_refl))
    as (s1 & uh' & s2 & um' & s3 & uy' & E1 & E2 & E3 & Hh & Hm & Hy & Hnew & Hb).
  rewrite E1. cbn [bind]. rewrite E2. cbn [bind]. rewrite E3. cbn [bind].
  intros [= <-]. split; [|split].
  - exists rh, rm, ry. unfold history. cbn [db updates_hourly updates_monthly updates_yearly].
    rewrite Hh, Hm, Hy, !app_assoc. repeat split; assumption.
  - reflexivity.
  - intros H1. exact (Hb H1).
Qed.

(** Every iteration that ends normally is a [history_step]. *)
Lemma wind_unit_history (year : Z) (st st' : loop_state)
    (unit : CalculateCfWind.wind_unit) :
  process_unit year st unit = Ok st' ->
  history_step env "wind" (CalculateCfWind.mastr_nummer unit) year st st'.
Proof.
  intros Hrun.
  destruct (resolve_coordinates nearest
              (CalculateCfWind.era5_ags_lat unit) (CalculateCfWind.era5_ags_lon unit)
              (CalculateCfWind.Breitengrad unit) (CalculateCfWind.Laengengrad unit))
    as [[place|]|e] eqn:Hplace.
  - apply (wind_computed_unit year st st' unit place Hplace Hrun).
  - unfold process_unit, CalculateCfWind.process_unit in Hrun.
    rewrite Hplace in Hrun. cbn [bind] in Hrun. injection Hrun as <-.
    apply placeholder_history_step.
  - unfold process_unit, CalculateCfWind.process_unit in Hrun.
    rewrite Hplace in Hrun. discriminate.
Qed.

End WindLoop.

Lemma history_run_nil (env : environ) (table_id : string) (year : Z)
    (st : loop_state) :
  history_run env table_id [] year st st.
Proof.
  exists [], [], []. rewrite !app_nil_r.
  repeat split; try reflexivity.
  - destruct (save_hourly_data env); reflexivity.
  - exists []. rewrite app_nil_r. split; constructor.
Qed.

Lemma history_run_cons (env : environ) (table_id id : string)
    (ids : list string) (year : Z) (st st1 st2 : loop_state) :
  history_step env table_id id year st st1 ->
  history_run env table_id ids year st1 st2 ->
  history_run env table_id (id :: ids) year st st2.
Proof.
  intros (rh & rm & ry & Hh & Hm & Hy & Kh & Km & Ky & n1 & X1 & U1)
         (rhs & rms & rys & Hhs & Hms & Hys & Khs & Kms & Kys & n2 & X2 & U2).
  exists ((if save_hourly_data env then [rh] else []) ++ rhs), (rm :: rms), (ry :: rys).
  split; [|split; [|split; [|split; [|split; [|split]]]]].
  - rewrite Hhs, Hh, <- !app_assoc. reflexivity.
  - rewrite Hms, Hm, <- !app_assoc. reflexivity.
  - rewrite Hys, Hy, <- !app_assoc. reflexivity.
  - rewrite map_app, Khs. destruct (save_hourly_data env); cbn; [|reflexivity].
    rewrite Kh. reflexivity.
  - cbn. rewrite Km, Kms. reflexivity.
  - cbn. rewrite Ky, Kys. reflexivity.
  - exists (n1 ++ n2). split.
    + rewrite X2, X1, <- app_assoc. reflexivity.
    + apply Forall_app. split; assumption.
Qed.

(** A flush of the three buffers with [batch_size=None], each skipped when
    its buffer is empty: the buffers end empty and the histories are kept. *)
Lemma final_flush (table_id : string)
    (flush : string -> session -> list results_dict
             -> result (session * list results_dict))
    (env : environ) (year : Z) (st : loop_state) :
  flush_spec table_id None flush ->
  table_id = "wind" \/ table_id = "solar" ->
  exists s1 uh s2 um s3 uy,
    flush "updates_hourly" (db st) (updates_hourly st) = Ok (s1, uh)
    /\ flush "updates_monthly" s1 (updates_monthly st) = Ok (s2, um)
    /\ flush "updates_yearly" s2 (updates_yearly st) = Ok (s3, uy)
    /\ let st' := {| updates_hourly := uh; updates_monthly := um;
                     updates_yearly := uy; db := s3;
                     power_model_calls := power_model_calls st |} in
       all_empty st' /\ history_run env table_id [] year st st'.
Proof.
  intros Hflush Htech.
  destruct (three_flushes table_id None flush (db st) (updates_hourly st)
              (updates_monthly st) (updates_yearly st) Hflush Htech)
    as (s1 & uh & s2 & um & s3 & uy & E1 & E2 & E3 & Hh & Hm & Hy & Hnew
        & -> & -> & ->).
  exists s1, [], s2, [], s3, []. repeat split; try assumption.
  exists [], [], []. unfold history. cbn [db updates_hourly updates_monthly updates_yearly].
  rewrite Hh, Hm, Hy, !app_nil_r. repeat split; try reflexivity.
  - destruct (save_hourly_data env); reflexivity.
  - exact Hnew.
Qed.

Lemma history_run_app (env : environ) (table_id : string) (ids : list string)
    (year : Z) (st st1 st2 : loop_state) :
  history_run env table_id ids year st st1 ->
  history_run env table_id [] year st1 st2 ->
  history_run env table_id ids year st st2.
Proof.
  intros (rhs & rms & rys & Hhs & Hms & Hys & Khs & Kms & Kys & n1 & X1 & U1)
         (rh0 & rm0 & ry0 & Hh & Hm & Hy & Kh & Km & Ky & n2 & X2 & U2).
  assert (rm0 = []) as -> by (destruct rm0; [reflexivity|discriminate]).
  assert (ry0 = []) as -> by (destruct ry0; [reflexivity|discriminate]).
  assert (rh0 = []) as ->.
  { destruct rh0; [reflexivity|]. destruct (save_hourly_data env); discriminate. }
  rewrite app_nil_r in Hh, Hm, Hy.
  exists rhs, rms, rys. rewrite Hh, Hm, Hy.
  repeat split; try assumption.
  exists (n1 ++ n2). split.
  - rewrite X2, X1, <- app_assoc. reflexivity.
  - apply Forall_app. split; assumption.
Qed.

Section WindYear.

Variable env : environ.
Variable df : power_curve_df.
Variable nearest : option Q -> option Q -> option (Q * Q).
Variable v_hh_norm : Z -> Q -> Q -> float64 -> list float64.
Variable conflict_action : string.
Variable batch_size : Z.
Variable curtailment : option float64.
Hypothesis Hpolicy : upsert_policy conflict_action.

Lemma wind_unit_loop_history (year : Z) (units : list CalculateCfWind.wind_unit) :
  forall st st',
    CalculateCfWind.unit_loop env df nearest v_hh_norm conflict_action
      batch_size curtailment year units st = Ok st' ->
    history_run env "wind" (map CalculateCfWind.mastr_nummer units) year st st'.
Proof.
  induction units as [|unit units IH]; intros st st' Hrun.
  - injection Hrun as <-. apply history_run_nil.
  - cbn [CalculateCfWind.unit_loop] in Hrun.
    destruct (CalculateCfWind.process_unit env df nearest v_hh_norm
                conflict_action batch_size curtailment year st unit)
      as [st1|e] eqn:Hstep; [|discriminate].
    cbn [bind] in Hrun. cbn [map].
    apply (history_run_cons env "wind" _ _ year st st1 st').
    + apply (wind_unit_history env df nearest v_hh_norm conflict_action
               batch_size curtailment Hpolicy year st st1 unit Hstep).
    + apply IH. exact Hrun.
Qed.

Lemma wind_last_batch_updates (year : Z) (st : loop_state) :
  exists st',
    CalculateCfWind.last_batch_updates conflict_action st = Ok st'
    /\ all_empty st' /\ history_run env "wind" [] year st st'.
Proof.
  destruct (final_flush "wind"
              (fun key s updates =>
                 match updates with
                 | [] => Ok (s, updates)
                 | _ => save_and_commit s updates conflict_action key None "wind"
                 end)
              env year st
              (guarded_flush_spec "wind" None _
                 (save_and_commit_flush_spec conflict_action "wind" None
                    Hpolicy (or_introl eq_refl)))
              (or_introl eq_refl))
    as (s1 & uh & s2 & um & s3 & uy & E1 & E2 & E3 & Hempty & Hrun).
  eexists. unfold CalculateCfWind.last_batch_updates, CalculateCfWind.flush_if_any.
  rewrite E1. cbn [bind]. rewrite E2. cbn [bind]. rewrite E3. cbn [bind].
  split; [reflexivity|]. split; assumption.
Qed.

Lemma wind_process_unit_total (year : Z) (st : loop_state)
    (unit : CalculateCfWind.wind_unit) :
  wind_computable df nearest v_hh_norm year unit ->
  exists st',
    CalculateCfWind.process_unit env df nearest v_hh_norm conflict_action
      batch_size curtailment year st unit = Ok st'.
Proof.
  intros (place & Hplace & Hpower). unfold CalculateCfWind.process_unit.
  rewrite Hplace. cbn [bind]. destruct place as [[lat lon]|]; [|eexists; reflexivity].
  destruct (Hpower lat lon eq_refl) as [[power max_power] ->]. cbn [bind].
  destruct (calc_capacity_factor_wind_appends env (as_array power) max_power
              (updates_monthly st) (updates_yearly st) (updates_hourly st) year
              (CalculateCfWind.mastr_nummer unit)
              (CalculateCfWind.Nettonennleistung unit) curtailment)
    as (rh & rm & ry & -> & _).
  cbn [bind].
  destruct (three_flushes "wind" (Some batch_size)
              (fun key s updates =>
                 save_and_commit s updates conflict_action key
                   (Some batch_size) "wind")
              (db st)
              (updates_hourly st ++ (if save_hourly_data env then [rh] else []))
              (updates_monthly st ++ [rm]) (updates_yearly st ++ [ry])
              (save_and_commit_flush_spec _ _ _ Hpolicy (or_introl eq_refl))
              (or_introl eq_refl))
    as (s1 & uh' & s2 & um' & s3 & uy' & E1 & E2 & E3 & _).
  rewrite E1. cbn [bind]. rewrite E2. cbn [bind]. rewrite E3. cbn [bind].
  eexists. reflexivity.
Qed.

Lemma wind_unit_loop_total (year : Z) (units : list CalculateCfWind.wind_unit) :
  Forall (wind_computable df nearest v_hh_norm year) units ->
  forall st,
    exists st',
      CalculateCfWind.unit_loop env df nearest v_hh_norm conflict_action
        batch_size curtailment year units st = Ok st'.
Proof.
  induction 1 as [|unit units Hunit _ IH]; intros st.
  - exists st. reflexivity.
  - destruct (wind_process_unit_total year st unit Hunit) as [st1 Hstep].
    destruct (IH st1) as [st' Hrest].
    exists st'. cbn [CalculateCfWind.unit_loop]. rewrite Hstep. exact Hrest.
Qed.

End WindYear.

(** With batch size 1, after a unit without coordinates the monthly and the
    yearly buffer hold one record each when the next unit is processed: the
    placeholder branch ends the iteration before [save_and_commit]. *)
Lemma below_batch_size_at_every_unit_fails :
  ~ below_batch_size_at_every_unit env_empty example_curve nearest_example
      v_hh_norm_example "update" 1 None 2021
      [unit_without_coordinates; unit_at_grid_point] empty_session.
Proof.
  intros H.
  destruct (H [unit_without_coordinates] unit_at_grid_point []
              (append_placeholders env_empty "SEE900000000001" 2021
                 (year_start empty_session [])))
    as (_ & _ & Hy).
  - reflexivity.
  - discriminate.
  - reflexivity.
  - cbn in Hy. lia.
Qed.

Section SolarYear.

Variable env : environ.
Variable pvm_max_power : float64.
Variable nearest : option Q -> option Q -> option (Q * Q).
Variable lat_lon_to_match : Q -> Q -> string.
Variable solar_calculations :
  CalculateCfSolar.solar_unit -> Z -> Q -> Q -> list Q -> list Q -> list float64.
Variable conflict_action : string.
Variable batch_size : Z.
Variable curtailment : option float64.
Variable angles : CalculateCfSolar.solar_angles_dict.
Hypothesis Hpolicy : upsert_policy conflict_action.

Let process_unit :=
  CalculateCfSolar.process_unit env pvm_max_power nearest lat_lon_to_match
    solar_calculations conflict_action batch_size curtailment angles.
Let unit_loop :=
  CalculateCfSolar.unit_loop env pvm_max_power nearest lat_lon_to_match
    solar_calculations conflict_action batch_size curtailment angles.

Lemma solar_update_db (size : option Z) (st : loop_state) :
  exists s1 uh s2 um s3 uy,
    CalculateCfSolar.update_db conflict_action size st
    = Ok {| updates_hourly := uh; updates_monthly := um; updates_yearly := uy;
            db := s3; power_model_calls := power_model_calls st |}
    /\ CalculateCfSolar.update_one conflict_action "updates_hourly" size (db st)
         (updates_hourly st) = Ok (s1, uh)
    /\ CalculateCfSolar.update_one conflict_action "updates_monthly" size s1
         (updates_monthly st) = Ok (s2, um)
    /\ CalculateCfSolar.update_one conflict_action "updates_yearly" size s2
         (updates_yearly st) = Ok (s3, uy)
    /\ sent ("results_" ++ "solar" ++ "_hourly") s3 ++ uh
       = sent ("results_" ++ "solar" ++ "_hourly") (db st) ++ updates_hourly st
    /\ sent ("results_" ++ "solar" ++ "_monthly") s3 ++ um
       = sent ("results_" ++ "solar" ++ "_monthly") (db st) ++ updates_monthly st
    /\ sent ("results_" ++ "solar" ++ "_yearly") s3 ++ uy
       = sent ("results_" ++ "solar" ++ "_yearly") (db st) ++ updates_yearly st
    /\ (exists new, executed s3 = executed (db st) ++ new
                    /\ Forall keyed_upsert new)
    /\ match size with
       | Some b =>
           (1 <= b)%Z ->
           (Z.of_nat (length uh) < b)%Z /\ (Z.of_nat (length um) < b)%Z
           /\ (Z.of_nat (length uy) < b)%Z
       | None => uh = [] /\ um = [] /\ uy = []
       end.
Proof.
  destruct (three_flushes "solar" size
              (fun key s updates =>
                 match updates with
                 | [] => Ok (s, updates)
                 | _ => save_and_commit s updates conflict_action key size "solar"
                 end)
              (db st) (updates_hourly st) (updates_monthly st) (updates_yearly st)
              (guarded_flush_spec "solar" size _
                 (save_and_commit_flush_spec conflict_action "solar" size
                    Hpolicy (or_intror eq_refl)))
              (or_intror eq_refl))
    as (s1 & uh & s2 & um & s3 & uy & E1 & E2 & E3 & Hh & Hm & Hy & Hnew & Hb).
  exists s1, uh, s2, um, s3, uy.
  unfold CalculateCfSolar.update_db, CalculateCfSolar.update_one.
  rewrite E1. cbn [bind]. rewrite E2. cbn [bind]. rewrite E3. cbn [bind].
  repeat split; assumption.
Qed.

(** A solar unit that reaches the power model: its records are appended and
    [update_db(batch_size)] leaves fewer than [batch_size] records in each
    buffer. *)
Lemma solar_computed_unit (year : Z) (st st' : loop_state)
    (unit : CalculateCfSolar.solar_unit) (place : Q * Q) :
  resolve_coordinates nearest
    (CalculateCfSolar.era5_ags_lat unit) (CalculateCfSolar.era5_ags_lon unit)
    (CalculateCfSolar.Breitengrad unit) (CalculateCfSolar.Laengengrad unit)
  = Ok (Some place) ->
  process_unit year st unit = Ok st' ->
  history_step env "solar" (CalculateCfSolar.mastr_nummer unit) year st st'
  /\ power_model_calls st'
     = power_model_calls st ++ [CalculateCfSolar.mastr_nummer unit]
  /\ ((1 <= batch_size)%Z -> below batch_size st').
Proof.
  intros Hplace. unfold process_unit, CalculateCfSolar.process_unit.
  rewrite Hplace. cbn [bind]. destruct place as [lat lon].
  destruct (CalculateCfSolar.get angles (lat_lon_to_match lat lon))
    as [series|]; [|discriminate].
  destruct (calc_capacity_factor_appends env pvm_max_power
              (solar_calculations unit year lat lon
                 (CalculateCfSolar.solar_zenith series)
                 (CalculateCfSolar.solar_azimuth series))
              (updates_monthly st) (updates_yearly st) (updates_hourly st) year
              (CalculateCfSolar.mastr_nummer unit)
              (CalculateCfSolar.Nettonennleistung unit) curtailment)
    as (rh & rm & ry & -> & Kh & Km & Ky).
  cbn [bind].
  match goal with
  | |- CalculateCfSolar.update_db _ _ ?st1 = _ -> _ =>
      destruct (solar_update_db (Some batch_size) st1)
        as (s1 & uh & s2 & um & s3 & uy & -> & _ & _ & _ & Hh & Hm & Hy & Hnew & Hb)
  end.
  cbn [db updates_hourly updates_monthly updates_yearly power_model_calls]
    in Hh, Hm, Hy, Hnew |- *.
  intros [= <-]. split; [|split].
  - exists rh, rm, ry. unfold history.
    cbn [db updates_hourly updates_monthly updates_yearly].
    rewrite Hh, Hm, Hy, !app_assoc. repeat split; assumption.
  - reflexivity.
  - intros H1. exact (Hb H1).
Qed.

Lemma solar_unit_history (year : Z) (st st' : loop_state)
    (unit : CalculateCfSolar.solar_unit) :
  process_unit year st unit = Ok st' ->
  history_step env "solar" (CalculateCfSolar.mastr_nummer unit) year st st'.
Proof.
  intros Hrun.
  destruct (resolve_coordinates nearest
              (CalculateCfSolar.era5_ags_lat unit) (CalculateCfSolar.era5_ags_lon unit)
              (CalculateCfSolar.Breitengrad unit) (CalculateCfSolar.Laengengrad unit))
    as [[place|]|e] eqn:Hplace.
  - apply (solar_computed_unit year st st' unit place Hplace Hrun).
  - unfold process_unit, CalculateCfSolar.process_unit in Hrun.
    rewrite Hplace in Hrun. cbn [bind] in Hrun. injection Hrun as <-.
    apply placeholder_history_step.
  - unfold process_unit, CalculateCfSolar.process_unit in Hrun.
    rewrite Hplace in Hrun. discriminate.
Qed.

Lemma solar_unit_loop_history (year : Z)
    (units : list CalculateCfSolar.solar_unit) :
  forall st st',
    unit_loop year units st = Ok st' ->
    history_run env "solar" (map CalculateCfSolar.mastr_nummer units) year st st'.
Proof.
  induction units as [|unit units IH]; intros st st' Hrun.
  - injection Hrun as <-. apply history_run_nil.
  - unfold unit_loop in Hrun. cbn [CalculateCfSolar.unit_loop] in Hrun.
    fold unit_loop in Hrun. fold (process_unit year st unit) in Hrun.
    destruct (process_unit year st unit) as [st1|e] eqn:Hstep; [|discriminate].
    cbn [bind] in Hrun. cbn [map].
    apply (history_run_cons env "solar" _ _ year st st1 st').
    + apply (solar_unit_history year st st1 unit Hstep).
    + apply IH. exact Hrun.
Qed.

Lemma solar_last_update_db (year : Z) (st : loop_state) :
  exists st',
    CalculateCfSolar.update_db conflict_action None st = Ok st'
    /\ all_empty st' /\ history_run env "solar" [] year st st'.
Proof.
  destruct (solar_update_db None st)
    as (s1 & uh & s2 & um & s3 & uy & Hrun & _ & _ & _ & Hh & Hm & Hy & Hnew
        & -> & -> & ->).
  eexists. split; [exact Hrun|]. split; [repeat split|].
  exists [], [], []. unfold history.
  cbn [db updates_hourly updates_monthly updates_yearly].
  rewrite !app_nil_r in Hh, Hm, Hy. rewrite Hh, Hm, Hy, !app_nil_r.
  repeat split; try reflexivity.
  - destruct (save_hourly_data env); reflexivity.
  - exact Hnew.
Qed.

End SolarYear.

Lemma all_sent_of_history (env : environ) (table_id : string)
    (ids : list string) (year : Z) (s : session) (calls : list string)
    (st1 st2 : loop_state) :
  history_run env table_id ids year (year_start s calls) st1 ->
  all_empty st2 ->
  history_run env table_id [] year st1 st2 ->
  all_sent env table_id ids year s st2.
Proof.
  intros Hhist Hempty Hkeep. split; [exact Hempty|].
  destruct (history_run_app env table_id _ year _ _ _ Hhist Hkeep)
    as (rhs & rms & rys & Hh & Hm & Hy & Kh & Km & Ky & new & Hx & Hu).
  destruct Hempty as (Eh & Em & Ey).
  unfold history in Hh, Hm, Hy. rewrite Eh in Hh. rewrite Em in Hm. rewrite Ey in Hy.
  cbn in Hh, Hm, Hy. rewrite !app_nil_r in Hh, Hm, Hy.
  exists rhs, rms, rys, new. repeat split; assumption.
Qed.

(** C9 (as the code has it).  In a year of the wind loop, and likewise of
    the solar loop, with batch size [b >= 1] and one of the two upsert
    policies:
    - after every unit that goes through the power model each buffer has
      been handed to [save_and_commit], which flushes and empties it when it
      holds [b] records or more, so fewer than [b] records are left in each;
    - when the year ends normally, everything has been sent ([all_sent]):
      the buffers are empty and each table has received one record per
      unit, keyed by the unit and the year, through keyed upserts;
    - the wind year does end normally when every unit is computable. *)
Theorem year_flushes_every_record
    (env : environ) (conflict_action : string) (b : Z)
    (curtailment : option float64)
    (nearest : option Q -> option Q -> option (Q * Q)) :
  upsert_policy conflict_action ->
  (1 <= b)%Z ->
  (forall df v_hh_norm,
      (forall year st st' unit place,
          resolve_coordinates nearest
            (CalculateCfWind.era5_ags_lat unit) (CalculateCfWind.era5_ags_lon unit)
            (CalculateCfWind.Breitengrad unit) (CalculateCfWind.Laengengrad unit)
          = Ok (Some place) ->
          CalculateCfWind.process_unit env df nearest v_hh_norm conflict_action b
            curtailment year st unit = Ok st' ->
          below b st')
      /\ (forall units s calls year st',
            CalculateCfWind.run_year env df nearest v_hh_norm conflict_action b
              curtailment units s calls year = Ok st' ->
            all_sent env "wind" (map CalculateCfWind.mastr_nummer units)
              year s st')
      /\ (forall units s calls year,
            Forall (wind_computable df nearest v_hh_norm year) units ->
            exists st',
              CalculateCfWind.run_year env df nearest v_hh_norm conflict_action b
                curtailment units s calls year = Ok st'))
  /\ (forall pvm key calc angles,
        (forall year st st' unit place,
            resolve_coordinates nearest
              (CalculateCfSolar.era5_ags_lat unit)
              (CalculateCfSolar.era5_ags_lon unit)
              (CalculateCfSolar.Breitengrad unit)
              (CalculateCfSolar.Laengengrad unit)
            = Ok (Some place) ->
            CalculateCfSolar.process_unit env pvm nearest key calc
              conflict_action b curtailment angles year st unit = Ok st' ->
            below b st')
        /\ (forall units s calls year st',
              CalculateCfSolar.run_year env pvm nearest key calc conflict_action
                b curtailment angles units s calls year = Ok st' ->
              all_sent env "solar" (map CalculateCfSolar.mastr_nummer units)
                year s st')).
Proof.
  intros Hpolicy Hb. split.
  - intros df v_hh_norm. split; [|split].
    + intros year st st' unit place Hplace Hstep.
      apply (wind_computed_unit env df nearest v_hh_norm conflict_action b
               curtailment Hpolicy year st st' unit place Hplace Hstep).
      exact Hb.
    + intros units s calls year st' Hrun.
      unfold CalculateCfWind.run_year in Hrun.
      destruct (CalculateCfWind.unit_loop env df nearest v_hh_norm conflict_action
                  b curtailment year units _) as [st1|e] eqn:Hloop; [|discriminate].
      cbn [bind] in Hrun.
      destruct (wind_last_batch_updates env conflict_action Hpolicy year st1)
        as (st2 & Hlast & Hempty & Hkeep).
      rewrite Hlast in Hrun. injection Hrun as <-.
      apply (all_sent_of_history env "wind" _ year s calls st1 st2);
        try assumption.
      apply (wind_unit_loop_history env df nearest v_hh_norm conflict_action
               b curtailment Hpolicy year units _ _ Hloop).
    + intros units s calls year Hunits.
      destruct (wind_unit_loop_total env df nearest v_hh_norm conflict_action b
                  curtailment Hpolicy year units Hunits (year_start s calls))
        as [st1 Hloop].
      destruct (wind_last_batch_updates env conflict_action Hpolicy year st1)
        as (st2 & Hlast & _).
      exists st2. unfold CalculateCfWind.run_year.
      unfold year_start in Hloop. rewrite Hloop. exact Hlast.
  - intros pvm key calc angles. split.
    + intros year st st' unit place Hplace Hstep.
      apply (solar_computed_unit env pvm nearest key calc conflict_action b
               curtailment angles Hpolicy year st st' unit place Hplace Hstep).
      exact Hb.
    + intros units s calls year st' Hrun.
      unfold CalculateCfSolar.run_year in Hrun.
      destruct (CalculateCfSolar.unit_loop env pvm nearest key calc
                  conflict_action b curtailment angles year units _)
        as [st1|e] eqn:Hloop; [|discriminate].
      cbn [bind] in Hrun.
      destruct (solar_last_update_db env conflict_action Hpolicy year st1)
        as (st2 & Hlast & Hempty & Hkeep).
      rewrite Hlast in Hrun. injection Hrun as <-.
      apply (all_sent_of_history env "solar" _ year s calls st1 st2);
        try assumption.
      apply (solar_unit_loop_history env pvm nearest key calc conflict_action
               b curtailment angles Hpolicy year units _ _ Hloop).
Qed.

(** C9, for the year 2021 of a unit without coordinates followed by a unit
    at a grid point, with batch size 1. *)
Lemma year_flushes_every_record_witness :
  exists st',
    CalculateCfWind.run_year env_empty example_curve nearest_example
      v_hh_norm_example "update" 1 None
      [unit_without_coordinates; unit_at_grid_point] empty_session [] 2021
    = Ok st'
    /\ all_sent env_empty "wind" ["SEE900000000001"; "SEE900000000002"] 2021
         empty_session st'.
Proof.
  eexists. split.
  - vm_compute. reflexivity.
  - refine (proj1 (proj2 (proj1
      (year_flushes_every_record env_empty "update" 1 None nearest_example _ _)
      example_curve v_hh_norm_example))
      [unit_without_coordinates; unit_at_grid_point] empty_session [] 2021%Z _ _).
    + right. reflexivity.
    + lia.
    + vm_compute. reflexivity.
Defined.

Lemma missing_coordinates_give_placeholder_witness :
  exists st',
    CalculateCfWind.process_unit env_empty example_curve nearest_example
      v_hh_norm_example "update" 1 None 2021 (year_start empty_session [])
      unit_without_coordinates = Ok st'
    /\ placeholder_step env_empty "SEE900000000001" 2021
         (year_start empty_session []) st'.
Proof.
  destruct (proj1 missing_coordinates_give_placeholder env_empty example_curve
              nearest_example v_hh_norm_example "update" 1%Z None 2021%Z
              (year_start empty_session []) unit_without_coordinates []
              ((105 # 2)%Q, (53 # 4)%Q))
    as (st' & Hstep & Hplace & _).
  - left. reflexivity.
  - left. reflexivity.
  - reflexivity.
  - exists st'. split; assumption.
Defined.

(* ================================================================== *)
(** * The aggregation                                                  *)
(* ================================================================== *)

Section Grouping.

Import Aggregator.

Context {K R : Type}.
Variable eqb : K -> K -> bool.
Hypothesis eqb_eq : forall a b, eqb a b = true <-> a = b.
Variable key : R -> K.

Lemma in_distinct (ks : list K) (k : K) :
  In k (distinct eqb ks) <-> In k ks.
Proof.
  induction ks as [|k0 ks IH]; cbn; [tauto|].
  rewrite filter_In, IH. split.
  - intros [H | [H _]]; auto.
  - intros [H | H]; [auto|].
    destruct (eqb k0 k) eqn:E.
    + left. apply eqb_eq. exact E.
    + right. split; [exact H | reflexivity].
Qed.

(** A row is a member of the group of a key exactly when it is a row of the
    table and carries that key. *)
Lemma in_group (rows : list R) (k : K) (row : R) :
  (exists members, In (k, members) (group_by eqb key rows) /\ In row members)
  <-> In row rows /\ key row = k.
Proof.
  unfold group_by. split.
  - intros (members & Hg & Hm).
    apply in_map_iff in Hg. destruct Hg as (k' & [= -> <-] & _).
    apply filter_In in Hm. destruct Hm as [Hin Hk].
    split; [exact Hin|]. symmetry. apply eqb_eq. exact Hk.
  - intros [Hin <-].
    exists (filter (fun r => eqb (key row) (key r)) rows). split.
    + apply in_map_iff. exists (key row). split; [reflexivity|].
      apply in_distinct. apply in_map. exact Hin.
    + apply filter_In. split; [exact Hin|]. apply eqb_eq. reflexivity.
Qed.

End Grouping.

Section Cohorts.

Import Aggregator.

Lemma in_left_join_some (on : unit_row -> results_yearly -> bool)
    (units : list unit_row) (results : list results_yearly)
    (u : unit_row) (r : results_yearly) :
  In (u, Some r) (left_join on units results)
  <-> In u units /\ In r results /\ on u r = true.
Proof.
  unfold left_join. rewrite in_flat_map. split.
  - intros (u0 & Hu0 & Hin).
    destruct (filter (on u0) results) as [|r0 rs] eqn:Hf.
    + destruct Hin as [[=]|[]].
    + rewrite <- Hf in Hin. apply in_map_iff in Hin.
      destruct Hin as (r' & [= -> ->] & Hr').
      apply filter_In in Hr'. tauto.
  - intros (Hu & Hr & Hon). exists u. split; [exact Hu|].
    assert (Hin : In r (filter (on u) results)) by (apply filter_In; tauto).
    destruct (filter (on u) results) as [|r0 rs] eqn:Hf; [destruct Hin|].
    rewrite <- Hf. apply in_map_iff. exists r. split; [reflexivity|].
    rewrite Hf. exact Hin.
Qed.

Lemma in_act_join (units : list unit_row) (results : list results_yearly)
    (u : unit_row) (r : results_yearly) :
  In u units -> In r results -> same_unit u r = true ->
  (In (u, Some r) (act_join units results)
   <-> res_year r = Inbetriebnahmejahr u).
Proof.
  intros Hu Hr Hsame. unfold act_join. rewrite in_left_join_some.
  unfold act_on. rewrite Hsame, andb_true_r, Z.eqb_eq. intuition.
Qed.

Lemma in_run_join (units : list unit_row) (results : list results_yearly)
    (u : unit_row) (r : results_yearly) :
  In u units -> In r results -> same_unit u r = true ->
  (In (u, Some r) (run_join units results)
   <-> (Inbetriebnahmejahr u <= res_year r /\ res_year r < Stilllegung_jahr u)%Z).
Proof.
  intros Hu Hr Hsame. unfold run_join. rewrite filter_In, in_left_join_some.
  unfold run_on. rewrite Hsame, andb_true_r, andb_true_iff, Z.leb_le, Z.ltb_lt.
  cbn. intuition.
Qed.

Lemma cohort_key_eqb_eq (a b : string * option Z) :
  cohort_key_eqb a b = true <-> a = b.
Proof.
  destruct a as [ga ya], b as [gb yb]. unfold cohort_key_eqb. cbn.
  rewrite andb_true_iff, String.eqb_eq. split.
  - intros [-> Hy]. f_equal.
    destruct ya, yb; cbn in Hy; try discriminate; [|reflexivity].
    apply Z.eqb_eq in Hy. subst. reflexivity.
  - intros [= -> ->]. split; [reflexivity|].
    destruct yb; cbn; [apply Z.eqb_refl | reflexivity].
Qed.

End Cohorts.

(** C5.  Take a unit row [u] of the unit table (commissioning year
    [Inbetriebnahmejahr u], decommissioning year [Stilllegung_jahr u]) and a
    yearly result [r] of the same unit, for the year [y].  At every
    geographic level:
    - [r] enters the as-commissioned group of the unit's geography and the
      year [y] exactly when [y] is the commissioning year;
    - [r] enters the as-running group of the unit's geography and the year
      [y] exactly when the commissioning year is at most [y] and [y] is
      strictly below the decommissioning year;
    - in the unit table the decommissioning year is 9999 for a unit without
      a decommissioning date. *)
Theorem cohort_membership
    (l : Aggregator.agg_lvl) (units : list Aggregator.unit_row)
    (results : list Aggregator.results_yearly)
    (u : Aggregator.unit_row) (r : Aggregator.results_yearly) (y : Z) :
  In u units -> In r results ->
  Aggregator.same_unit u r = true ->
  Aggregator.res_year r = y ->
  ((exists members,
       In ((Aggregator.lvl l u, Some y), members)
          (Aggregator.act_groups l units results)
       /\ In (u, Some r) members)
   <-> y = Aggregator.Inbetriebnahmejahr u)
  /\ ((exists members,
          In ((Aggregator.lvl l u, Some y), members)
             (Aggregator.run_groups l units results)
          /\ In (u, Some r) members)
      <-> (Aggregator.Inbetriebnahmejahr u <= y
           /\ y < Aggregator.Stilllegung_jahr u)%Z)
  /\ (forall clcs exts res,
        Forall (fun row =>
                  Aggregator.Stilllegung_datum row = None ->
                  Aggregator.Stilllegung_jahr row = 9999%Z)
               (Aggregator.unit_rows clcs exts res)).
Proof.
  intros Hu Hr Hsame Hy. split; [|split].
  - unfold Aggregator.act_groups.
    rewrite (in_group Aggregator.cohort_key_eqb cohort_key_eqb_eq
               (Aggregator.act_key l)).
    rewrite (in_act_join units results u r Hu Hr Hsame).
    unfold Aggregator.act_key. cbn. rewrite Hy. split.
    + intros [H _]. exact H.
    + intros H. split; [exact H|]. rewrite H. reflexivity.
  - unfold Aggregator.run_groups.
    rewrite (in_group Aggregator.cohort_key_eqb cohort_key_eqb_eq
               (Aggregator.run_key l)).
    rewrite (in_run_join units results u r Hu Hr Hsame).
    unfold Aggregator.run_key, Aggregator.j_year. cbn. rewrite Hy. split.
    + intros [H _]. exact H.
    + intros H. split; [exact H | reflexivity].
  - intros clcs exts res. unfold Aggregator.unit_rows.
    apply Forall_map. apply Forall_forall. intros clc _. cbn.
    intros ->. reflexivity.
Qed.

Lemma cohort_membership_witness :
  (exists members,
      In (("MISSING", Some 2020%Z), members)
         (Aggregator.run_groups Aggregator.Bl example_units example_results)
      /\ In (example_unit, Some (example_result 2020 (1 # 4) 4392000)) members)
  /\ ~ (exists members,
          In (("MISSING", Some 2020%Z), members)
             (Aggregator.act_groups Aggregator.Bl example_units example_results)
          /\ In (example_unit, Some (example_result 2020 (1 # 4) 4392000)) members).
Proof.
  assert (Hu : In example_unit example_units) by (left; reflexivity).
  assert (Hr : In (example_result 2020 (1 # 4) 4392000) example_results)
    by (right; left; reflexivity).
  destruct (cohort_membership Aggregator.Bl example_units example_results
              example_unit (example_result 2020 (1 # 4) 4392000) 2020%Z
              Hu Hr eq_refl eq_refl) as (Hact & Hrun & _).
  split.
  - apply Hrun. cbn. lia.
  - intros H. apply Hact in H. cbn in H. discriminate.
Defined.

Section WeightedMean.

Import Aggregator.

Lemma is_positive_zero_sum (w : option Q) :
  zero_sum w -> is_positive w = false.
Proof.
  intros (q & -> & Hq). unfold is_positive.
  destruct (Qlt_le_dec 0 q) as [Hlt|_]; [|reflexivity].
  rewrite Hq in Hlt. exfalso. apply (Qlt_irrefl 0 Hlt).
Qed.

Lemma power_weighted_zero_sum (xs ws : list (option Q)) :
  zero_sum (sql_sum ws) -> power_weighted xs ws = None.
Proof.
  intros H. unfold power_weighted. rewrite (is_positive_zero_sum _ H). reflexivity.
Qed.

(** [avg] is the mean of the inputs that are not NULL, and NULL when there
    is none. *)
Lemma sql_avg_spec (xs : list (option Q)) :
  (non_null xs = [] -> sql_avg xs = None)
  /\ (forall v vs,
        non_null xs = v :: vs ->
        sql_avg xs
        = Some (qsum (v :: vs) / inject_Z (Z.of_nat (length (v :: vs))))%Q).
Proof.
  unfold sql_avg. split.
  - intros ->. reflexivity.
  - intros v vs ->. reflexivity.
Qed.

Lemma geo_key_eqb_refl (k : string * list (option Q)) : geo_key_eqb k k = true.
Proof.
  destruct k as [g cols]. unfold geo_key_eqb. cbn.
  rewrite String.eqb_refl. cbn.
  induction cols as [|c cols IH]; [reflexivity|].
  cbn. rewrite IH, andb_true_r.
  destruct c as [q|]; [|reflexivity]. cbn. apply Qeq_bool_iff. reflexivity.
Qed.

(** The groups of [group by] are never empty (for a reflexive key test). *)
Lemma group_nonempty (K R : Type) (eqb : K -> K -> bool) (key : R -> K)
    (rows : list R) (k : K) (members : list R) :
  (forall a, eqb a a = true) ->
  In (k, members) (group_by eqb key rows) -> members <> [].
Proof.
  intros Hrefl Hin. unfold group_by in Hin.
  apply in_map_iff in Hin. destruct Hin as (k' & [= -> <-] & Hk).
  assert (Hsrc : forall ks, In k (distinct eqb ks) -> In k ks).
  { induction ks as [|k0 ks IH]; cbn; [tauto|].
    intros [H|H]; [auto|]. apply filter_In in H. right. apply IH. tauto. }
  apply Hsrc in Hk. apply in_map_iff in Hk. destruct Hk as (row & <- & Hrow).
  intros Hempty.
  assert (Hin : In row (filter (fun r => eqb (key row) (key r)) rows))
    by (apply filter_In; split; [exact Hrow | apply Hrefl]).
  rewrite Hempty in Hin. destruct Hin.
Qed.

Lemma cohort_key_eqb_refl (k : string * option Z) : cohort_key_eqb k k = true.
Proof.
  apply cohort_key_eqb_eq. reflexivity.
Qed.

(** The members of a group are the rows that carry its key. *)
Lemma group_members (K R : Type) (eqb : K -> K -> bool) (key : R -> K)
    (rows : list R) (k : K) (members : list R) :
  In (k, members) (group_by eqb key rows) ->
  members = filter (fun r => eqb k (key r)) rows.
Proof.
  unfold group_by. intros Hin. apply in_map_iff in Hin.
  destruct Hin as (k' & [= -> <-] & _). reflexivity.
Qed.

Lemma sql_avg_mean_of_values (xs : list (option Q)) :
  mean_of_values xs (sql_avg xs).
Proof.
  apply sql_avg_spec.
Qed.

Lemma cohort_rows_tied (key : joined -> string * option Z) (join : list joined)
    (row : cohort_row) :
  In row (map (fun g => cohort_of_group (fst g) (snd g))
              (group_by cohort_key_eqb key join)) ->
  cohort_averages (cohort_members key join row) row.
Proof.
  intros Hin. apply in_map_iff in Hin.
  destruct Hin as ([k members] & <- & Hg).
  pose proof (group_nonempty _ _ cohort_key_eqb key join k members
                cohort_key_eqb_refl Hg) as Hne.
  apply group_members in Hg.
  assert (Hm : cohort_members key join (cohort_of_group k members) = members).
  { rewrite Hg. destruct k as [g y]. reflexivity. }
  cbn [fst snd]. rewrite Hm. unfold cohort_averages.
  split; [exact Hne|].
  split; [apply sql_avg_mean_of_values|].
  split; [apply sql_avg_mean_of_values|].
  intros Hz. split; apply power_weighted_zero_sum; exact Hz.
Qed.

Lemma geo_rows_tied (l : agg_lvl) (units : list unit_row) (row : agg_row) :
  In row (tmp_agg l units) ->
  geo_members l units row <> []
  /\ nettonennleistung_gesamt row
     = sql_sum (map Nettonennleistung (geo_members l units row))
  /\ mean_of_values (map avg_cf (geo_members l units row)) (avg_cf_gesamt row)
  /\ (zero_sum (nettonennleistung_gesamt row) ->
      avg_cf_gesamt_power_weighted row = None).
Proof.
  intros Hin. unfold tmp_agg in Hin. apply in_map_iff in Hin.
  destruct Hin as ([k members] & <- & Hg). unfold geo_groups in Hg.
  pose proof (group_nonempty _ _ geo_key_eqb _ units k members
                geo_key_eqb_refl Hg) as Hne.
  apply group_members in Hg.
  assert (Hm : geo_members l units (agg_of_group k members) = members).
  { rewrite Hg. destruct k as [g cols]. reflexivity. }
  cbn [fst snd]. rewrite Hm.
  split; [exact Hne|]. split; [reflexivity|].
  split; [apply sql_avg_mean_of_values|].
  intros Hz. apply power_weighted_zero_sum. exact Hz.
Qed.

End WeightedMean.

(** A group whose only unit has capacity 0 and no yearly result: the sum of
    the capacities is 0, and the unweighted average is NULL as well. *)
Lemma unweighted_average_always_numeric_fails :
  ~ unweighted_average_always_numeric.
Proof.
  intros H.
  destruct (H Aggregator.Bl [calculation_without_result] [] []
              {| Aggregator.geo := "MISSING"; Aggregator.geo_cols := [];
                 Aggregator.avg_cf_gesamt := None;
                 Aggregator.avg_cf_gesamt_power_weighted := None;
                 Aggregator.nettonennleistung_gesamt := Some (0 + 0)%Q;
                 Aggregator.anzahl_gesamt := 1 |})
    as (_ & q & Hq).
  - left. reflexivity.
  - exists (0 + 0)%Q. split; reflexivity.
  - discriminate.
Qed.

(** C4 (as the code has it).  At every geographic level, in the
    geography-only table and in both cohort tables, the group of a row is
    the set of units (of rows of the join) that carry the row's geography
    and grouping columns (its geography and year); it is never empty.
    Whenever the rated capacities of the members of that group sum to zero,
    every power-weighted average of the row is NULL.  The unweighted
    averages do not look at the capacities: each is the mean of the
    members' values that are not NULL, and is NULL itself only when no
    member has a value. *)
Theorem weighted_average_null_on_zero_capacity
    (l : Aggregator.agg_lvl) (units : list Aggregator.unit_row)
    (results : list Aggregator.results_yearly) :
  (forall row,
      In row (Aggregator.tmp_agg l units) ->
      geo_members l units row <> []
      /\ Aggregator.nettonennleistung_gesamt row
         = Aggregator.sql_sum
             (map Aggregator.Nettonennleistung (geo_members l units row))
      /\ mean_of_values (map Aggregator.avg_cf (geo_members l units row))
           (Aggregator.avg_cf_gesamt row)
      /\ (zero_sum (Aggregator.nettonennleistung_gesamt row) ->
          Aggregator.avg_cf_gesamt_power_weighted row = None))
  /\ (forall row,
        In row (Aggregator.tmp_agg_act_year_cf l units results) ->
        cohort_averages
          (cohort_members (Aggregator.act_key l)
             (Aggregator.act_join units results) row)
          row)
  /\ (forall row,
        In row (Aggregator.tmp_agg_run_year_cf l units results) ->
        cohort_averages
          (cohort_members (Aggregator.run_key l)
             (Aggregator.run_join units results) row)
          row).
Proof.
  split; [|split].
  - intros row Hin. apply geo_rows_tied. exact Hin.
  - intros row Hin. apply cohort_rows_tied. exact Hin.
  - intros row Hin. apply cohort_rows_tied. exact Hin.
Qed.

(** C4 on a federal state whose units all have capacity 0: in the
    geography-only table the weighted average is NULL and the unweighted
    one a number; in the as-running table of 2020 the weighted averages are
    NULL and the average of the yearly factors is one quarter. *)
Lemma weighted_average_null_on_zero_capacity_witness :
  (exists row,
      In row (Aggregator.tmp_agg Aggregator.Bl zero_capacity_units)
      /\ zero_sum (Aggregator.nettonennleistung_gesamt row)
      /\ Aggregator.avg_cf_gesamt_power_weighted row = None
      /\ exists q, Aggregator.avg_cf_gesamt row = Some q)
  /\ (exists row,
        In row (Aggregator.tmp_agg_run_year_cf Aggregator.Bl
                  zero_capacity_units zero_capacity_results)
        /\ Aggregator.c_cf_y row = Some ((1 # 4) / 1)%Q
        /\ Aggregator.c_cf_y_power_weighted row = None
        /\ Aggregator.c_avg_cf_y_power_weighted row = None).
Proof.
  destruct (weighted_average_null_on_zero_capacity Aggregator.Bl
              zero_capacity_units zero_capacity_results) as (Hgeo & _ & Hrun).
  split.
  - exists (Aggregator.agg_of_group ("MISSING", []) zero_capacity_units).
    assert (Hin : In (Aggregator.agg_of_group ("MISSING", []) zero_capacity_units)
                     (Aggregator.tmp_agg Aggregator.Bl zero_capacity_units))
      by (left; reflexivity).
    assert (Hz : zero_sum (Aggregator.nettonennleistung_gesamt
                             (Aggregator.agg_of_group ("MISSING", [])
                                zero_capacity_units)))
      by (eexists; split; reflexivity).
    destruct (Hgeo _ Hin) as (_ & _ & _ & Hnull).
    split; [exact Hin|]. split; [exact Hz|]. split; [exact (Hnull Hz)|].
    eexists. reflexivity.
  - eexists. split; [left; reflexivity|].
    match goal with
    | |- ?P (?row) = _ /\ _ =>
        assert (Hin : In row (Aggregator.tmp_agg_run_year_cf Aggregator.Bl
                                zero_capacity_units zero_capacity_results))
          by (left; reflexivity);
        destruct (Hrun row Hin) as (_ & _ & _ & Hnull)
    end.
    split; [vm_compute; reflexivity|].
    apply Hnull. eexists. split; [reflexivity|]. reflexivity.
Defined.

(* ================================================================== *)
(** * The capacity-factor reducers                                     *)
(* ================================================================== *)

Lemma prepared_length (power : list float64) (curtailment : option float64) :
  length (prepared power curtailment) = length power.
Proof.
  unfold prepared. destruct (is_set curtailment); rewrite ?length_map; reflexivity.
Qed.

Lemma monthly_of_blocks (data : list float64) (leap : bool) :
  length data = (if leap then 8784 else 8760) ->
  compute_monthly_statistics data "sum"
  = Ok (map sum (consecutive_blocks (month_hours leap) data))
  /\ compute_monthly_statistics data "mean"
     = Ok (map mean (consecutive_blocks (month_hours leap) data)).
Proof.
  intros Hlen.
  destruct (monthly_statistics_on_blocks data leap Hlen) as (_ & _ & Hs & Hm).
  split; assumption.
Qed.

(** C2 (as the code has it).  For a power series of 8760 or 8784 hours:
    - the hourly record of the wind reducer stores, next to the rounded
      hourly capacity factors, exactly these factors times the rated
      capacity;
    - the solar reducer works with rounded hourly capacity factors (stored
      in its hourly record, and the source of the monthly and yearly mean
      factors) and stores as monthly energies the sums of the
      capacity-scaled factors over the twelve month blocks, rounded to 4
      decimals, and as yearly energy their sum over the year, rounded to 0
      decimals. *)
Theorem energy_is_scaled_capacity_factor
    (env : environ) (power : list float64) (max_power pvm_max_power : float64)
    (net_capacity : float64) (curtailment : option float64)
    (year : Z) (mastrid : string) (leap : bool) :
  length power = (if leap then 8784 else 8760) ->
  (save_hourly_data env = true ->
   exists cf_hourly rh rm ry,
     calc_capacity_factor_wind env power max_power [] [] [] year mastrid
       net_capacity curtailment = Ok ([rh], [rm], [ry])
     /\ length cf_hourly = length power
     /\ cf rh = Arr cf_hourly
     /\ energy rh = Arr (scaled net_capacity cf_hourly))
  /\ (exists cf_hourly hourly rm ry,
        Solar.calc_capacity_factor env pvm_max_power power [] [] [] year mastrid
          net_capacity curtailment = Ok (hourly, [rm], [ry])
        /\ length cf_hourly = length power
        /\ (save_hourly_data env = true ->
            exists rh, hourly = [rh] /\ cf rh = Arr cf_hourly)
        /\ cf rm = Arr (map (round 4)
                          (map mean (consecutive_blocks (month_hours leap) cf_hourly)))
        /\ cf ry = Scalar (round 4 (mean cf_hourly))
        /\ energy rm
           = Arr (map (round 4)
                    (map sum (consecutive_blocks (month_hours leap)
                                (scaled net_capacity cf_hourly))))
        /\ energy ry = Scalar (round 0 (sum (scaled net_capacity cf_hourly)))).
Proof.
  intros Hlen. split.
  - intros Hsave. unfold calc_capacity_factor_wind.
    match goal with
    | |- context [compute_monthly_statistics ?d "sum"] =>
        destruct (compute_monthly_statistics_sum_ok d) as [sums ->]
    end.
    cbn [bind].
    match goal with
    | |- context [compute_monthly_statistics ?d "mean"] =>
        destruct (compute_monthly_statistics_mean_ok d) as [means ->]
    end.
    cbn [bind]. rewrite Hsave. cbn [app].
    eexists. eexists. eexists. eexists.
    split; [reflexivity|]. split; [|split; reflexivity].
    rewrite !length_map.
    destruct (is_set curtailment); rewrite ?length_map; reflexivity.
  - unfold Solar.calc_capacity_factor.
    fold (prepared power curtailment).
    set (cf_hourly := map (fun p => round 4 (fdiv p pvm_max_power))
                          (prepared power curtailment)).
    fold (scaled net_capacity cf_hourly).
    assert (Hcf : length cf_hourly = length power).
    { unfold cf_hourly. rewrite length_map. apply prepared_length. }
    assert (Hsc : length (scaled net_capacity cf_hourly)
                  = (if leap then 8784 else 8760)).
    { unfold scaled. rewrite length_map, Hcf. exact Hlen. }
    destruct (monthly_of_blocks (scaled net_capacity cf_hourly) leap Hsc)
      as [-> _].
    cbn [bind].
    destruct (monthly_of_blocks cf_hourly leap (eq_trans Hcf Hlen)) as [_ ->].
    cbn [bind].
    exists cf_hourly. eexists. eexists. eexists.
    split; [reflexivity|]. split; [exact Hcf|]. split.
    + intros ->. eexists. split; reflexivity.
    + repeat split.
Qed.

Lemma first_hour_scaled (m : float64) (e0 : list float64) :
  first_hour (Arr (map (fun e => fmul e m) e0)) = fmul (hd NaN e0) m.
Proof.
  destruct e0; reflexivity.
Qed.

Lemma yearly_not_scaled
    (out : result (list results_dict * list results_dict * list results_dict))
    (net_capacity : float64) (stored summed : list pyval) :
  yearly_energy out = Some stored ->
  yearly_sum_scaled net_capacity out = Some summed ->
  stored <> summed ->
  ~ capacity_scaled_yearly net_capacity out.
Proof.
  intros Hstored Hsum Hne (rh & rm & ry & cfs & -> & Hcf & Hy).
  cbn in Hstored, Hsum. injection Hstored as <-. injection Hsum as <-.
  apply Hne. rewrite Hy, Hcf. reflexivity.
Qed.

Lemma hourly_not_scaled
    (out : result (list results_dict * list results_dict * list results_dict))
    (net_capacity : float64) (stored factors : list float64) :
  hourly_energy_first out = Some stored ->
  hourly_cf_first out = Some factors ->
  stored <> map (fun x => fmul x net_capacity) factors ->
  ~ capacity_scaled_hourly net_capacity out.
Proof.
  intros Hstored Hcfs Hne (rh & rm & ry & cfs & -> & Hcf & Hh).
  cbn in Hstored, Hcfs. injection Hstored as <-. injection Hcfs as <-.
  apply Hne. rewrite Hh, Hcf. unfold scaled. rewrite first_hour_scaled.
  reflexivity.
Qed.

(** The stored values of the three scenarios. *)
Lemma wind_scenario_values :
  yearly_energy wind_scenario = Some [Scalar (Num 21960000%Q)]
  /\ yearly_sum_scaled (Num 2000%Q) wind_scenario
     = Some [Scalar (Num 17568000%Q)].
Proof.
  split; vm_compute; reflexivity.
Qed.

Lemma solar_scenario_values :
  hourly_energy_first solar_scenario = Some [Num 80%Q]
  /\ hourly_cf_first solar_scenario = Some [Num (1 # 2)%Q].
Proof.
  split; vm_compute; reflexivity.
Qed.

Lemma solar_one_hour_values :
  yearly_energy solar_one_hour = Some [Scalar (Num 1%Q)]
  /\ yearly_sum_scaled (Num (11 # 10)%Q) solar_one_hour
     = Some [Scalar (Num (11 # 20)%Q)].
Proof.
  split; vm_compute; reflexivity.
Qed.

(** C2, as stated, fails: the stored energies are not always the
    capacity-scaled capacity factors and their sums.
    - The wind reducer stores as yearly energy the sum of the reference
      turbine's hourly energy (21 960 000 for the 2500 kW turbine), not the
      sum of the hourly factors times the unit's 2000 kW (17 568 000).
    - The solar reducer stores as hourly energy the power of the reference
      module (80), not the hourly factor 0.5 times the unit's 10 kW.
    - The solar reducer rounds the yearly sum to 0 decimals (1 for a sum of
      0.55). *)
Lemma energy_is_scaled_capacity_factor_fails :
  ~ capacity_scaled_yearly (Num 2000%Q) wind_scenario
  /\ ~ capacity_scaled_hourly (Num 10%Q) solar_scenario
  /\ ~ capacity_scaled_yearly (Num (11 # 10)%Q) solar_one_hour.
Proof.
  split; [|split].
  - destruct wind_scenario_values as [Hy Hs].
    apply (yearly_not_scaled _ _ _ _ Hy Hs). discriminate.
  - destruct solar_scenario_values as [He Hc].
    apply (hourly_not_scaled _ _ _ _ He Hc). discriminate.
  - destruct solar_one_hour_values as [Hy Hs].
    apply (yearly_not_scaled _ _ _ _ Hy Hs). discriminate.
Qed.

(** C2, for a module of 160 W giving 80 W in every hour of 2021. *)
Lemma energy_is_scaled_capacity_factor_witness :
  exists cf_hourly hourly rm ry,
    Solar.calc_capacity_factor env_hourly (Num 160%Q) (repeat (Num 80%Q) 8760)
      [] [] [] 2021 "SEE900000000005" (Num 10%Q) None = Ok (hourly, [rm], [ry])
    /\ energy ry = Scalar (round 0 (sum (scaled (Num 10%Q) cf_hourly))).
Proof.
  destruct (proj2 (energy_is_scaled_capacity_factor env_hourly
                     (repeat (Num 80%Q) 8760) (Num 2500000%Q) (Num 160%Q)
                     (Num 10%Q) None 2021%Z "SEE900000000005" false
                     (repeat_length (Num 80%Q) 8760)))
    as (cfs & hourly & rm & ry & Hout & _ & _ & _ & _ & _ & Hy).
  exists cfs, hourly, rm, ry. split; assumption.
Defined.

Section Rounding.

(** [rint] is within one half of its argument. *)
Lemma rint_error (q : Q) :
  (- (1 # 2) <= inject_Z (rint q) - q <= 1 # 2)%Q.
Proof.
  unfold rint.
  pose proof (Qfloor_le q) as Hl. pose proof (Qlt_floor q) as Hu.
  rewrite inject_Z_plus in Hu. change (inject_Z 1) with 1%Q in Hu.
  destruct (Qcompare_spec (q - inject_Z (Qfloor q)) (1 # 2)) as [He|Hlt|Hgt].
  - destruct (Z.even (Qfloor q)).
    + generalize dependent (inject_Z (Qfloor q)). intros f Hl Hu He. lra.
    + rewrite inject_Z_plus. change (inject_Z 1) with 1%Q.
      generalize dependent (inject_Z (Qfloor q)). intros f Hl Hu He. lra.
  - generalize dependent (inject_Z (Qfloor q)). intros f Hl Hu Hlt. lra.
  - rewrite inject_Z_plus. change (inject_Z 1) with 1%Q.
    generalize dependent (inject_Z (Qfloor q)). intros f Hl Hu Hgt. lra.
Qed.

(** Rounding to 4 decimals moves a value by at most half a unit of the
    fourth decimal. *)
Lemma round_q_4_error (q : Q) :
  (- (1 # 20000) <= round_q 4 q - q <= 1 # 20000)%Q.
Proof.
  unfold round_q. change (pow10 4) with (10000 # 1)%Q.
  pose proof (rint_error (q * (10000 # 1))) as He.
  generalize dependent (inject_Z (rint (q * (10000 # 1)))). intros z He.
  assert (Hz : (z / (10000 # 1) == z * (1 # 10000))%Q) by field.
  lra.
Qed.

Lemma round_num (d : nat) (q : Q) :
  exists r, round d (Num q) = Num r /\ (r == round_q d q)%Q.
Proof.
  eexists. split; [reflexivity|]. apply Qred_correct.
Qed.

Lemma fmul_num (a b : Q) :
  exists r, fmul (Num a) (Num b) = Num r /\ (r == a * b)%Q.
Proof.
  eexists. split; [reflexivity|]. apply Qred_correct.
Qed.

Lemma fdiv_num (a b : Q) :
  ~ (b == 0)%Q ->
  exists r, fdiv (Num a) (Num b) = Num r /\ (r == a / b)%Q.
Proof.
  intros Hb. unfold fdiv.
  destruct (Qeq_bool b 0) eqn:E.
  - apply Qeq_bool_iff in E. contradiction.
  - eexists. split; [reflexivity|]. apply Qred_correct.
Qed.

Lemma is_set_positive (m : Q) :
  (0 < m)%Q -> is_set (Some (Num m)) = true.
Proof.
  intros Hm. cbn. destruct (Qeq_bool m 0) eqn:E; [|reflexivity].
  apply Qeq_bool_iff in E. rewrite E in Hm. exfalso. apply (Qlt_irrefl 0 Hm).
Qed.

End Rounding.

Section SolarCurtailment.

Variable pvm_max_power : Q.
Hypothesis Hpvm : ~ (pvm_max_power == 0)%Q.
Variable c : Q.
Hypothesis Hc : (0 <= c < 1)%Q.
Variable net_capacity : Q.

Let m : Q := Qred (1 - c).

Lemma multiplier_value : multiplier c = Num m.
Proof. reflexivity. Qed.

Lemma m_range : (0 < m <= 1)%Q /\ (m == 1 - c)%Q.
Proof.
  unfold m. pose proof (Qred_correct (1 - c)) as H.
  set (r := Qred (1 - c)) in *. clearbody r. split; [lra | exact H].
Qed.

(** The hourly capacity factor of one sample, with and without the
    multiplier, as the solar reducer computes it. *)
Lemma solar_sample_close (q : Q) :
  close (1 # 10000) (1 - c)
    (round 4 (fdiv (fmul (round 4 (Num q)) (Num m)) (Num pvm_max_power)))
    (round 4 (fdiv (nan_to_num (round 4 (Num q))) (Num pvm_max_power))).
Proof.
  destruct m_range as [Hm Hmc].
  destruct (round_num 4 q) as (r1 & -> & _). cbn [nan_to_num].
  destruct (fmul_num r1 m) as (r2 & -> & H2).
  destruct (fdiv_num r2 pvm_max_power Hpvm) as (r3 & -> & H3).
  destruct (fdiv_num r1 pvm_max_power Hpvm) as (s3 & -> & S3).
  destruct (round_num 4 r3) as (r4 & -> & H4).
  destruct (round_num 4 s3) as (s4 & -> & S4).
  exists r4, s4. split; [reflexivity|]. split; [reflexivity|].
  pose proof (round_q_4_error r3) as E3. pose proof (round_q_4_error s3) as F3.
  rewrite <- H4 in E3. rewrite <- S4 in F3.
  assert (Hr : (r3 == m * s3)%Q).
  { rewrite H3, H2, S3. field. exact Hpvm. }
  apply Qabs_Qle_condition. rewrite <- Hmc.
  clear H2 H3 S3 H4 S4 Hmc. clearbody m. nra.
Qed.

(** The same for the capacity-scaled energies. *)
Lemma scaled_close (a b : float64) :
  close (1 # 10000) (1 - c) a b ->
  close (Qabs net_capacity * (1 # 10000)) (1 - c)
    (fmul a (Num net_capacity)) (fmul b (Num net_capacity)).
Proof.
  intros (x & y & -> & -> & Hxy).
  destruct (fmul_num x net_capacity) as (ex & -> & Hex).
  destruct (fmul_num y net_capacity) as (ey & -> & Hey).
  exists ex, ey. split; [reflexivity|]. split; [reflexivity|].
  assert (Heq : (ex - (1 - c) * ey == (x - (1 - c) * y) * net_capacity)%Q).
  { rewrite Hex, Hey. ring. }
  rewrite Heq, Qabs_Qmult, (Qmult_comm (Qabs net_capacity)).
  apply Qmult_le_compat_r; [exact Hxy | apply Qabs_nonneg].
Qed.

Lemma solar_cf_close (qs : list Q) :
  Forall2 (close (1 # 10000) (1 - c))
    (map (fun p => round 4 (fdiv p (Num pvm_max_power)))
         (map (fun p => fmul (round 4 p) (Num m)) (map Num qs)))
    (map (fun p => round 4 (fdiv p (Num pvm_max_power)))
         (map nan_to_num (map (round 4) (map Num qs)))).
Proof.
  induction qs as [|q qs IH]; cbn [map]; constructor.
  - apply solar_sample_close.
  - exact IH.
Qed.

Lemma scaled_all_close (xs ys : list float64) :
  Forall2 (close (1 # 10000) (1 - c)) xs ys ->
  Forall2 (close (Qabs net_capacity * (1 # 10000)) (1 - c))
    (scaled (Num net_capacity) xs) (scaled (Num net_capacity) ys).
Proof.
  induction 1 as [|x y xs ys Hxy _ IH]; cbn; constructor.
  - apply scaled_close. exact Hxy.
  - exact IH.
Qed.

(** The module power with the multiplier is the module power without it,
    times the multiplier. *)
Lemma solar_module_power_exact (qs : list Q) :
  map (fun p => fmul (round 4 p) (Num m)) (map Num qs)
  = map (fun e => fmul e (Num m)) (map nan_to_num (map (round 4) (map Num qs))).
Proof.
  rewrite !map_map. apply map_ext. intros q.
  destruct (round_num 4 q) as (r & -> & _). reflexivity.
Qed.

End SolarCurtailment.

(** The hourly record of the solar reducer: the prepared module power as
    energy, its rounded quotient by the module's maximum power as capacity
    factor. *)
Lemma solar_hourly_record (env : environ) (pvm_max_power : float64)
    (power : list float64) (year : Z) (mastrid : string)
    (net_capacity : float64) (curtailment : option float64) :
  save_hourly_data env = true ->
  exists rh rm ry,
    Solar.calc_capacity_factor env pvm_max_power power [] [] [] year mastrid
      net_capacity curtailment = Ok ([rh], [rm], [ry])
    /\ energy rh = Arr (prepared power curtailment)
    /\ cf rh = Arr (map (fun p => round 4 (fdiv p pvm_max_power))
                        (prepared power curtailment)).
Proof.
  intros Hsave. unfold Solar.calc_capacity_factor.
  fold (prepared power curtailment).
  match goal with
  | |- context [compute_monthly_statistics ?d "sum"] =>
      destruct (compute_monthly_statistics_sum_ok d) as [sums ->]
  end.
  cbn [bind].
  match goal with
  | |- context [compute_monthly_statistics ?d "mean"] =>
      destruct (compute_monthly_statistics_mean_ok d) as [means ->]
  end.
  cbn [bind]. rewrite Hsave. cbn [app].
  eexists. eexists. eexists. split; [reflexivity|]. split; reflexivity.
Qed.



Lemma hourly_energy_not_scaled
    (out_c out_0 : result (list results_dict * list results_dict * list results_dict))
    (m : float64) (stored_c stored_0 : list float64) :
  hourly_energy_first out_c = Some stored_c ->
  hourly_energy_first out_0 = Some stored_0 ->
  stored_c <> map (fun x => fmul x m) stored_0 ->
  ~ curtailment_scales_hourly_energy out_c out_0 m.
Proof.
  intros Hc H0 Hne (rc & mc & yc & r0 & m0 & y0 & e0 & -> & -> & He0 & Hec).
  cbn in Hc, H0. injection Hc as <-. injection H0 as <-.
  apply Hne. rewrite Hec, He0, first_hour_scaled. reflexivity.
Qed.

Lemma wind_half_power_values :
  hourly_energy_first (wind_half_power (Some (multiplier (1 # 2))))
  = Some [Num 500000%Q]
  /\ hourly_cf_first (wind_half_power (Some (multiplier (1 # 2))))
     = Some [Num 250%Q]
  /\ hourly_energy_first (wind_half_power None) = Some [Num 1000%Q]
  /\ hourly_cf_first (wind_half_power None) = Some [Num (1 # 2)%Q].
Proof.
  repeat split; vm_compute; reflexivity.
Qed.

Lemma solar_full_curtailment_values :
  multiplier 1 = Num 0%Q
  /\ hourly_energy_first (solar_half_power (Some (multiplier 1)))
     = Some [Num 80%Q]
  /\ hourly_energy_first (solar_half_power None) = Some [Num 80%Q].
Proof.
  repeat split; vm_compute; reflexivity.
Qed.

Lemma solar_missing_sample_values :
  hourly_energy_first (solar_missing_sample (Some (multiplier (1 # 2))))
  = Some [NaN]
  /\ hourly_energy_first (solar_missing_sample None) = Some [Num 0%Q].
Proof.
  repeat split; vm_compute; reflexivity.
Qed.

(** C1.  The code does not scale the stored hourly energy by [1 - c].
    - Wind reducer, curtailment one half, a turbine of 2000 kW at 1 000 000 W
      in every hour: the curtailed branch multiplies the power in watts and
      leaves out the division by 1000 (and the replacement of NaN) of the
      branch without curtailment, so that the hourly capacity factor is 250
      and the hourly energy 500 000, where the branch without curtailment
      gives 0.5 and 1000, one half of which is 500.
    - Solar reducer, [c = 1]: the multiplier 0 is taken for "no curtailment"
      by [if curtailment:], and the hourly energy stays 80.
    - Solar reducer, a missing sample: it stays NaN with curtailment and is
      0 without.
    At each of the three inputs the relation of the claim fails. *)
Theorem curtailment_scales_hourly_energy_fails :
  (hourly_energy_first (wind_half_power (Some (multiplier (1 # 2))))
   = Some [Num 500000%Q]
   /\ hourly_cf_first (wind_half_power (Some (multiplier (1 # 2))))
      = Some [Num 250%Q]
   /\ hourly_energy_first (wind_half_power None) = Some [Num 1000%Q]
   /\ hourly_cf_first (wind_half_power None) = Some [Num (1 # 2)%Q]
   /\ ~ curtailment_scales_hourly_energy
          (wind_half_power (Some (multiplier (1 # 2)))) (wind_half_power None)
          (multiplier (1 # 2)))
  /\ (multiplier 1 = Num 0%Q
      /\ hourly_energy_first (solar_half_power (Some (multiplier 1)))
         = Some [Num 80%Q]
      /\ hourly_energy_first (solar_half_power None) = Some [Num 80%Q]
      /\ ~ curtailment_scales_hourly_energy
             (solar_half_power (Some (multiplier 1))) (solar_half_power None)
             (multiplier 1))
  /\ (hourly_energy_first (solar_missing_sample (Some (multiplier (1 # 2))))
      = Some [NaN]
      /\ hourly_energy_first (solar_missing_sample None) = Some [Num 0%Q]
      /\ ~ curtailment_scales_hourly_energy
             (solar_missing_sample (Some (multiplier (1 # 2))))
             (solar_missing_sample None) (multiplier (1 # 2))).
Proof.
  destruct wind_half_power_values as (Hwc & Hwcf & Hw0 & Hw0cf).
  destruct solar_full_curtailment_values as (Hm & Hsc & Hs0).
  destruct solar_missing_sample_values as (Hnc & Hn0).
  split; [|split].
  - split; [exact Hwc|]. split; [exact Hwcf|]. split; [exact Hw0|].
    split; [exact Hw0cf|].
    apply (hourly_energy_not_scaled _ _ _ _ _ Hwc Hw0). discriminate.
  - split; [exact Hm|]. split; [exact Hsc|]. split; [exact Hs0|].
    apply (hourly_energy_not_scaled _ _ _ _ _ Hsc Hs0). discriminate.
  - split; [exact Hnc|]. split; [exact Hn0|].
    apply (hourly_energy_not_scaled _ _ _ _ _ Hnc Hn0). discriminate.
Qed.

(* ================================================================== *)
(** * The solar-angle table of the set-up                            *)
(* ================================================================== *)

Section DuplicateFeb28.

Import CalculateCfSolar SetupDatabase.

Lemma common_year_months (year : Z) :
  is_leap_year year = false ->
  days_in_months year = [31; 28; 31; 30; 31; 30; 31; 31; 30; 31; 30; 31].
Proof.
  intros H. unfold days_in_months. rewrite H. reflexivity.
Qed.

Lemma leap_year_months (year : Z) :
  is_leap_year year = true ->
  days_in_months year = [31; 29; 31; 30; 31; 30; 31; 31; 30; 31; 30; 31].
Proof.
  intros H. unfold days_in_months. rewrite H. reflexivity.
Qed.

Lemma date_range_common (year : Z) :
  is_leap_year year = false -> date_range year = seq 0 (365 * 24).
Proof.
  intros H. unfold date_range. rewrite (common_year_months _ H). reflexivity.
Qed.

Lemma date_range_leap (year : Z) :
  is_leap_year year = true -> date_range year = seq 0 (366 * 24).
Proof.
  intros H. unfold date_range. rewrite (leap_year_months _ H). reflexivity.
Qed.

(** In a common year, 28 February is the 59th day: hours 1392 to 1415. *)
Lemma feb_28th_mask_common (year : Z) :
  is_leap_year year = false ->
  map (fun t => (month year t =? 2)%nat && (day year t =? 28)%nat) (seq 0 (365 * 24))
  = repeat false (58 * 24) ++ repeat true 24 ++ repeat false (306 * 24).
Proof.
  intros H. unfold month, day. rewrite (common_year_months _ H).
  vm_compute. reflexivity.
Qed.

Context {A : Type}.

Lemma map_fst_combine_seq (a : nat) (vs : list A) :
  map fst (combine (seq a (length vs)) vs) = seq a (length vs).
Proof.
  revert a. induction vs as [|v vs IH]; intros a; simpl; [reflexivity|].
  rewrite IH. reflexivity.
Qed.

Lemma map_snd_combine_seq (a : nat) (vs : list A) :
  map snd (combine (seq a (length vs)) vs) = vs.
Proof.
  revert a. induction vs as [|v vs IH]; intros a; simpl; [reflexivity|].
  rewrite IH. reflexivity.
Qed.

(** The entries of a series over [a, a+1, ...] with labels up to [t]. *)
Lemma loc_to_seq (t : nat) (vs : list A) :
  forall a,
    values (loc_to t (combine (seq a (length vs)) vs)) = firstn (S t - a) vs.
Proof.
  unfold values, loc_to.
  induction vs as [|v vs IH]; intros a.
  - rewrite firstn_nil. reflexivity.
  - cbn [length seq combine filter fst].
    destruct (Nat.leb_spec a t) as [Hle|Hgt].
    + cbn [map snd]. rewrite IH.
      replace (S t - a) with (S (S t - S a)) by lia. reflexivity.
    + rewrite IH.
      replace (S t - S a) with 0 by lia. replace (S t - a) with 0 by lia.
      reflexivity.
Qed.

Lemma loc_from_seq (t : nat) (vs : list A) :
  forall a,
    values (loc_from t (combine (seq a (length vs)) vs)) = skipn (t - a) vs.
Proof.
  unfold values, loc_from.
  induction vs as [|v vs IH]; intros a.
  - rewrite skipn_nil. reflexivity.
  - cbn [length seq combine filter fst].
    destruct (Nat.leb_spec t a) as [Hle|Hgt].
    + cbn [map snd]. rewrite IH.
      replace (t - S a) with 0 by lia. replace (t - a) with 0 by lia.
      reflexivity.
    + rewrite IH. replace (t - a) with (S (t - S a)) by lia. reflexivity.
Qed.

End DuplicateFeb28.

Section DuplicateFeb28Row.

Import CalculateCfSolar SetupDatabase.

Lemma select_all_false (A : Type) (c : nat) :
  forall s : list A, select s (repeat false c) = [].
Proof.
  induction c as [|c IH]; intros s.
  - destruct s; reflexivity.
  - destruct s as [|x s]; [reflexivity|]. cbn. apply IH.
Qed.

(** Boolean indexing of a series acts on the index and on the values. *)
Lemma getitem_combine (A : Type) (vs : list A) :
  forall (idx : list nat) (mask : list bool),
    getitem (combine idx vs) mask
    = combine (select idx mask) (select vs mask).
Proof.
  unfold getitem, select.
  induction vs as [|v vs IH]; intros idx mask.
  - destruct idx; destruct mask as [|[|] mask]; cbn;
      try reflexivity; rewrite ?combine_nil; reflexivity.
  - destruct idx as [|i idx]; [reflexivity|].
    destruct mask as [|[|] mask]; cbn; [reflexivity| |].
    + rewrite IH. reflexivity.
    + apply IH.
Qed.

Lemma last_index_cons (A : Type) (p : nat * A) (s : series A) :
  last_index (p :: s)
  = match s with [] => Ok (fst p) | _ => last_index s end.
Proof.
  unfold last_index. cbn [rev].
  destruct s as [|q s]; [destruct p; reflexivity|].
  destruct (rev (q :: s)) as [|[t x] r] eqn:E.
  - apply (f_equal (@length _)) in E. rewrite length_rev in E. discriminate.
  - reflexivity.
Qed.

Lemma last_index_combine_seq (A : Type) (b : list A) :
  forall a, b <> [] ->
    last_index (combine (seq a (length b)) b) = Ok (a + length b - 1).
Proof.
  induction b as [|x b IH]; intros a Hb; [contradiction|].
  cbn [length seq combine]. rewrite last_index_cons.
  destruct b as [|y b].
  - cbn. f_equal. lia.
  - cbn [length seq combine]. cbn [length seq combine] in IH.
    rewrite (IH (S a)) by discriminate. f_equal. cbn [length]. lia.
Qed.

Lemma last_index_combine_seq_n (A : Type) (b : list A) (a n : nat) :
  length b = n -> n <> 0 ->
  last_index (combine (seq a n) b) = Ok (a + n - 1).
Proof.
  intros <- Hn. apply last_index_combine_seq. intros ->. apply Hn. reflexivity.
Qed.

Lemma map_snd_combine_seq_n (A : Type) (vs : list A) (a n : nat) :
  length vs = n -> map snd (combine (seq a n) vs) = vs.
Proof.
  intros <-. apply map_snd_combine_seq.
Qed.

Lemma loc_to_seq_n (A : Type) (vs : list A) (t a n : nat) :
  length vs = n ->
  values (loc_to t (combine (seq a n) vs)) = firstn (S t - a) vs.
Proof.
  intros <-. apply loc_to_seq.
Qed.

Lemma loc_from_seq_n (A : Type) (vs : list A) (t a n : nat) :
  length vs = n ->
  values (loc_from t (combine (seq a n) vs)) = skipn (t - a) vs.
Proof.
  intros <-. apply loc_from_seq.
Qed.

Lemma values_app (A : Type) (s1 s2 : series A) :
  values (s1 ++ s2) = values s1 ++ values s2.
Proof.
  apply map_app.
Qed.

Lemma values_moved (A : Type) (s : series A) :
  values (map (fun p => (fst p + 24, snd p)) s) = values s.
Proof.
  unfold values. rewrite map_map. reflexivity.
Qed.

Lemma map_fst_combine_seq_n (A : Type) (vs : list A) (a n : nat) :
  length vs = n -> map fst (combine (seq a n) vs) = seq a n.
Proof.
  intros <-. apply map_fst_combine_seq.
Qed.

Lemma feb_28th_index :
  select (seq 0 (365 * 24))
    (repeat false (58 * 24) ++ repeat true 24 ++ repeat false (306 * 24))
  = seq (58 * 24) 24.
Proof.
  vm_compute. reflexivity.
Qed.

(** What [duplicate_feb_28] does to one column of 8760 values. *)
Lemma duplicated_column (A : Type) (vs : list A) :
  length vs = 365 * 24 ->
  let s := combine (seq 0 (365 * 24)) vs in
  let mask := repeat false (58 * 24) ++ repeat true 24 ++ repeat false (306 * 24) in
  getitem s mask = combine (seq (58 * 24) 24) (firstn 24 (skipn (58 * 24) vs))
  /\ last_index (getitem s mask) = Ok (59 * 24 - 1)
  /\ values (loc_to (59 * 24 - 1) s
             ++ map (fun p => (fst p + 24, snd p)) (getitem s mask)
             ++ loc_from (59 * 24 - 1 + 1) s)
     = firstn (59 * 24) vs ++ firstn 24 (skipn (58 * 24) vs) ++ skipn (59 * 24) vs.
Proof.
  intros Hlen s mask.
  assert (Hb : length (firstn 24 (skipn (58 * 24) vs)) = 24).
  { rewrite length_firstn, length_skipn, Hlen. reflexivity. }
  assert (Hget : getitem s mask
                 = combine (seq (58 * 24) 24) (firstn 24 (skipn (58 * 24) vs))).
  { subst s mask. rewrite getitem_combine, feb_28th_index. f_equal.
    rewrite select_false_prefix, select_true_prefix, select_all_false.
    apply app_nil_r. }
  split; [exact Hget|]. split.
  - rewrite Hget. rewrite (last_index_combine_seq_n _ _ _ _ Hb) by discriminate.
    reflexivity.
  - rewrite Hget, !values_app, values_moved. subst s.
    rewrite (loc_to_seq_n _ _ _ _ _ Hlen), (loc_from_seq_n _ _ _ _ _ Hlen).
    f_equal. f_equal.
    apply map_snd_combine_seq_n. exact Hb.
Qed.

Lemma length_duplicated (A : Type) (vs : list A) :
  length vs = 365 * 24 ->
  length (firstn (59 * 24) vs ++ firstn 24 (skipn (58 * 24) vs) ++ skipn (59 * 24) vs)
  = 366 * 24.
Proof.
  intros H. rewrite !length_app, !length_firstn, !length_skipn, H. reflexivity.
Qed.

Lemma firstn_app_len (A : Type) (n : nat) (p r : list A) :
  length p = n -> firstn n (p ++ r) = p.
Proof.
  intros <-. rewrite firstn_app, Nat.sub_diag, firstn_O, app_nil_r.
  apply firstn_all.
Qed.

Lemma skipn_app_len (A : Type) (n : nat) (p r : list A) :
  length p = n -> skipn n (p ++ r) = r.
Proof.
  intros <-. rewrite skipn_app, Nat.sub_diag, skipn_O, skipn_all. reflexivity.
Qed.

(** Dropping the 60th day of the extended column gives the column back. *)
Lemma drop_duplicated (A : Type) (vs : list A) :
  length vs = 365 * 24 ->
  getitem_mask
    (firstn (59 * 24) vs ++ firstn 24 (skipn (58 * 24) vs) ++ skipn (59 * 24) vs)
    feb_29_mask
  = Ok vs.
Proof.
  intros H. rewrite getitem_mask_leap by (apply length_duplicated; exact H).
  f_equal.
  assert (H1 : length (firstn (59 * 24) vs) = 59 * 24).
  { rewrite length_firstn, H. reflexivity. }
  assert (H2 : length (firstn 24 (skipn (58 * 24) vs)) = 24).
  { rewrite length_firstn, length_skipn, H. reflexivity. }
  rewrite (firstn_app_len _ _ _ _ H1).
  change (60 * 24) with (59 * 24 + 24).
  rewrite skipn_add, (skipn_app_len _ _ _ _ H1), (skipn_app_len _ _ _ _ H2).
  apply firstn_skipn.
Qed.

(** The 60th day of the extended column is the 59th day of the column. *)
Lemma feb_29_is_feb_28 (A : Type) (vs : list A) :
  length vs = 365 * 24 ->
  slice (59 * 24) (60 * 24)
    (firstn (59 * 24) vs ++ firstn 24 (skipn (58 * 24) vs) ++ skipn (59 * 24) vs)
  = slice (58 * 24) (59 * 24) vs.
Proof.
  intros H. unfold slice.
  assert (H1 : length (firstn (59 * 24) vs) = 59 * 24).
  { rewrite length_firstn, H. reflexivity. }
  assert (H2 : length (firstn 24 (skipn (58 * 24) vs)) = 24).
  { rewrite length_firstn, length_skipn, H. reflexivity. }
  rewrite (skipn_app_len _ _ _ _ H1).
  change (60 * 24 - 59 * 24) with 24. change (59 * 24 - 58 * 24) with 24.
  apply (firstn_app_len _ _ _ _ H2).
Qed.

Lemma duplicate_feb_28_common (year : Z) (row : angles_row) :
  is_leap_year year = false ->
  length (row_solar_zenith row) = 365 * 24 ->
  length (row_solar_azimuth row) = 365 * 24 ->
  duplicate_feb_28 year row
  = Ok {| row_era5_lat := row_era5_lat row;
          row_era5_lon := row_era5_lon row;
          row_lat_lon := row_lat_lon row;
          row_solar_zenith :=
            firstn (59 * 24) (row_solar_zenith row)
            ++ firstn 24 (skipn (58 * 24) (row_solar_zenith row))
            ++ skipn (59 * 24) (row_solar_zenith row);
          row_solar_azimuth :=
            firstn (59 * 24) (row_solar_azimuth row)
            ++ firstn 24 (skipn (58 * 24) (row_solar_azimuth row))
            ++ skipn (59 * 24) (row_solar_azimuth row) |}.
Proof.
  intros Hyear Hz Ha. unfold duplicate_feb_28.
  rewrite (date_range_common _ Hyear). unfold Series.
  rewrite Hz, Ha, length_seq, Nat.eqb_refl. cbn [bind].
  rewrite (map_fst_combine_seq_n _ _ _ _ Hz).
  rewrite (feb_28th_mask_common _ Hyear).
  destruct (duplicated_column _ (row_solar_zenith row) Hz) as (_ & Hlz & Hvz).
  destruct (duplicated_column _ (row_solar_azimuth row) Ha) as (_ & Hla & Hva).
  rewrite Hlz. cbn [bind]. rewrite Hla. cbn [bind].
  rewrite Hvz, Hva. reflexivity.
Qed.

End DuplicateFeb28Row.

Section SolarAnglesTable.

Import CalculateCfSolar SetupDatabase.

Variable LEAP_YEARS : list Z.
Variable get_solarposition : Z -> nat -> Q -> Q -> Q * Q.

Lemma compute_solar_positions_hours (year : Z) (c : Q * Q) :
  row_hours (length (date_range year))
    (compute_solar_positions get_solarposition year c).
Proof.
  unfold row_hours, compute_solar_positions. cbn. rewrite !length_map. auto.
Qed.

Lemma progress_apply_duplicate (year : Z) (rows : list angles_row) :
  is_leap_year year = false ->
  Forall (row_hours (365 * 24)) rows ->
  exists rows',
    progress_apply (duplicate_feb_28 year) rows = Ok rows'
    /\ map row_lat_lon rows' = map row_lat_lon rows
    /\ Forall (row_hours (366 * 24)) rows'
    /\ Forall2 (fun r' r =>
                  getitem_mask (row_solar_zenith r') feb_29_mask
                  = Ok (row_solar_zenith r)
                  /\ getitem_mask (row_solar_azimuth r') feb_29_mask
                     = Ok (row_solar_azimuth r)) rows' rows.
Proof.
  intros Hyear. induction rows as [|row rows IH]; intros Hrows.
  - exists []. repeat split; constructor.
  - inversion Hrows as [|? ? [Hz Ha] Hrest]; subst.
    destruct (IH Hrest) as (rows' & Happly & Hkeys & Hhours & Hdrop).
    eexists. cbn [progress_apply].
    rewrite (duplicate_feb_28_common year row Hyear Hz Ha). cbn [bind].
    rewrite Happly. cbn [bind]. split; [reflexivity|]. split; [|split].
    + cbn [map row_lat_lon]. rewrite Hkeys. reflexivity.
    + constructor; [|exact Hhours].
      split; cbn [row_solar_zenith row_solar_azimuth];
        apply length_duplicated; assumption.
    + constructor; [|exact Hdrop].
      split; cbn [row_solar_zenith row_solar_azimuth];
        apply drop_duplicated; assumption.
Qed.

End SolarAnglesTable.





(* ================================================================== *)
(** * Turbine, hub-height and angle mapping of the set-up            *)
(* ================================================================== *)

Section MappingLoop.

Import SetupDatabase.

Context {Row U : Type}.
Variable update_of : Row -> result U.
Variable table : string.
Variable batch_size : Z.
Hypothesis Hsize : (1 <= batch_size)%Z.

Lemma mapping_loop_spec (rows : list Row) :
  forall (us updates : list U) (executed : list (statement_on U)),
    Forall2 (fun row u => update_of row = Ok u) rows us ->
    (Z.of_nat (length updates) < batch_size)%Z ->
    exists new updates',
      mapping_loop update_of table batch_size rows updates executed
      = Ok (updates', executed ++ new)
      /\ concat (map rows_of new) ++ updates' = updates ++ us
      /\ Forall (updates_by_unit table) new
      /\ Forall (fun q => Z.of_nat (length (rows_of q)) = batch_size) new
      /\ (Z.of_nat (length updates') < batch_size)%Z.
Proof.
  induction rows as [|row rows IH]; intros us updates executed Hus Hlen.
  - inversion Hus; subst. exists [], updates. cbn.
    rewrite !app_nil_r. repeat split; try constructor. exact Hlen.
  - inversion Hus as [|? u ? us' Hu Hrest]; subst.
    cbn [mapping_loop]. rewrite Hu. cbn [bind].
    destruct (Z.leb_spec batch_size (Z.of_nat (length (updates ++ [u]))))
      as [Hdue|Hnot].
    + assert (Hfull : Z.of_nat (length (updates ++ [u])) = batch_size).
      { rewrite length_app in *. cbn [length] in *. lia. }
      assert (Hne : updates ++ [u] <> []).
      { intros E. apply (f_equal (@length _)) in E.
        rewrite length_app in E. cbn in E. lia. }
      unfold batch_update_on.
      destruct (updates ++ [u]) as [|x xs] eqn:E; [contradiction|].
      cbn [String.eqb Ascii.eqb Bool.eqb]. cbn [bind].
      destruct (IH us' [] (executed ++ [InsertDoUpdate_on table ["EinheitMastrNummer"] (x :: xs)])
                  Hrest) as (new & updates' & Hrun & Hcat & Hupd & Hfulls & Hless).
      { cbn. lia. }
      exists (InsertDoUpdate_on table ["EinheitMastrNummer"] (x :: xs) :: new), updates'.
      rewrite Hrun, <- app_assoc. split; [reflexivity|]. split.
      * cbn [map concat rows_of]. rewrite <- app_assoc, Hcat, <- E.
        rewrite <- app_assoc. reflexivity.
      * split; [constructor; [reflexivity|exact Hupd]|].
        split; [constructor; [exact Hfull|exact Hfulls]|exact Hless].
    + destruct (IH us' (updates ++ [u]) executed Hrest Hnot)
        as (new & updates' & Hrun & Hcat & Hupd & Hfulls & Hless).
      exists new, updates'. rewrite Hrun. split; [reflexivity|].
      split; [rewrite Hcat, <- app_assoc; reflexivity|].
      repeat split; assumption.
Qed.

Lemma removelast_snoc (A : Type) (l : list A) (a : A) :
  removelast (l ++ [a]) = l.
Proof.
  apply removelast_last.
Qed.

(** The whole run: every update is written once, in the order of the rows,
    in full batches. *)
Lemma mapping_run_spec (rows : list Row) (us : list U)
    (executed : list (statement_on U)) :
  Forall2 (fun row u => update_of row = Ok u) rows us ->
  exists new,
    mapping_run update_of table batch_size rows executed = Ok (executed ++ new)
    /\ concat (map rows_of new) = us
    /\ Forall (updates_by_unit table) new
    /\ full_batches batch_size new.
Proof.
  intros Hus. unfold mapping_run.
  destruct (mapping_loop_spec rows us [] executed Hus)
    as (new & updates' & Hrun & Hcat & Hupd & Hfulls & Hless).
  { cbn. lia. }
  rewrite Hrun. cbn [bind]. cbn [app] in Hcat.
  destruct updates' as [|x xs].
  - exists new. rewrite app_nil_r in Hcat. split; [reflexivity|].
    split; [exact Hcat|]. split; [exact Hupd|]. split.
    + eapply Forall_impl; [|exact Hfulls]. cbn. intros q Hq. lia.
    + clear - Hfulls. induction new as [|q new IH] using rev_ind; [constructor|].
      rewrite removelast_snoc. apply Forall_app in Hfulls. apply Hfulls.
  - unfold batch_update_on. cbn [String.eqb Ascii.eqb Bool.eqb].
    exists (new ++ [InsertDoUpdate_on table ["EinheitMastrNummer"] (x :: xs)]).
    rewrite app_assoc. split; [reflexivity|]. split; [|split; [|split]].
    + rewrite map_app, concat_app. cbn. rewrite app_nil_r. exact Hcat.
    + apply Forall_app. split; [exact Hupd|]. constructor; [reflexivity|constructor].
    + apply Forall_app. split.
      * eapply Forall_impl; [|exact Hfulls]. cbn. intros q Hq. lia.
      * constructor; [|constructor]. cbn [rows_of]. cbn [length] in *. lia.
    + rewrite removelast_snoc. exact Hfulls.
Qed.

End MappingLoop.

Section MapTurbine.

Import SetupDatabase.

Variable mastr_type : Type.
Variable contains : string -> mastr_type -> bool.
Variable MASTR_TURBINE_MAP :
  list (string * list (string * list (Z * mastr_type))).
Variable UPDATE_LOG : string -> string.

Variable name : string.
Variable capacity : option float64.

(** The body of the innermost loop on an item with its turbine type. *)
Let step (st : search) (entry : string * (Z * mastr_type)) : result search :=
  visit contains name capacity (fst entry) st (snd entry).

Lemma for_each_app (A S : Type) (body : S -> A -> result S) (l1 l2 : list A) :
  forall st,
    for_each body (l1 ++ l2) st
    = (st' <- for_each body l1 st ;; for_each body l2 st')%py.
Proof.
  induction l1 as [|a l1 IH]; intros st; cbn [for_each app bind]; [reflexivity|].
  destruct (body st a); cbn [bind]; [apply IH|reflexivity].
Qed.

(** The three nested loops are one loop over the items in order. *)
Lemma nested_loops (st : search) :
  for_each (fun st manufacturer =>
      for_each (fun st turbine =>
          for_each (visit contains name capacity (fst turbine)) (snd turbine) st)
        (snd manufacturer) st)
    MASTR_TURBINE_MAP st
  = for_each step (turbine_entries MASTR_TURBINE_MAP) st.
Proof.
  unfold turbine_entries. revert st.
  induction MASTR_TURBINE_MAP as [|manufacturer rest IH]; intros st;
    [reflexivity|].
  cbn [for_each flat_map]. rewrite for_each_app.
  assert (Hinner : forall turbines st0,
             for_each (fun st turbine =>
                 for_each (visit contains name capacity (fst turbine))
                          (snd turbine) st) turbines st0
             = for_each step
                 (flat_map (fun turbine =>
                    map (fun item => (fst turbine, item)) (snd turbine)) turbines)
                 st0).
  { induction turbines as [|turbine turbines IHt]; intros st0; [reflexivity|].
    cbn [for_each flat_map]. rewrite for_each_app.
    assert (Hitems : forall items st1,
               for_each (visit contains name capacity (fst turbine)) items st1
               = for_each step (map (fun item => (fst turbine, item)) items) st1).
    { induction items as [|item items IHi]; intros st1; [reflexivity|].
      cbn [for_each map]. unfold step at 1. cbn [fst snd].
      destruct (visit contains name capacity (fst turbine) st1 item);
        cbn [bind]; [apply IHi|reflexivity]. }
    rewrite Hitems.
    destruct (for_each step _ st0); cbn [bind]; [apply IHt|reflexivity]. }
  rewrite Hinner.
  destruct (for_each step _ st); cbn [bind]; [apply IH|reflexivity].
Qed.

(** Whatever the capacity: a run that ends has found a type exactly when
    an item matched, and the type it holds is the one it started with or the
    type of an item. *)
Lemma for_each_found (entries : list (string * (Z * mastr_type))) :
  forall st st',
    for_each step entries st = Ok st' ->
    found st' = found st || existsb (matching contains name) entries
    /\ (turbine_mapped st' = turbine_mapped st
        \/ In (turbine_mapped st') (map fst entries)).
Proof.
  induction entries as [|entry entries IH]; intros st st' Hrun.
  - cbn in Hrun. injection Hrun as <-. rewrite orb_false_r. auto.
  - cbn [for_each] in Hrun.
    destruct (step st entry) as [st1|e] eqn:Hstep; [|discriminate].
    cbn [bind] in Hrun. destruct (IH _ _ Hrun) as [Hf Ht].
    assert (Hst1 : found st1 = found st || matching contains name entry
                   /\ (turbine_mapped st1 = turbine_mapped st
                       \/ turbine_mapped st1 = fst entry)).
    { unfold step, visit in Hstep. unfold matching.
      destruct (contains name (snd (snd entry))).
      - destruct (power_diff_of (fst (snd entry)) capacity) as [d|e];
          [|discriminate]. cbn [bind] in Hstep.
        destruct (closer d (closest_power_diff st)); injection Hstep as <-;
          cbn [found turbine_mapped]; rewrite orb_true_r; auto.
      - injection Hstep as <-. rewrite orb_false_r. auto. }
    destruct Hst1 as [Hf1 Ht1]. cbn [existsb map]. split.
    + rewrite Hf, Hf1, orb_assoc. reflexivity.
    + destruct Ht as [Ht|Ht].
      * rewrite Ht. destruct Ht1 as [Ht1|Ht1]; [left; exact Ht1|].
        right. left. symmetry. exact Ht1.
      * right. right. exact Ht.
Qed.

End MapTurbine.

Section MapTurbineClosest.

Import SetupDatabase.

Variable mastr_type : Type.
Variable contains : string -> mastr_type -> bool.
Variable name : string.
Variable n : Q.

(** The distance of an item's power from the capacity of the unit. *)
Let distance (entry : string * (Z * mastr_type)) : Q :=
  Qabs (inject_Z (fst (snd entry)) - n).

Let step (st : search) (entry : string * (Z * mastr_type)) : result search :=
  visit contains name (Some (Num n)) (fst entry) st (snd entry).

(** What the loop has established after the items [seen]. *)
Let closest_so_far (seen : list (string * (Z * mastr_type))) (st : search) : Prop :=
  (found st = false /\ closest_power_diff st = None
   /\ existsb (matching contains name) seen = false)
  \/ (found st = true
      /\ exists entry,
           In entry seen /\ matching contains name entry = true
           /\ turbine_mapped st = fst entry
           /\ closest_power_diff st = Some (distance entry)
           /\ forall other,
                In other seen -> matching contains name other = true ->
                (distance entry <= distance other)%Q).

Lemma existsb_false_in (A : Type) (f : A -> bool) (l : list A) (x : A) :
  existsb f l = false -> In x l -> f x = false.
Proof.
  intros Hnone Hin. destruct (f x) eqn:E; [|reflexivity].
  assert (H : existsb f l = true) by (apply existsb_exists; eauto).
  congruence.
Qed.

Lemma step_closest (seen : list (string * (Z * mastr_type))) (st : search)
    (entry : string * (Z * mastr_type)) :
  closest_so_far seen st ->
  exists st', step st entry = Ok st' /\ closest_so_far (seen ++ [entry]) st'
              /\ (matching contains name entry = false -> st' = st).
Proof.
  intros Hinv. unfold step, visit.
  destruct (contains name (snd (snd entry))) eqn:Hmatch.
  - cbn [power_diff_of bind]. fold (distance entry).
    destruct Hinv as [(Hf & Hc & Hnone)|(Hf & best & Hin & Hm & Ht & Hc & Hmin)].
    + rewrite Hc. cbn [closer]. eexists. split; [reflexivity|]. split.
      * right. cbn [found turbine_mapped closest_power_diff].
        split; [reflexivity|]. exists entry.
        split; [apply in_or_app; right; left; reflexivity|].
        split; [exact Hmatch|]. split; [reflexivity|]. split; [reflexivity|].
        intros other Hother Hmo. apply in_app_or in Hother.
        destruct Hother as [Hother|[<-|[]]]; [|apply Qle_refl].
        exfalso. rewrite (existsb_false_in _ _ _ _ Hnone Hother) in Hmo.
        discriminate.
      * unfold matching. rewrite Hmatch. discriminate.
    + rewrite Hc. cbn [closer].
      destruct (Qlt_le_dec (distance entry) (distance best)) as [Hlt|Hle].
      * eexists. split; [reflexivity|]. split.
        -- right. cbn [found turbine_mapped closest_power_diff].
           split; [reflexivity|]. exists entry.
           split; [apply in_or_app; right; left; reflexivity|].
           split; [exact Hmatch|]. split; [reflexivity|]. split; [reflexivity|].
           intros other Hother Hmo. apply in_app_or in Hother.
           destruct Hother as [Hother|[<-|[]]]; [|apply Qle_refl].
           apply Qle_trans with (distance best); [apply Qlt_le_weak; exact Hlt|].
           apply Hmin; assumption.
        -- unfold matching. rewrite Hmatch. discriminate.
      * eexists. split; [reflexivity|]. split.
        -- right. cbn [found turbine_mapped closest_power_diff].
           split; [reflexivity|]. exists best.
           split; [apply in_or_app; left; exact Hin|].
           split; [exact Hm|]. split; [exact Ht|]. split; [reflexivity|].
           intros other Hother Hmo. apply in_app_or in Hother.
           destruct Hother as [Hother|[<-|[]]]; [apply Hmin; assumption|exact Hle].
        -- unfold matching. rewrite Hmatch. discriminate.
  - exists st. split; [reflexivity|]. split; [|reflexivity].
    destruct Hinv as [(Hf & Hc & Hnone)|(Hf & best & Hin & Hm & Ht & Hc & Hmin)].
    + left. split; [exact Hf|]. split; [exact Hc|].
      rewrite existsb_app, Hnone. cbn. unfold matching. rewrite Hmatch. reflexivity.
    + right. split; [exact Hf|]. exists best.
      split; [apply in_or_app; left; exact Hin|].
      split; [exact Hm|]. split; [exact Ht|]. split; [exact Hc|].
      intros other Hother Hmo. apply in_app_or in Hother.
      destruct Hother as [Hother|[<-|[]]]; [apply Hmin; assumption|].
      unfold matching in Hmo. congruence.
Qed.

Lemma for_each_closest (rest : list (string * (Z * mastr_type))) :
  forall seen st,
    closest_so_far seen st ->
    exists st', for_each step rest st = Ok st' /\ closest_so_far (seen ++ rest) st'.
Proof.
  induction rest as [|entry rest IH]; intros seen st Hinv.
  - exists st. rewrite app_nil_r. split; [reflexivity|exact Hinv].
  - destruct (step_closest seen st entry Hinv) as (st1 & Hstep & Hinv1 & _).
    destruct (IH _ _ Hinv1) as (st' & Hrun & Hinv').
    exists st'. cbn [for_each]. rewrite Hstep. cbn [bind].
    split; [exact Hrun|]. rewrite <- app_assoc in Hinv'. exact Hinv'.
Qed.

End MapTurbineClosest.

Section TurbineMappingTotal.

Import SetupDatabase.

Variable mastr_type : Type.
Variable contains : string -> mastr_type -> bool.
Variable MASTR_TURBINE_MAP :
  list (string * list (string * list (Z * mastr_type))).
Variable UPDATE_LOG : string -> string.
Variable AVERAGE_HUB_HEIGHT_MASTR : float64.

(** With a capacity, no item can make the loop raise. *)
Lemma for_each_visit_total (name : string) (c : float64)
    (entries : list (string * (Z * mastr_type))) :
  forall st,
    exists st',
      for_each (fun st entry =>
                  visit contains name (Some c) (fst entry) st (snd entry))
        entries st = Ok st'.
Proof.
  induction entries as [|entry entries IH]; intros st.
  - exists st. reflexivity.
  - cbn [for_each]. unfold visit at 1.
    destruct (contains name (snd (snd entry))).
    + destruct c as [q|]; cbn [power_diff_of bind];
        match goal with
        | |- context [if ?b then _ else _] => destruct b
        end; cbn [bind]; apply IH.
    + cbn [bind]. apply IH.
Qed.

Lemma map_turbine_total (T : option string) (c : float64) :
  exists t e,
    map_turbine contains MASTR_TURBINE_MAP UPDATE_LOG T (Some c) = Ok (t, e).
Proof.
  unfold map_turbine. destruct (designation T) as [name|].
  - rewrite nested_loops.
    destruct (for_each_visit_total name c (turbine_entries MASTR_TURBINE_MAP)
                {| found := false; closest_power_diff := None;
                   turbine_mapped := "default100_6/3360" |}) as (st' & ->).
    cbn [bind]. eauto.
  - cbn [bind]. eauto.
Qed.

Lemma wind_update_of_total (row : wind_row) :
  Nettonennleistung row <> None ->
  exists u,
    wind_update_of contains MASTR_TURBINE_MAP UPDATE_LOG
      AVERAGE_HUB_HEIGHT_MASTR row = Ok u
    /\ wu_EinheitMastrNummer u = EinheitMastrNummer row.
Proof.
  intros Hc. unfold wind_update_of.
  destruct (Nettonennleistung row) as [c|]; [|contradiction Hc; reflexivity].
  destruct (map_turbine_total (Typenbezeichnung row) c) as (t & e & ->).
  cbn [bind]. destruct (map_hub_height UPDATE_LOG AVERAGE_HUB_HEIGHT_MASTR _).
  eexists. split; reflexivity.
Qed.

Lemma wind_updates_total (rows : list wind_row) :
  Forall (fun row => Nettonennleistung row <> None) rows ->
  exists us,
    Forall2 (fun row u =>
               wind_update_of contains MASTR_TURBINE_MAP UPDATE_LOG
                 AVERAGE_HUB_HEIGHT_MASTR row = Ok u) rows us
    /\ map wu_EinheitMastrNummer us = map EinheitMastrNummer rows.
Proof.
  induction rows as [|row rows IH]; intros Hrows.
  - exists []. split; [constructor|reflexivity].
  - inversion Hrows as [|? ? Hrow Hrest]; subst.
    destruct (wind_update_of_total row Hrow) as (u & Hu & Hid).
    destruct (IH Hrest) as (us & Hus & Hids).
    exists (u :: us). split; [constructor; assumption|].
    cbn. rewrite Hid, Hids. reflexivity.
Qed.

End TurbineMappingTotal.

Section AngleMappingTotal.

Import SetupDatabase.

Variable AZIMUTH_ANGLE_MAP TILT_ANGLE_MAP : list (string * float64).
Variable UPDATE_LOG : string -> string.
Variable azimuth_default tilt_default : float64.
Hypothesis Hazimuth : dict_get AZIMUTH_ANGLE_MAP "default" = Some azimuth_default.
Hypothesis Htilt : dict_get TILT_ANGLE_MAP "default" = Some tilt_default.

Lemma solar_update_of_total (row : solar_row) :
  exists u,
    solar_update_of AZIMUTH_ANGLE_MAP TILT_ANGLE_MAP UPDATE_LOG row = Ok u
    /\ su_EinheitMastrNummer u = solar_EinheitMastrNummer row.
Proof.
  unfold solar_update_of, map_azimuth_angle, map_tilt_angle, dict_getitem.
  rewrite Hazimuth, Htilt.
  destruct (get_or_none AZIMUTH_ANGLE_MAP (Hauptausrichtung row));
    destruct (get_or_none TILT_ANGLE_MAP (HauptausrichtungNeigungswinkel row));
    cbn [bind]; eexists; split; reflexivity.
Qed.

Lemma solar_updates_total (rows : list solar_row) :
  exists us,
    Forall2 (fun row u =>
               solar_update_of AZIMUTH_ANGLE_MAP TILT_ANGLE_MAP UPDATE_LOG row
               = Ok u) rows us
    /\ map su_EinheitMastrNummer us = map solar_EinheitMastrNummer rows.
Proof.
  induction rows as [|row rows IH].
  - exists []. split; [constructor|reflexivity].
  - destruct (solar_update_of_total row) as (u & Hu & Hid).
    destruct IH as (us & Hus & Hids).
    exists (u :: us). split; [constructor; assumption|].
    cbn. rewrite Hid, Hids. reflexivity.
Qed.

End AngleMappingTotal.









(* ================================================================== *)
(** * Bounds on the power curve and the capacity factors             *)
(* ================================================================== *)

Section Interpolation.

Lemma valid_samples_speeds (x : Q) (ws : list Q) :
  forall ps,
    Forall (fun y => (x < y)%Q) ws ->
    Forall (fun y => (x < y)%Q) (map fst (valid_samples ws ps)).
Proof.
  induction ws as [|w ws IH]; intros ps Hws; [constructor|].
  inversion Hws; subst.
  destruct ps as [|[p|] ps]; cbn; [constructor| |]; auto.
Qed.

Lemma valid_samples_increasing (ws : list Q) :
  forall ps,
    increasing ws -> increasing (map fst (valid_samples ws ps)).
Proof.
  induction ws as [|w ws IH]; intros ps Hws; [exact I|].
  destruct Hws as [Hw Hrest].
  destruct ps as [|[p|] ps]; cbn [valid_samples map fst increasing];
    [exact I| |]; auto.
  split; [apply valid_samples_speeds; exact Hw|apply IH; exact Hrest].
Qed.

(** Between two neighbouring samples the interpolated value lies between
    their values. *)
Lemma segment_bounds (x0 y0 x1 y1 x lo hi : Q) :
  (x0 < x1)%Q -> (x0 <= x)%Q -> (x < x1)%Q ->
  (lo <= y0 <= hi)%Q -> (lo <= y1 <= hi)%Q ->
  (lo <= (y1 - y0) / (x1 - x0) * (x - x0) + y0 <= hi)%Q.
Proof.
  intros H01 H0 H1 Hy0 Hy1.
  set (t := ((x - x0) / (x1 - x0))%Q).
  assert (Hd : (0 < x1 - x0)%Q) by lra.
  assert (Ht : (0 <= t <= 1)%Q).
  { subst t. split.
    - apply Qle_shift_div_l; [exact Hd|]. lra.
    - apply Qle_shift_div_r; [exact Hd|]. lra. }
  assert (E : ((y1 - y0) / (x1 - x0) * (x - x0) + y0 == t * y1 + (1 - t) * y0)%Q).
  { subst t. field. lra. }
  rewrite E. clearbody t. split; nra.
Qed.

Lemma interp_inside_bounds (x lo hi : Q) (pts : list (Q * Q)) :
  increasing (map fst pts) ->
  Forall (fun p => (lo <= snd p <= hi)%Q) pts ->
  match pts with
  | [] => True
  | (x0, _) :: _ => (x0 <= x)%Q -> (lo <= interp_inside x pts <= hi)%Q
  end.
Proof.
  induction pts as [|[x0 y0] rest IH]; intros Hinc Hy; [exact I|].
  intros Hx0. inversion Hy as [|? ? Hy0 Hrest]; subst. cbn [snd] in Hy0.
  destruct Hinc as [Hlt Hinc]. cbn [interp_inside].
  destruct rest as [|[x1 y1] rest]; [exact Hy0|].
  specialize (IH Hinc Hrest).
  inversion Hlt as [|? ? H01 _]; subst. cbn [fst] in H01.
  inversion Hrest as [|? ? Hy1 _]; subst. cbn [snd] in Hy1.
  destruct (Qle_bool x1 x) eqn:E1.
  - apply IH. apply Qle_bool_iff. exact E1.
  - destruct (Qeq_bool x0 x); [exact Hy0|].
    apply segment_bounds; try assumption.
    apply Qnot_le_lt. intros Hle. apply Qle_bool_iff in Hle. congruence.
Qed.

Lemma last_in (A : Type) (l : list A) (d : A) : l <> [] -> In (last l d) l.
Proof.
  induction l as [|a l IH]; [intros H; contradiction H; reflexivity|].
  intros _. destruct l as [|b l]; [left; reflexivity|].
  right. apply IH. discriminate.
Qed.

(** [np.interp] at one speed: NaN for NaN, a value between the smallest and
    the largest sample otherwise. *)
Lemma interp1_bounds (lo hi : Q) (pts : list (Q * Q)) (v : float64) :
  pts <> [] ->
  increasing (map fst pts) ->
  Forall (fun p => (lo <= snd p <= hi)%Q) pts ->
  match v with
  | NaN => interp1 v pts = NaN \/ within lo hi (interp1 v pts)
  | Num _ => within lo hi (interp1 v pts)
  end.
Proof.
  intros Hne Hinc Hy. destruct pts as [|[x0 y0] rest]; [contradiction Hne; reflexivity|].
  assert (Hy0 : (lo <= y0 <= hi)%Q).
  { inversion Hy; subst. assumption. }
  destruct rest as [|p1 rest].
  - destruct v; [|right]; exists y0; split; try reflexivity; exact Hy0.
  - destruct v as [q|]; [|left; reflexivity].
    unfold interp1.
    destruct (last ((x0, y0) :: p1 :: rest) (x0, y0)) as [xl yl] eqn:El.
    assert (Hyl : (lo <= yl <= hi)%Q).
    { assert (Hin : In (xl, yl) ((x0, y0) :: p1 :: rest)).
      { rewrite <- El. apply last_in. discriminate. }
      rewrite Forall_forall in Hy. apply (Hy _ Hin). }
    destruct (Qlt_le_dec xl q); [exists yl; auto|].
    destruct (Qlt_le_dec q x0) as [_|Hle]; [exists y0; auto|].
    eexists. split; [reflexivity|].
    pose proof (interp_inside_bounds q lo hi ((x0, y0) :: p1 :: rest) Hinc Hy Hle)
      as Hb.
    rewrite (Qred_correct _). exact Hb.
Qed.

(** The running maximum of [np.nanmax]. *)
Lemma fold_fmax_num (ps : list float64) :
  forall a,
    exists M, fold_left fmax ps (Num a) = Num M
              /\ (a <= M)%Q /\ Forall (fun p => forall q, p = Num q -> (q <= M)%Q) ps.
Proof.
  induction ps as [|p ps IH]; intros a.
  - exists a. split; [reflexivity|]. split; [apply Qle_refl|constructor].
  - cbn [fold_left]. destruct p as [q|]; cbn [fmax].
    + destruct (Qle_bool a q) eqn:E.
      * destruct (IH q) as (M & HM & Hq & Hall). exists M.
        split; [exact HM|]. apply Qle_bool_iff in E.
        split; [apply Qle_trans with q; assumption|].
        constructor; [|exact Hall]. intros q' [= <-]. exact Hq.
      * destruct (IH a) as (M & HM & Ha & Hall). exists M.
        split; [exact HM|]. split; [exact Ha|].
        constructor; [|exact Hall]. intros q' [= <-].
        apply Qle_trans with a; [|exact Ha].
        apply Qlt_le_weak, Qnot_le_lt. intros Hle.
        apply Qle_bool_iff in Hle. congruence.
    + destruct (IH a) as (M & HM & Ha & Hall). exists M.
      split; [exact HM|]. split; [exact Ha|].
      constructor; [|exact Hall]. discriminate.
Qed.

Lemma fold_fmax_nan (ps : list float64) :
  (fold_left fmax ps NaN = NaN /\ Forall (fun p => p = NaN) ps)
  \/ exists M, fold_left fmax ps NaN = Num M
               /\ In (Num M) ps
               /\ Forall (fun p => forall q, p = Num q -> (q <= M)%Q) ps.
Proof.
  induction ps as [|p ps IH].
  - left. split; [reflexivity|constructor].
  - cbn [fold_left]. destruct p as [q|]; cbn [fmax].
    + right. clear IH.
      assert (H : forall ps a,
                 exists M, fold_left fmax ps (Num a) = Num M
                           /\ (M = a \/ In (Num M) ps)).
      { clear. induction ps as [|p ps IH]; intros a.
        - exists a. split; [reflexivity|left; reflexivity].
        - cbn [fold_left]. destruct p as [q|]; cbn [fmax].
          + destruct (Qle_bool a q).
            * destruct (IH q) as (M & HM & [E|Hin]); exists M;
                (split; [exact HM|]); right;
                [left; rewrite E; reflexivity|right; exact Hin].
            * destruct (IH a) as (M & HM & [E|Hin]); exists M;
                (split; [exact HM|]); [left; exact E|right; right; exact Hin].
          + destruct (IH a) as (M & HM & [E|Hin]); exists M;
              (split; [exact HM|]); [left; exact E|right; right; exact Hin]. }
      destruct (fold_fmax_num ps q) as (M & HM & Hq & Hall).
      destruct (H ps q) as (M' & HM' & Hin).
      rewrite HM in HM'. injection HM' as <-.
      exists M. split; [exact HM|]. split.
      * destruct Hin as [E|Hin]; [left; rewrite E; reflexivity|right; exact Hin].
      * constructor; [|exact Hall]. intros q' [= <-]. exact Hq.
    + destruct IH as [[HM Hall]|(M & HM & Hin & Hall)].
      * left. split; [exact HM|]. constructor; [reflexivity|exact Hall].
      * right. exists M. split; [exact HM|]. split; [right; exact Hin|].
        constructor; [discriminate|exact Hall].
Qed.

Lemma valid_samples_in (ws : list Q) :
  forall ps w y, In (w, y) (valid_samples ws ps) -> In (Num y) ps.
Proof.
  induction ws as [|w0 ws IH]; intros ps w y Hin; [contradiction|].
  destruct ps as [|[p|] ps]; cbn in Hin; [contradiction| |].
  - destruct Hin as [[= <- <-]|Hin]; [left; reflexivity|right; eapply IH; eauto].
  - right. eapply IH; eauto.
Qed.

End Interpolation.



Section UnitRange.

Lemma rint_nonneg (z : Q) : (0 <= z)%Q -> (0 <= rint z)%Z.
Proof.
  intros Hz. unfold rint.
  assert (Hf0 : (0 <= Qfloor z)%Z).
  { change 0%Z with (Qfloor 0). apply Qfloor_resp_le. exact Hz. }
  destruct (_ ?= _)%Q; [destruct (Z.even _)| |]; lia.
Qed.

Lemma round_q_4_nonneg (x : Q) : (0 <= x)%Q -> (0 <= round_q 4 x)%Q.
Proof.
  intros H0. unfold round_q. change (pow10 4) with (10000 # 1)%Q.
  assert (Hz : (0 <= rint (x * (10000 # 1)))%Z) by (apply rint_nonneg; lra).
  rewrite Zle_Qle in Hz. change (inject_Z 0) with 0%Q in Hz.
  set (r := inject_Z (rint (x * (10000 # 1)))) in *. clearbody r.
  assert (E : (r / (10000 # 1) == r * (1 # 10000))%Q) by field.
  rewrite E. lra.
Qed.

(** Rounding to four decimals keeps a value of [0, 1 + 1/20000] inside
    [0, 1]: the tie at 1.00005 goes to the even 10000. *)
Lemma round_q_4_unit (x : Q) :
  (0 <= x)%Q -> (x <= 1 + (1 # 20000))%Q -> (0 <= round_q 4 x <= 1)%Q.
Proof.
  intros H0 H1. split; [apply round_q_4_nonneg; exact H0|].
  unfold round_q. change (pow10 4) with (10000 # 1)%Q.
  set (z := (x * (10000 # 1))%Q).
  assert (Hz0 : (0 <= z)%Q) by (subst z; lra).
  assert (Hz1 : (z <= 20001 # 2)%Q) by (subst z; lra).
  clearbody z.
  assert (Hr : (rint z <= 10000)%Z).
  { unfold rint.
    pose proof (Qfloor_le z) as Hl. pose proof (Qlt_floor z) as Hu.
    assert (Hf1 : (Qfloor z <= 10000)%Z).
    { change 10000%Z with (Qfloor (20001 # 2)). apply Qfloor_resp_le. exact Hz1. }
    destruct (Qcompare_spec (z - inject_Z (Qfloor z)) (1 # 2)) as [He|Hlt|Hgt].
    - destruct (Z.even (Qfloor z)) eqn:Ev; [lia|].
      assert (Qfloor z <> 10000)%Z by (intros E; rewrite E in Ev; discriminate).
      lia.
    - lia.
    - assert (Qfloor z <> 10000)%Z.
      { intros E. rewrite E in Hgt. change (inject_Z 10000) with (10000 # 1)%Q in Hgt.
        lra. }
      lia. }
  rewrite Zle_Qle in Hr. change (inject_Z 10000) with (10000 # 1)%Q in Hr.
  set (r := inject_Z (rint z)) in *. clearbody r.
  assert (E : (r / (10000 # 1) == r * (1 # 10000))%Q) by field.
  rewrite E. lra.
Qed.

Lemma within_round_4 (x : Q) :
  (0 <= x)%Q -> (x <= 1 + (1 # 20000))%Q -> within 0 1 (round 4 (Num x)).
Proof.
  intros H0 H1. destruct (round_num 4 x) as (r & -> & Hr).
  exists r. split; [reflexivity|]. rewrite Hr. apply round_q_4_unit; assumption.
Qed.

Variable M : Q.
Hypothesis HM : (1 <= M)%Q.

(** One hour of the wind reducer without curtailment. *)
Lemma wind_sample_unit (p : float64) :
  power_sample M p ->
  within 0 1
    (round 4 (fdiv (nan_to_num (fdiv (round 4 p) (Num 1000%Q)))
                   (fdiv (Num M) (Num 1000%Q)))).
Proof.
  intros Hp.
  destruct (fdiv_num M 1000) as (m & Hm & Em); [discriminate|].
  rewrite Hm.
  assert (Hm0 : ~ (m == 0)%Q).
  { rewrite Em. intros E.
    assert (Hd : (M / 1000 == M * (1 # 1000))%Q) by field.
    rewrite Hd in E. lra. }
  destruct Hp as [->|(q & -> & Hq0 & Hq1)].
  - change (round 4 NaN) with NaN.
    change (fdiv NaN (Num 1000%Q)) with NaN.
    change (nan_to_num NaN) with (Num 0%Q).
    destruct (fdiv_num 0 m Hm0) as (c & -> & Ec).
    apply within_round_4; rewrite Ec.
    + assert (0 / m == 0)%Q by (field; exact Hm0). lra.
    + assert (0 / m == 0)%Q by (field; exact Hm0). lra.
  - destruct (round_num 4 q) as (r & -> & Er).
    destruct (fdiv_num r 1000) as (h & -> & Eh); [discriminate|].
    cbn [nan_to_num].
    destruct (fdiv_num h m Hm0) as (c & -> & Ec).
    pose proof (round_q_4_error q) as Herr.
    assert (Hc : (c == r / M)%Q).
    { rewrite Ec, Eh, Em. field. lra. }
    assert (Hr0 : (0 <= r)%Q) by (rewrite Er; apply round_q_4_nonneg; exact Hq0).
    assert (Hr1 : (r <= M + (1 # 20000))%Q) by (rewrite Er; lra).
    apply within_round_4; rewrite Hc.
    + apply Qle_shift_div_l; lra.
    + apply Qle_shift_div_r; [lra|]. nra.
Qed.

Lemma wind_samples_unit (power : list float64) :
  Forall (power_sample M) power ->
  Forall (within 0 1)
    (map (round 4)
       (map (fun p => fdiv p (fdiv (Num M) (Num 1000%Q)))
          (map nan_to_num (map (fun p => fdiv (round 4 p) (Num 1000%Q)) power)))).
Proof.
  induction 1 as [|p power Hp _ IH]; [constructor|].
  cbn [map]. constructor; [apply wind_sample_unit; exact Hp|exact IH].
Qed.

End UnitRange.

Section MeanInRange.

Lemma fold_fadd_within (xs : list float64) :
  Forall (within 0 1) xs ->
  forall a, exists s,
    fold_left fadd xs (Num a) = Num s
    /\ (a <= s <= a + inject_Z (Z.of_nat (length xs)))%Q.
Proof.
  induction 1 as [|x xs (q & -> & Hq0 & Hq1) _ IH]; intros a.
  - exists a. split; [reflexivity|]. cbn [length].
    change (inject_Z (Z.of_nat 0)) with 0%Q. lra.
  - cbn [fold_left]. destruct (IH (Qred (a + q))) as (s & Hs & Hl & Hu).
    exists s. split; [exact Hs|].
    rewrite (Qred_correct (a + q)) in Hl, Hu.
    cbn [length]. rewrite Nat2Z.inj_succ, <- Z.add_1_r, inject_Z_plus.
    change (inject_Z 1) with 1%Q. lra.
Qed.

Lemma mean_within (xs : list float64) :
  xs <> [] -> Forall (within 0 1) xs -> within 0 1 (round 4 (mean xs)).
Proof.
  intros Hne Hxs. unfold mean, sum.
  destruct (fold_fadd_within xs Hxs 0) as (s & -> & Hs0 & Hs1).
  assert (Hn : (1 <= inject_Z (Z.of_nat (length xs)))%Q).
  { destruct xs; [contradiction Hne; reflexivity|]. cbn [length].
    rewrite Nat2Z.inj_succ, <- Z.add_1_r, inject_Z_plus.
    change (inject_Z 1) with 1%Q.
    assert (0 <= inject_Z (Z.of_nat (length xs)))%Q.
    { change 0%Q with (inject_Z 0). rewrite <- Zle_Qle. lia. }
    lra. }
  set (n := inject_Z (Z.of_nat (length xs))) in *. clearbody n.
  destruct (fdiv_num s n) as (c & -> & Ec); [lra|].
  apply within_round_4; rewrite Ec.
  - apply Qle_shift_div_l; lra.
  - apply Qle_shift_div_r; [lra|]. nra.
Qed.

End MeanInRange.



(* ================================================================== *)
(** * The curtailment multiplier                                     *)
(* ================================================================== *)



(* ================================================================== *)
(** * The geography-only aggregate                                   *)
(* ================================================================== *)

Section Partition.

Import Aggregator.

Context {K R : Type}.
Variable eqb : K -> K -> bool.
Hypothesis eqb_refl : forall a, eqb a a = true.
Hypothesis eqb_sym : forall a b, eqb a b = eqb b a.
Hypothesis eqb_trans : forall a b c, eqb a b = true -> eqb b c = true -> eqb a c = true.
Variable key : R -> K.

Lemma filter_filter_implied (A : Type) (p q : A -> bool) (l : list A) :
  (forall x, p x = true -> q x = true) ->
  filter p (filter q l) = filter p l.
Proof.
  intros Himp. induction l as [|x l IH]; [reflexivity|]. cbn.
  destruct (q x) eqn:Eq; cbn.
  - rewrite IH. reflexivity.
  - destruct (p x) eqn:Ep; [|exact IH].
    rewrite (Himp _ Ep) in Eq. discriminate.
Qed.

Lemma filter_none (A : Type) (p : A -> bool) (l : list A) :
  (forall x, In x l -> p x = false) -> filter p l = [].
Proof.
  induction l as [|x l IH]; intros H; [reflexivity|]. cbn.
  rewrite (H x (or_introl eq_refl)). apply IH. intros y Hy. apply H. right. exact Hy.
Qed.

(** Among the distinct keys exactly one equals a key that occurs. *)
Lemma distinct_one_match (ks : list K) (x : K) :
  length (filter (fun k => eqb k x) (distinct eqb ks))
  = if existsb (fun k => eqb k x) ks then 1 else 0.
Proof.
  induction ks as [|k ks IH]; [reflexivity|].
  cbn [distinct filter existsb]. destruct (eqb k x) eqn:E; cbn [orb length].
  - rewrite filter_none; [reflexivity|].
    intros k' Hk'. apply filter_In in Hk'. destruct Hk' as [_ Hneq].
    destruct (eqb k' x) eqn:E'; [|reflexivity].
    assert (Hkk : eqb k k' = true).
    { apply eqb_trans with x; [exact E|]. rewrite eqb_sym. exact E'. }
    rewrite Hkk in Hneq. discriminate.
  - rewrite filter_filter_implied; [exact IH|].
    intros k' Hk'. destruct (eqb k k') eqn:Ekk; [|reflexivity].
    rewrite (eqb_trans _ _ _ Ekk Hk') in E. discriminate.
Qed.

Lemma list_sum_map_add (A : Type) (f g : A -> nat) (l : list A) :
  list_sum (map (fun a => f a + g a) l) = list_sum (map f l) + list_sum (map g l).
Proof.
  unfold list_sum. induction l as [|a l IH]; [reflexivity|]. cbn. rewrite IH. lia.
Qed.

Lemma list_sum_indicator (A : Type) (p : A -> bool) (l : list A) :
  list_sum (map (fun a => if p a then 1 else 0) l) = length (filter p l).
Proof.
  unfold list_sum. induction l as [|a l IH]; [reflexivity|]. cbn. rewrite IH.
  destruct (p a); reflexivity.
Qed.

(** The groups of [group by] share out the rows: their sizes add up to the
    number of rows. *)
Lemma group_sizes (rows : list R) :
  list_sum (map (fun g => length (snd g)) (group_by eqb key rows)) = length rows.
Proof.
  unfold group_by. rewrite map_map. cbn [snd].
  set (ks := distinct eqb (map key rows)).
  assert (Hone : forall r, In r rows ->
                   length (filter (fun k => eqb k (key r)) ks) = 1).
  { intros r Hr. subst ks. rewrite distinct_one_match.
    replace (existsb (fun k => eqb k (key r)) (map key rows)) with true;
      [reflexivity|].
    symmetry. apply existsb_exists. exists (key r).
    split; [apply in_map; exact Hr|apply eqb_refl]. }
  clearbody ks. induction rows as [|r rows IH].
  - clear Hone. induction ks as [|k ks IHk]; [reflexivity|exact IHk].
  - rewrite (map_ext _ (fun k =>
               (if eqb k (key r) then 1 else 0)
               + length (filter (fun r' => eqb k (key r')) rows))).
    2:{ intros k. cbn [filter]. destruct (eqb k (key r)); reflexivity. }
    rewrite list_sum_map_add, list_sum_indicator.
    rewrite (Hone r (or_introl eq_refl)).
    rewrite IH by (intros r' Hr'; apply Hone; right; exact Hr').
    reflexivity.
Qed.

(** The same for a quantity carried by the rows. *)
Lemma qsum_cons (x : Q) (l : list Q) : qsum (x :: l) = (x + qsum l)%Q.
Proof.
  reflexivity.
Qed.

Lemma qsum_map_add (A : Type) (f g : A -> Q) (l : list A) :
  (qsum (map (fun a => f a + g a) l) == qsum (map f l) + qsum (map g l))%Q.
Proof.
  induction l as [|a l IH]; [reflexivity|].
  cbn [map]. rewrite !qsum_cons, IH. ring.
Qed.

Lemma qsum_indicator (A : Type) (p : A -> bool) (c : Q) (l : list A) :
  (qsum (map (fun a => if p a then c else 0) l)
   == inject_Z (Z.of_nat (length (filter p l))) * c)%Q.
Proof.
  induction l as [|a l IH].
  - cbn [map filter length qsum fold_right].
    change (inject_Z (Z.of_nat 0)) with 0%Q. ring.
  - cbn [map filter]. rewrite qsum_cons, IH. destruct (p a); cbn [length].
    + rewrite Nat2Z.inj_succ, <- Z.add_1_r, inject_Z_plus.
      change (inject_Z 1) with 1%Q. ring.
    + ring.
Qed.

Lemma qsum_ext (A : Type) (f g : A -> Q) (l : list A) :
  (forall a, (f a == g a)%Q) -> (qsum (map f l) == qsum (map g l))%Q.
Proof.
  intros H. induction l as [|a l IH]; [reflexivity|].
  cbn [map]. rewrite !qsum_cons, IH, (H a). reflexivity.
Qed.

Lemma group_totals (w : R -> Q) (rows : list R) :
  (qsum (map (fun g => qsum (map w (snd g))) (group_by eqb key rows))
   == qsum (map w rows))%Q.
Proof.
  unfold group_by. rewrite map_map. cbn [snd].
  set (ks := distinct eqb (map key rows)).
  assert (Hone : forall r, In r rows ->
                   length (filter (fun k => eqb k (key r)) ks) = 1).
  { intros r Hr. subst ks. rewrite distinct_one_match.
    replace (existsb (fun k => eqb k (key r)) (map key rows)) with true;
      [reflexivity|].
    symmetry. apply existsb_exists. exists (key r).
    split; [apply in_map; exact Hr|apply eqb_refl]. }
  clearbody ks. induction rows as [|r rows IH].
  - clear Hone. induction ks as [|k ks IHk]; [reflexivity|].
    cbn [map filter] in *. rewrite qsum_cons, IHk. reflexivity.
  - rewrite (qsum_ext _ _ (fun k =>
               (if eqb k (key r) then w r else 0)
               + qsum (map w (filter (fun r' => eqb k (key r')) rows)))%Q).
    2:{ intros k. cbn [filter]. destruct (eqb k (key r));
          [cbn [map]; rewrite qsum_cons; reflexivity|ring]. }
    rewrite qsum_map_add, qsum_indicator.
    rewrite (Hone r (or_introl eq_refl)).
    rewrite IH by (intros r' Hr'; apply Hone; right; exact Hr').
    cbn [map]. rewrite qsum_cons. change (inject_Z (Z.of_nat 1)) with 1%Q. ring.
Qed.

End Partition.

Section GeoKeys.

Import Aggregator.

Lemma null_eqb_sym (a b : option Q) : null_eqb a b = null_eqb b a.
Proof.
  destruct a as [x|], b as [y|]; cbn; try reflexivity.
  destruct (Qeq_bool x y) eqn:E.
  - symmetry. apply Qeq_bool_iff. symmetry. apply Qeq_bool_iff. exact E.
  - destruct (Qeq_bool y x) eqn:E'; [|reflexivity].
    apply Qeq_bool_iff in E'. symmetry in E'. apply Qeq_bool_iff in E'. congruence.
Qed.

Lemma null_eqb_trans (a b c : option Q) :
  null_eqb a b = true -> null_eqb b c = true -> null_eqb a c = true.
Proof.
  destruct a as [x|], b as [y|], c as [z|]; cbn; try discriminate; auto.
  intros H1 H2. apply Qeq_bool_iff in H1, H2. apply Qeq_bool_iff.
  rewrite H1. exact H2.
Qed.

Lemma cols_eqb_sym (a : list (option Q)) :
  forall b, cols_eqb a b = cols_eqb b a.
Proof.
  induction a as [|x a IH]; intros [|y b]; cbn; try reflexivity.
  rewrite IH, null_eqb_sym. reflexivity.
Qed.

Lemma cols_eqb_trans (a : list (option Q)) :
  forall b c, cols_eqb a b = true -> cols_eqb b c = true -> cols_eqb a c = true.
Proof.
  induction a as [|x a IH]; intros [|y b] [|z c]; cbn; try discriminate; auto.
  rewrite !andb_true_iff. intros [H1 H2] [H3 H4]. split.
  - eapply null_eqb_trans; eassumption.
  - eapply IH; eassumption.
Qed.

Lemma geo_key_eqb_sym (a b : string * list (option Q)) :
  geo_key_eqb a b = geo_key_eqb b a.
Proof.
  unfold geo_key_eqb. rewrite String.eqb_sym, cols_eqb_sym. reflexivity.
Qed.

Lemma geo_key_eqb_trans (a b c : string * list (option Q)) :
  geo_key_eqb a b = true -> geo_key_eqb b c = true -> geo_key_eqb a c = true.
Proof.
  unfold geo_key_eqb. rewrite !andb_true_iff, !String.eqb_eq.
  intros [-> H1] [-> H2]. split; [reflexivity|].
  eapply cols_eqb_trans; eassumption.
Qed.

Lemma sql_sum_or_zero (xs : list (option Q)) :
  (or_zero (sql_sum xs) == qsum (map or_zero xs))%Q.
Proof.
  unfold sql_sum.
  assert (H : (qsum (non_null xs) == qsum (map or_zero xs))%Q).
  { induction xs as [|[x|] xs IH]; [reflexivity| |].
    - change (non_null (Some x :: xs)) with (x :: non_null xs).
      cbn [map or_zero]. rewrite !qsum_cons, IH. reflexivity.
    - change (non_null (None :: xs)) with (non_null xs).
      cbn [map or_zero]. rewrite qsum_cons, IH. ring. }
  destruct (non_null xs) as [|v vs] eqn:E; cbn [or_zero].
  - rewrite <- H. reflexivity.
  - exact H.
Qed.

End GeoKeys.


Section WeightedMeanBounds.

Import Aggregator.

Lemma sql_sum_some (xs : list (option Q)) :
  non_null xs <> [] -> sql_sum xs = Some (qsum (non_null xs)).
Proof.
  unfold sql_sum. destruct (non_null xs); [intros H; contradiction H|]; reflexivity.
Qed.

(** The products [avg_cf * "Nettonennleistung"] of the members. *)
Let products (members : list unit_row) : list (option Q) :=
  map (fun p => sql_mul (fst p) (snd p))
      (combine (map avg_cf members) (map Nettonennleistung members)).

Lemma rated_sums (lo hi : Q) (members : list unit_row) :
  Forall (rated_between lo hi) members ->
  (lo * qsum (non_null (map Nettonennleistung members))
   <= qsum (non_null (products members))
   <= hi * qsum (non_null (map Nettonennleistung members)))%Q
  /\ (members <> [] ->
      (0 < qsum (non_null (map Nettonennleistung members)))%Q
      /\ non_null (map Nettonennleistung members) <> []
      /\ non_null (products members) <> [])
  /\ (0 <= qsum (non_null (map Nettonennleistung members)))%Q.
Proof.
  induction 1 as [|u members (x & w & Hx & Hw & Hrange & Hpos) _ IH].
  - cbn. split; [split; lra|]. split; [intros H; contradiction H; reflexivity|].
    apply Qle_refl.
  - destruct IH as (Hb & _ & Hnn).
    unfold products in *. cbn [map combine]. rewrite Hx, Hw.
    cbn [fst snd sql_mul].
    change (non_null (Some w :: ?l)) with (w :: non_null l).
    change (non_null (Some (x * w)%Q :: ?l)) with ((x * w)%Q :: non_null l).
    rewrite !qsum_cons.
    set (W := qsum (non_null (map Nettonennleistung members))) in *.
    set (P := qsum (non_null _)) in *. clearbody W P.
    split; [split; nra|]. split; [|lra].
    intros _. split; [lra|]. split; discriminate.
Qed.

Lemma power_weighted_between (lo hi : Q) (members : list unit_row) :
  members <> [] ->
  Forall (rated_between lo hi) members ->
  exists v,
    power_weighted (map avg_cf members) (map Nettonennleistung members) = Some v
    /\ (lo <= v <= hi)%Q.
Proof.
  intros Hne Hm. destruct (rated_sums lo hi members Hm) as (Hb & Hpos & _).
  destruct (Hpos Hne) as (HW & Hws & Hps).
  unfold power_weighted. fold (products members).
  rewrite (sql_sum_some _ Hws), (sql_sum_some _ Hps).
  cbn [is_positive sql_div].
  set (W := qsum (non_null (map Nettonennleistung members))) in *.
  set (P := qsum (non_null (products members))) in *. clearbody W P.
  destruct (Qlt_le_dec 0 W) as [_|Hle]; [|lra].
  eexists. split; [reflexivity|]. split.
  - apply Qle_shift_div_l; [exact HW|]. lra.
  - apply Qle_shift_div_r; [exact HW|]. lra.
Qed.

Lemma rated_at_sums (w : Q) (members : list unit_row) :
  Forall (rated_at w) members ->
  (qsum (non_null (products members))
   == w * qsum (non_null (map avg_cf members)))%Q
  /\ (qsum (non_null (map Nettonennleistung members))
      == w * inject_Z (Z.of_nat (length (non_null (map avg_cf members)))))%Q
  /\ (members <> [] ->
      non_null (map Nettonennleistung members) <> []
      /\ non_null (products members) <> []
      /\ non_null (map avg_cf members) <> []).
Proof.
  induction 1 as [|u members (x & Hx & Hw) _ IH].
  - cbn. split; [ring|]. split; [ring|]. intros H; contradiction H; reflexivity.
  - destruct IH as (Hp & Hn & _).
    unfold products in *. cbn [map combine]. rewrite Hx, Hw.
    cbn [fst snd sql_mul].
    change (non_null (Some w :: ?l)) with (w :: non_null l).
    change (non_null (Some x :: ?l)) with (x :: non_null l).
    change (non_null (Some (x * w)%Q :: ?l)) with ((x * w)%Q :: non_null l).
    rewrite !qsum_cons, Hp, Hn. cbn [length].
    rewrite Nat2Z.inj_succ, <- Z.add_1_r, inject_Z_plus.
    change (inject_Z 1) with 1%Q.
    split; [ring|]. split; [ring|]. intros _. repeat split; discriminate.
Qed.

Lemma in_tmp_agg (l : agg_lvl) (units : list unit_row) (row : agg_row) :
  In row (tmp_agg l units) ->
  exists members,
    members <> []
    /\ (forall u, In u members -> In u units)
    /\ avg_cf_gesamt row = sql_avg (map avg_cf members)
    /\ avg_cf_gesamt_power_weighted row
       = power_weighted (map avg_cf members) (map Nettonennleistung members).
Proof.
  unfold tmp_agg, geo_groups. intros Hrow. apply in_map_iff in Hrow.
  destruct Hrow as ([k members] & <- & Hg). exists members.
  split; [exact (group_nonempty _ _ _ _ _ _ _ geo_key_eqb_refl Hg)|].
  split; [|split; reflexivity].
  unfold group_by in Hg. apply in_map_iff in Hg.
  destruct Hg as (k' & [= _ <-] & _). intros u Hu.
  apply filter_In in Hu. tauto.
Qed.

End WeightedMeanBounds.





(* ================================================================== *)
(** * The configuration                                              *)
(* ================================================================== *)

Section SetupConfigs.

Import Config.

Variable cfg : config.

Lemma bind_ok (A B : Type) (m : result A) (k : A -> result B) (b : B) :
  bind m k = Ok b -> exists a, m = Ok a /\ k a = Ok b.
Proof.
  destruct m as [a|e]; [|discriminate]. intros H. exists a. auto.
Qed.

Lemma setenv_ok (env env' : environ) (key : string) (value : yaml_value) :
  setenv env key value = Ok env' ->
  exists s, value = YamlStr s
            /\ env' key = Some s
            /\ forall k, k <> key -> env' k = env k.
Proof.
  destruct value as [s|b]; [|discriminate]. cbn [setenv].
  destruct (has_nul s); [discriminate|]. intros [= <-]. exists s.
  split; [reflexivity|]. split; [rewrite String.eqb_refl; reflexivity|].
  intros k Hk. destruct (String.eqb_spec k key); [contradiction|reflexivity].
Qed.

(** The assignments of a list of keys without repetition: each key holds its
    value afterwards, every other variable is as before. *)
Lemma defaults_loop (items : list (string * string)) :
  NoDup (map fst items) ->
  forall env env',
    for_each (fun env item =>
                setenv env (fst item) (get_or cfg (fst item) (snd item)))
      items env = Ok env' ->
    (forall key default,
        In (key, default) items ->
        exists s, get_or cfg key default = YamlStr s /\ env' key = Some s)
    /\ (forall k, ~ In k (map fst items) -> env' k = env k).
Proof.
  induction items as [|[key0 default0] items IH]; intros Hnd env env' Hrun.
  - cbn in Hrun. injection Hrun as <-. split; [intros ? ? []|reflexivity].
  - cbn [for_each fst snd] in Hrun.
    destruct (setenv env key0 (get_or cfg key0 default0)) as [env1|e] eqn:Hset;
      [|discriminate].
    cbn [bind] in Hrun. inversion Hnd as [|? ? Hnotin Hnd']; subst.
    destruct (IH Hnd' _ _ Hrun) as [Hin Hout].
    destruct (setenv_ok _ _ _ _ Hset) as (s & Hs & Hkey & Hother).
    split.
    + intros key default [[= <- <-]|Hitem].
      * exists s. split; [exact Hs|]. rewrite (Hout key0 Hnotin). exact Hkey.
      * apply Hin. exact Hitem.
    + intros k Hk. cbn [map fst] in Hk.
      rewrite Hout by (intros H; apply Hk; right; exact H).
      apply Hother. intros ->. apply Hk. left. reflexivity.
Qed.

Lemma mandatory_loop (keys : list string) :
  NoDup keys ->
  forall env env',
    for_each (fun env key => set_env_var_from_config cfg key env) keys env
    = Ok env' ->
    (forall key, In key keys ->
                 exists s, cfg key = Some (YamlStr s) /\ s <> ""
                           /\ env' key = Some s)
    /\ (forall k, ~ In k keys -> env' k = env k).
Proof.
  induction keys as [|key0 keys IH]; intros Hnd env env' Hrun.
  - cbn in Hrun. injection Hrun as <-. split; [intros ? []|reflexivity].
  - cbn [for_each] in Hrun.
    destruct (set_env_var_from_config cfg key0 env) as [env1|e] eqn:Hset;
      [|discriminate].
    cbn [bind] in Hrun. inversion Hnd as [|? ? Hnotin Hnd']; subst.
    destruct (IH Hnd' _ _ Hrun) as [Hin Hout].
    unfold set_env_var_from_config in Hset.
    destruct (cfg key0) as [value|] eqn:Hcfg; [|discriminate].
    destruct (truth_of value) eqn:Htruth; [|discriminate].
    destruct (setenv_ok _ _ _ _ Hset) as (s & -> & Hkey & Hother).
    split.
    + intros key [<-|Hk].
      * exists s. split; [exact Hcfg|]. split.
        -- intros ->. discriminate.
        -- rewrite (Hout key0 Hnotin). exact Hkey.
      * apply Hin. exact Hk.
    + intros k Hk. rewrite Hout by (intros H; apply Hk; right; exact H).
      apply Hother. intros ->. apply Hk. left. reflexivity.
Qed.

Lemma defaults_keys (timestamp : string) :
  NoDup (map fst (defaults timestamp))
  /\ Forall (fun k => ~ In k mandatory /\ k <> "CONFIG_PATH")
            (map fst (defaults timestamp)).
Proof.
  cbn [defaults map fst]. split.
  - repeat (constructor; [cbn; intuition discriminate|]). constructor.
  - repeat (constructor; [cbn; intuition discriminate|]). constructor.
Qed.

Lemma mandatory_keys :
  NoDup mandatory /\ ~ In "CONFIG_PATH" mandatory.
Proof.
  unfold mandatory. split.
  - repeat (constructor; [cbn; intuition discriminate|]). constructor.
  - cbn. intuition discriminate.
Qed.

(** What a call of [setup_configs] that ends normally has done. *)
Lemma setup_configs_ok (timestamp config_path : string) (env env' : environ) :
  setup_configs timestamp cfg config_path env = Ok env' ->
  env' "CONFIG_PATH" = Some config_path
  /\ (forall key, In key mandatory ->
                  exists s, cfg key = Some (YamlStr s) /\ s <> ""
                            /\ env' key = Some s)
  /\ (forall key default,
        In (key, default) (defaults timestamp) ->
        exists s, get_or cfg key default = YamlStr s /\ env' key = Some s)
  /\ (forall k,
        k <> "CONFIG_PATH" -> ~ In k mandatory ->
        ~ In k (map fst (defaults timestamp)) -> env' k = env k).
Proof.
  unfold setup_configs. intros Hrun.
  apply bind_ok in Hrun. destruct Hrun as (env0 & H0 & Hrun).
  apply bind_ok in Hrun. destruct Hrun as (env1 & Hm & Hrun).
  destruct (setenv_ok _ _ _ _ H0) as (s0 & Hs0 & Hcp0 & Hother0).
  injection Hs0 as <-.
  destruct mandatory_keys as [Hnd Hcp].
  destruct (mandatory_loop mandatory Hnd _ _ Hm) as [Hmin Hmout].
  destruct (defaults_keys timestamp) as [Hnd' Hsep].
  destruct (defaults_loop (defaults timestamp) Hnd' _ _ Hrun) as [Hdin Hdout].
  rewrite Forall_forall in Hsep.
  split; [|split; [|split]].
  - rewrite Hdout, Hmout; [exact Hcp0|exact Hcp|].
    intros Hin. apply (proj2 (Hsep _ Hin)). reflexivity.
  - intros key Hkey. destruct (Hmin key Hkey) as (s & Hc & Hs & He).
    exists s. split; [exact Hc|]. split; [exact Hs|].
    rewrite Hdout; [exact He|]. intros Hin. apply (proj1 (Hsep _ Hin)). exact Hkey.
  - exact Hdin.
  - intros k Hk1 Hk2 Hk3. rewrite (Hdout k Hk3), (Hmout k Hk2).
    apply Hother0. exact Hk1.
Qed.

End SetupConfigs.





(* ================================================================== *)
(** * The export to CSV                                              *)
(* ================================================================== *)

Section ExportLoop.

Import ExportCsv.

Variable R : Type.
Variable rows : list R.
Variable b : Z.
Hypothesis Hb : (1 <= b)%Z.

(** One turn of the loop on an offset inside the table. *)
Lemma export_loop_step (fuel : nat) (current_offset : Z)
    (output_file : list (csv_line R)) :
  (0 <= current_offset)%Z ->
  skipn (Z.to_nat current_offset) rows <> [] ->
  export_loop rows (S fuel) (Some b) current_offset output_file
  = export_loop rows fuel (Some b) (current_offset + b)
      (write_to_csv
         (firstn (Z.to_nat b) (skipn (Z.to_nat current_offset) rows))
         output_file current_offset).
Proof.
  intros Hoff Hrest. cbn [export_loop]. unfold fetch_batch.
  destruct (Z.ltb_spec current_offset 0) as [Hneg|_]; [lia|].
  destruct (Z.ltb_spec b 0) as [Hneg|_]; [lia|].
  destruct (skipn (Z.to_nat current_offset) rows) as [|r rest] eqn:Hskip;
    [contradiction|].
  destruct (Z.to_nat b) as [|n] eqn:Hn; [lia|]. reflexivity.
Qed.

(** The turn that finds nothing left. *)
Lemma export_loop_stop (fuel : nat) (current_offset : Z)
    (output_file : list (csv_line R)) :
  (0 <= current_offset)%Z ->
  skipn (Z.to_nat current_offset) rows = [] ->
  export_loop rows (S fuel) (Some b) current_offset output_file
  = Some (output_file,
          if (current_offset =? 0)%Z then Warned else Exported).
Proof.
  intros Hoff Hrest. cbn [export_loop]. unfold fetch_batch.
  destruct (Z.ltb_spec current_offset 0) as [Hneg|_]; [lia|].
  destruct (Z.ltb_spec b 0) as [Hneg|_]; [lia|].
  rewrite Hrest, firstn_nil. cbn [empty andb].
  destruct (current_offset =? 0)%Z; reflexivity.
Qed.

Lemma skipn_nonempty_length (n : nat) (l : list R) :
  skipn n l <> [] -> n < length l.
Proof.
  intros H. destruct (Nat.lt_ge_cases n (length l)) as [Hlt|Hge]; [exact Hlt|].
  contradiction H. apply skipn_all2. exact Hge.
Qed.

(** From a positive offset, the loop appends what is left of the table. *)
Lemma export_loop_rest (fuel : nat) :
  forall (current_offset : Z) (output_file : list (csv_line R)),
    (0 < current_offset)%Z ->
    length rows - Z.to_nat current_offset < fuel ->
    export_loop rows fuel (Some b) current_offset output_file
    = Some (output_file ++ map Line (skipn (Z.to_nat current_offset) rows),
            Exported).
Proof.
  induction fuel as [|fuel IH]; intros current_offset output_file Hoff Hfuel;
    [lia|].
  destruct (skipn (Z.to_nat current_offset) rows) as [|r rest] eqn:Hskip.
  - rewrite export_loop_stop by (lia || exact Hskip).
    destruct (Z.eqb_spec current_offset 0) as [H0|_]; [lia|].
    cbn [map]. rewrite app_nil_r. reflexivity.
  - assert (Hin : Z.to_nat current_offset < length rows).
    { apply skipn_nonempty_length. rewrite Hskip. discriminate. }
    rewrite export_loop_step by (lia || (rewrite Hskip; discriminate)).
    rewrite IH by lia.
    unfold write_to_csv.
    destruct (Z.eqb_spec current_offset 0) as [H0|_]; [lia|].
    rewrite <- app_assoc, <- map_app.
    replace (Z.to_nat (current_offset + b))
      with (Z.to_nat b + Z.to_nat current_offset) by lia.
    rewrite <- skipn_skipn, Hskip, firstn_skipn. reflexivity.
Qed.

(** The whole export with a batch size of at least 1. *)
Lemma export_to_csv_complete (fuel : nat) (output_file : list (csv_line R)) :
  length rows < fuel ->
  export_to_csv rows fuel (Some b) output_file
  = Some (match rows with
          | [] => (output_file, Warned)
          | _ :: _ => (Header :: map Line rows, Exported)
          end).
Proof.
  intros Hfuel. unfold export_to_csv.
  destruct fuel as [|fuel]; [lia|].
  destruct rows as [|r rest] eqn:Hrows.
  - rewrite <- Hrows. rewrite export_loop_stop; [reflexivity|lia|].
    rewrite Hrows. reflexivity.
  - rewrite <- Hrows.
    rewrite export_loop_step; [|lia|rewrite Hrows; discriminate].
    rewrite export_loop_rest; [|lia|cbn [Z.add]; rewrite Hrows; cbn [length] in *; lia].
    unfold write_to_csv. cbn [Z.eqb Z.to_nat skipn Z.add app].
    rewrite <- map_app, firstn_skipn. reflexivity.
Qed.

End ExportLoop.




